(** * Panel client of the 3x-ui Telegram bot: model and verified properties

    A shallow embedding of [src/ui_api.py] (class [UIAPI]) and of the
    duplicate-login guard of [src/bot.py].

    - Python values are a JSON-shaped universe ([pyval]); a [str] is a
      Rocq [string] whose characters are code points U+0000..U+00FF and an
      [int] is a [Z].  Floats and code points above U+00FF are outside the
      universe: where a JSON text denotes such a value the decoder answers
      [Unmodelled] instead of guessing.
    - A [dict] is an association list in insertion order (the order
      [json.dumps] prints), with the usual "keys are unique" invariant.
    - Exceptions are the [Raise] outcome of [result]; the panel is an
      oracle answering each HTTP request from the history of requests, and
      the client runs in a state monad over that history.
    - The decoder and the polling loop recurse on fuel; the fuel they are
      given is shown to be enough ([json_loads_fuel_enough],
      [try_get_fuel_enough]). *)

From Stdlib Require Import String Ascii List ZArith Bool Lia Arith.
From Stdlib Require Import DecimalString DecimalZ.
Import ListNotations.
Local Open Scope list_scope.
Local Open Scope string_scope.

(* ================================================================== *)
(** ** Python values *)

Unset Elimination Schemes.
Inductive pyval :=
| PNone
| PBool (b : bool)
| PInt (z : Z)
| PStr (s : string)
| PList (l : list pyval)
| PDict (d : list (string * pyval)).
Set Elimination Schemes.

Definition pydict := list (string * pyval).

(* ================================================================== *)
(** ** Outcomes *)

(** Messages of the exceptions the client raises itself; the Russian
    f-strings of the source are kept as structured data. *)
Inductive message :=
| MsgInboundMissing (inbound_id : Z) (available : list pyval)
                                                     (* add_client: inbound absent, ids listed *)
| MsgAddClientFailed (last_res : pyval)              (* f"addClient failed: {last_res}" *)
| MsgInboundNotFound (inbound_id : Z)                (* f"Inbound {inbound_id} ..." *)
| MsgUnlimitedPlan                                   (* add_traffic on totalGB == 0 *)
| MsgClientNotFound (email : string)                 (* add_traffic / update_client / LookupError *)
| MsgUpdateFailed (res : pyval).                     (* panel did not report success *)

Inductive exn :=
| AttributeError
| TypeError
| ValueError
| KeyError
| JSONDecodeError
| RequestError (text : string)     (* requests: transport failure or raise_for_status *)
| RuntimeError (m : message)
| LookupError (m : message).

(** [Unmodelled]: the model gives no verdict (a value outside the
    universe, or recursion fuel exhausted). *)
Inductive result (A : Type) :=
| Ok (a : A)
| Raise (e : exn)
| Unmodelled.
Arguments Ok {A} a.
Arguments Raise {A} e.
Arguments Unmodelled {A}.

Definition rbind {A B} (r : result A) (k : A -> result B) : result B :=
  match r with
  | Ok a => k a
  | Raise e => Raise e
  | Unmodelled => Unmodelled
  end.

Declare Scope res_scope.
Delimit Scope res_scope with res.
Notation "x <- c ;; k" := (rbind c (fun x => k))
  (at level 61, c at next level, right associativity) : res_scope.
Notation "' pat <- c ;; k" := (rbind c (fun x => match x with pat => k end))
  (at level 61, pat pattern, c at next level, right associativity) : res_scope.

(* ================================================================== *)
(** ** Operations on Python values *)

(** [bool(v)] *)
Definition truthy (v : pyval) : bool :=
  match v with
  | PNone => false
  | PBool b => b
  | PInt z => negb (Z.eqb z 0)
  | PStr s => negb (String.eqb s "")
  | PList l => match l with [] => false | _ => true end
  | PDict d => match d with [] => false | _ => true end
  end.

(** [a or b] *)
Definition py_or (a b : pyval) : pyval := if truthy a then a else b.

(** [isinstance(v, str)], [isinstance(v, list)], [isinstance(v, dict)] *)
Definition is_str (v : pyval) : bool := match v with PStr _ => true | _ => false end.
Definition is_list (v : pyval) : bool := match v with PList _ => true | _ => false end.
Definition is_dict (v : pyval) : bool := match v with PDict _ => true | _ => false end.

(** [v == s] for a [str] [s]: only an equal [str] compares equal. *)
Definition py_eq_str (v : pyval) (s : string) : bool :=
  match v with
  | PStr t => String.eqb t s
  | _ => false
  end.

(** [v is True] *)
Definition is_True (v : pyval) : bool :=
  match v with PBool true => true | _ => false end.

(** *** dict operations *)

Fixpoint dict_lookup (d : pydict) (k : string) : option pyval :=
  match d with
  | [] => None
  | (k', v) :: r => if String.eqb k' k then Some v else dict_lookup r k
  end.

(** [d.get(k, default)] on a dict *)
Definition dict_get_default (d : pydict) (k : string) (default : pyval) : pyval :=
  match dict_lookup d k with
  | Some v => v
  | None => default
  end.

(** [d.get(k)] *)
Definition dict_get (d : pydict) (k : string) : pyval := dict_get_default d k PNone.

(** [d[k] = v]: an existing key keeps its position. *)
Fixpoint dict_set (d : pydict) (k : string) (v : pyval) : pydict :=
  match d with
  | [] => [(k, v)]
  | (k', v') :: r =>
      if String.eqb k' k then (k', v) :: r else (k', v') :: dict_set r k v
  end.

(** [dict(pairs)]: later pairs overwrite earlier ones. *)
Definition dict_of_pairs (pairs : list (string * pyval)) : pydict :=
  fold_left (fun d kv => dict_set d (fst kv) (snd kv)) pairs [].

(** [v.get(k)] on an arbitrary value: only a dict has the method. *)
Definition py_get (v : pyval) (k : string) : result pyval :=
  match v with
  | PDict d => Ok (dict_get d k)
  | _ => Raise AttributeError
  end.

Definition py_get_default (v : pyval) (k : string) (default : pyval) : result pyval :=
  match v with
  | PDict d => Ok (dict_get_default d k default)
  | _ => Raise AttributeError
  end.

(** [v[k]] with a [str] key.  Indexing a list or a str with a str is a
    [TypeError], as is subscripting [None], a bool or an int. *)
Definition py_getitem (v : pyval) (k : string) : result pyval :=
  match v with
  | PDict d => match dict_lookup d k with
               | Some x => Ok x
               | None => Raise KeyError
               end
  | _ => Raise TypeError
  end.

(** [iter(v)]: the items a [for] loop or a generator sees. *)
Definition py_iter (v : pyval) : result (list pyval) :=
  match v with
  | PList l => Ok l
  | PDict d => Ok (map (fun kv => PStr (fst kv)) d)
  | PStr s => Ok (map (fun c => PStr (String c "")) (list_ascii_of_string s))
  | _ => Raise TypeError
  end.

(* ================================================================== *)
(** ** Python [str] and [int] built-ins *)

Definition code (c : ascii) : nat := nat_of_ascii c.

(** The double-quote and backslash characters. *)
Definition dquote : ascii := "034"%char.
Definition backslash : ascii := "092"%char.

(** [c.isspace()] on U+0000..U+00FF: TAB..CR, FS..US, SP, NEL, NBSP. *)
Definition is_space (c : ascii) : bool :=
  let n := code c in
  (((9 <=? n) && (n <=? 13)) || ((28 <=? n) && (n <=? 32))
   || (n =? 133) || (n =? 160))%nat.

Fixpoint lstrip (s : string) : string :=
  match s with
  | String c r => if is_space c then lstrip r else s
  | "" => ""
  end.

Fixpoint rstrip (s : string) : string :=
  match s with
  | "" => ""
  | String c r =>
      match rstrip r with
      | "" => if is_space c then "" else String c ""
      | r' => String c r'
      end
  end.

(** [s.strip()] *)
Definition strip (s : string) : string := rstrip (lstrip s).

(** [c.lower()] on U+0000..U+00FF: A..Z and the capital letters
    U+00C0..U+00DE (without the multiplication sign U+00D7) move by 32. *)
Definition lower_char (c : ascii) : ascii :=
  let n := code c in
  if (((65 <=? n) && (n <=? 90))
      || ((192 <=? n) && (n <=? 222) && negb (n =? 215)))%nat
  then ascii_of_nat (n + 32) else c.

(** [s.lower()] *)
Fixpoint lower (s : string) : string :=
  match s with
  | "" => ""
  | String c r => String (lower_char c) (lower r)
  end.

(** [sep.join(parts)] *)
Fixpoint join (sep : string) (parts : list string) : string :=
  match parts with
  | [] => ""
  | [p] => p
  | p :: r => p ++ sep ++ join sep r
  end.

(** [str(z)] for an int *)
Definition str_of_Z (z : Z) : string := NilZero.string_of_int (Z.to_int z).

Definition hex_digit (n : nat) : ascii :=
  ascii_of_nat (if (n <? 10)%nat then 48 + n else 87 + n).

(** [c.isprintable()] on U+0000..U+00FF *)
Definition is_printable (c : ascii) : bool :=
  let n := code c in
  (((32 <=? n) && (n <=? 126)) || ((161 <=? n) && negb (n =? 173)))%nat.

Fixpoint contains_char (c : ascii) (s : string) : bool :=
  match s with
  | "" => false
  | String c' r => Ascii.eqb c c' || contains_char c r
  end.

(** The body of [repr(s)] for quote character [q]. *)
Fixpoint repr_body (q : ascii) (s : string) : string :=
  match s with
  | "" => ""
  | String c r =>
      let n := code c in
      (if Ascii.eqb c q || Ascii.eqb c backslash then String backslash (String c "")
       else if (n =? 9)%nat then "\t"
       else if (n =? 10)%nat then "\n"
       else if (n =? 13)%nat then "\r"
       else if is_printable c then String c ""
       else String "\" (String "x" (String (hex_digit (n / 16))
                                       (String (hex_digit (n mod 16)) ""))))
      ++ repr_body q r
  end.

(** [repr(s)]: single quotes unless the text has a single quote and no
    double quote. *)
Definition repr_str (s : string) : string :=
  let q := if contains_char "'" s && negb (contains_char dquote s)
           then dquote else "'"%char in
  String q (repr_body q s ++ String q "").

(** [repr(v)] *)
Fixpoint py_repr (v : pyval) : string :=
  match v with
  | PNone => "None"
  | PBool true => "True"
  | PBool false => "False"
  | PInt z => str_of_Z z
  | PStr s => repr_str s
  | PList l => "[" ++ join ", " (map py_repr l) ++ "]"
  | PDict d =>
      "{" ++ join ", " (map (fun kv => repr_str (fst kv) ++ ": " ++ py_repr (snd kv)) d)
          ++ "}"
  end.

(** [str(v)], which is also what an f-string field [{v}] prints. *)
Definition py_str (v : pyval) : string :=
  match v with
  | PStr s => s
  | _ => py_repr v
  end.

(** [int(s)] for a str: optional blanks, an optional sign, decimal
    digits with single underscores between them, optional blanks. *)
Definition is_int_blank (c : ascii) : bool :=
  let n := code c in
  (((9 <=? n) && (n <=? 13)) || (n =? 32) || (n =? 133) || (n =? 160))%nat.

Definition is_digit (c : ascii) : bool :=
  let n := code c in ((48 <=? n) && (n <=? 57))%nat.

Definition digit_val (c : ascii) : Z := Z.of_nat (code c) - 48.

Fixpoint skip_int_blanks (s : string) : string :=
  match s with
  | String c r => if is_int_blank c then skip_int_blanks r else s
  | "" => ""
  end.

(** Digits after the first one: [after_digit] tells whether the previous
    character was a digit (an underscore needs a digit on both sides). *)
Fixpoint int_digits (acc : Z) (after_digit : bool) (s : string) : option Z :=
  match s with
  | "" => if after_digit then Some acc else None
  | String c r =>
      if is_digit c then int_digits (10 * acc + digit_val c) true r
      else if Ascii.eqb c "_" then
        if after_digit then int_digits acc false r else None
      else if after_digit && is_int_blank c then
        match skip_int_blanks r with
        | "" => Some acc
        | _ => None
        end
      else None
  end.

Definition int_of_str (s : string) : result Z :=
  let unsigned (t : string) : option Z :=
    match t with
    | String c _ => if is_digit c then int_digits 0 false t else None
    | "" => None
    end in
  let r :=
    match skip_int_blanks s with
    | String "-" t => option_map Z.opp (unsigned t)
    | String "+" t => unsigned t
    | t => unsigned t
    end in
  match r with
  | Some z => Ok z
  | None => Raise ValueError
  end.

(** [int(v)] *)
Definition py_int (v : pyval) : result Z :=
  match v with
  | PInt z => Ok z
  | PBool b => Ok (if b then 1 else 0)%Z
  | PStr s => int_of_str s
  | _ => Raise TypeError
  end.

(* ================================================================== *)
(** ** The [json] module

    [json.dumps(v, separators=(",", ":"))] with the default
    [ensure_ascii=True], and [json.loads(s)] for a [str], following
    [json.encoder] and [json.decoder]/[json.scanner] of the standard
    library.  The interpreter's recursion limit is not modelled. *)

(** [ESCAPE_ASCII] / [ESCAPE_DCT] of [json.encoder] *)
Definition json_escape_char (c : ascii) : string :=
  let n := code c in
  if (n =? 34)%nat then String backslash (String dquote "")
  else if (n =? 92)%nat then "\\"
  else if (n =? 10)%nat then "\n"
  else if (n =? 13)%nat then "\r"
  else if (n =? 9)%nat then "\t"
  else if (n =? 8)%nat then "\b"
  else if (n =? 12)%nat then "\f"
  else if ((32 <=? n) && (n <=? 126))%nat then String c ""
  else "\u00" ++ String (hex_digit (n / 16)) (String (hex_digit (n mod 16)) "").

Fixpoint json_escape (s : string) : string :=
  match s with
  | "" => ""
  | String c r => json_escape_char c ++ json_escape r
  end.

(** [py_encode_basestring_ascii] *)
Definition encode_basestring_ascii (s : string) : string :=
  String dquote (json_escape s ++ String dquote "").

(** [json.dumps(v, separators=(",", ":"))] *)
Fixpoint json_dumps (v : pyval) : string :=
  match v with
  | PNone => "null"
  | PBool true => "true"
  | PBool false => "false"
  | PInt z => str_of_Z z
  | PStr s => encode_basestring_ascii s
  | PList l => "[" ++ join "," (map json_dumps l) ++ "]"
  | PDict d =>
      "{" ++ join "," (map (fun kv => encode_basestring_ascii (fst kv)
                                        ++ ":" ++ json_dumps (snd kv)) d)
          ++ "}"
  end.

(** [WHITESPACE = re.compile(r'[ \t\n\r]*')] *)
Definition is_json_ws (c : ascii) : bool :=
  let n := code c in ((n =? 32) || (n =? 9) || (n =? 10) || (n =? 13))%nat.

Fixpoint skip_ws (s : string) : string :=
  match s with
  | String c r => if is_json_ws c then skip_ws r else s
  | "" => ""
  end.

Definition hex_val (c : ascii) : option nat :=
  let n := code c in
  if ((48 <=? n) && (n <=? 57))%nat then Some (n - 48)
  else if ((97 <=? n) && (n <=? 102))%nat then Some (n - 87)
  else if ((65 <=? n) && (n <=? 70))%nat then Some (n - 55)
  else None.

(** [_decode_uXXXX]: four hexadecimal digits *)
Definition decode_uXXXX (h1 h2 h3 h4 : ascii) : option nat :=
  match hex_val h1, hex_val h2, hex_val h3, hex_val h4 with
  | Some a, Some b, Some c, Some d => Some (((a * 16 + b) * 16 + c) * 16 + d)
  | _, _, _, _ => None
  end.

(** [BACKSLASH] of [json.decoder] *)
Definition unescape (e : ascii) : option ascii :=
  let n := code e in
  if (n =? 34)%nat then Some dquote
  else if (n =? 92)%nat then Some backslash
  else if (n =? 47)%nat then Some "/"%char
  else if (n =? 98)%nat then Some "008"%char
  else if (n =? 102)%nat then Some "012"%char
  else if (n =? 110)%nat then Some "010"%char
  else if (n =? 114)%nat then Some "013"%char
  else if (n =? 116)%nat then Some "009"%char
  else None.

(** [scanstring(s, end, strict=True)], from just after the opening quote:
    the decoded text and the input after the closing quote.  An escape
    naming a code point above U+00FF leaves the universe. *)
Fixpoint scanstring (s : string) : result (string * string) :=
  match s with
  | "" => Raise JSONDecodeError
  | String c r =>
      if Ascii.eqb c dquote then Ok ("", r)
      else if Ascii.eqb c backslash then
        match r with
        | "" => Raise JSONDecodeError
        | String e r1 =>
            if Ascii.eqb e "u" then
              match r1 with
              | String h1 (String h2 (String h3 (String h4 r2))) =>
                  match decode_uXXXX h1 h2 h3 h4 with
                  | Some n =>
                      if (n <? 256)%nat then
                        match scanstring r2 with
                        | Ok (t, rest) => Ok (String (ascii_of_nat n) t, rest)
                        | Raise e' => Raise e'
                        | Unmodelled => Unmodelled
                        end
                      else Unmodelled
                  | None => Raise JSONDecodeError
                  end
              | _ => Raise JSONDecodeError
              end
            else
              match unescape e with
              | Some ch =>
                  match scanstring r1 with
                  | Ok (t, rest) => Ok (String ch t, rest)
                  | Raise e' => Raise e'
                  | Unmodelled => Unmodelled
                  end
              | None => Raise JSONDecodeError
              end
        end
      else if (code c <? 32)%nat then Raise JSONDecodeError
      else
        match scanstring r with
        | Ok (t, rest) => Ok (String c t, rest)
        | Raise e' => Raise e'
        | Unmodelled => Unmodelled
        end
  end.

Fixpoint span_digits (s : string) : string * string :=
  match s with
  | String c r =>
      if is_digit c then let (d, rest) := span_digits r in (String c d, rest)
      else ("", s)
  | "" => ("", "")
  end.

(** Group 1 of [NUMBER_RE] (an optional minus sign, then either a single
    zero or a non-zero digit followed by digits), and the input after it. *)
Definition match_integer (s : string) : option (string * string) :=
  let unsigned (t : string) : option (string * string) :=
    match t with
    | String c r =>
        if Ascii.eqb c "0" then Some ("0", r)
        else if is_digit c then Some (span_digits t)
        else None
    | "" => None
    end in
  match s with
  | String c t =>
      if Ascii.eqb c "-" then
        match unsigned t with
        | Some (ds, rest) => Some (String "-" ds, rest)
        | None => None
        end
      else unsigned s
  | "" => None
  end.

(** Groups 2 and 3 of [NUMBER_RE]: a dot and digits; [e] or [E], an
    optional sign and digits. *)
Definition starts_with_digit (s : string) : bool :=
  match s with String c _ => is_digit c | "" => false end.

Definition has_frac (s : string) : bool :=
  match s with
  | String c r => Ascii.eqb c "." && starts_with_digit r
  | "" => false
  end.

Definition has_exp (s : string) : bool :=
  match s with
  | String c r =>
      (Ascii.eqb c "e" || Ascii.eqb c "E")
      && match r with
         | String sg r' =>
             if Ascii.eqb sg "+" || Ascii.eqb sg "-" then starts_with_digit r'
             else is_digit sg
         | "" => false
         end
  | "" => false
  end.

(** [s[idx:idx+len(p)] == p], with the input after the match. *)
Fixpoint strip_prefix (p s : string) : option string :=
  match p, s with
  | "", _ => Some s
  | String a p', String b s' => if Ascii.eqb a b then strip_prefix p' s' else None
  | _, "" => None
  end.

(** [py_make_scanner._scan_once] on a number or a constant *)
Definition scan_atom (s : string) : result (pyval * string) :=
  match strip_prefix "null" s, strip_prefix "true" s, strip_prefix "false" s with
  | Some r, _, _ => Ok (PNone, r)
  | _, Some r, _ => Ok (PBool true, r)
  | _, _, Some r => Ok (PBool false, r)
  | None, None, None =>
      match match_integer s with
      | Some (integer, rest) =>
          if has_frac rest || has_exp rest then Unmodelled   (* a float *)
          else match NilZero.int_of_string integer with
               | Some i => Ok (PInt (Z.of_int i), rest)
               | None => Raise ValueError
               end
      | None =>
          match strip_prefix "NaN" s, strip_prefix "Infinity" s,
                strip_prefix "-Infinity" s with
          | None, None, None => Raise JSONDecodeError
          | _, _, _ => Unmodelled                           (* a float *)
          end
      end
  end.

(** [_scan_once], [JSONObject] and [JSONArray]; [fuel] bounds the nesting. *)
Fixpoint scan_once (fuel : nat) (s : string) {struct fuel}
  : result (pyval * string) :=
  match fuel with
  | O => Unmodelled
  | S f =>
      match s with
      | "" => Raise JSONDecodeError
      | String c r =>
          if Ascii.eqb c dquote then
            match scanstring r with
            | Ok (t, rest) => Ok (PStr t, rest)
            | Raise e => Raise e
            | Unmodelled => Unmodelled
            end
          else if Ascii.eqb c "{" then
            match skip_ws r with
            | String c1 r1 =>
                if Ascii.eqb c1 "}" then Ok (PDict [], r1)
                else if Ascii.eqb c1 dquote then object_items f [] r1
                else Raise JSONDecodeError
            | "" => Raise JSONDecodeError
            end
          else if Ascii.eqb c "[" then
            match skip_ws r with
            | String c1 r1 =>
                if Ascii.eqb c1 "]" then Ok (PList [], r1)
                else array_items f [] (skip_ws r)
            | "" => Raise JSONDecodeError
            end
          else scan_atom s
      end
  end

(* the [while True] loop of [JSONObject], from just after the opening
   quote of a key *)
with object_items (fuel : nat) (pairs : list (string * pyval)) (s : string)
  {struct fuel} : result (pyval * string) :=
  match fuel with
  | O => Unmodelled
  | S f =>
      match scanstring s with
      | Ok (key, s1) =>
          match skip_ws s1 with
          | String c s2 =>
              if Ascii.eqb c ":" then
                match scan_once f (skip_ws s2) with
                | Ok (value, s3) =>
                    let pairs' := (pairs ++ [(key, value)])%list in
                    match skip_ws s3 with
                    | String c3 s4 =>
                        if Ascii.eqb c3 "}" then Ok (PDict (dict_of_pairs pairs'), s4)
                        else if Ascii.eqb c3 "," then
                          match skip_ws s4 with
                          | String c5 s5 =>
                              if Ascii.eqb c5 dquote then object_items f pairs' s5
                              else Raise JSONDecodeError
                          | "" => Raise JSONDecodeError
                          end
                        else Raise JSONDecodeError
                    | "" => Raise JSONDecodeError
                    end
                | Raise e => Raise e
                | Unmodelled => Unmodelled
                end
              else Raise JSONDecodeError
          | "" => Raise JSONDecodeError
          end
      | Raise e => Raise e
      | Unmodelled => Unmodelled
      end
  end

(* the [while True] loop of [JSONArray], at the start of a value *)
with array_items (fuel : nat) (values : list pyval) (s : string)
  {struct fuel} : result (pyval * string) :=
  match fuel with
  | O => Unmodelled
  | S f =>
      match scan_once f s with
      | Ok (value, s1) =>
          let values' := (values ++ [value])%list in
          match skip_ws s1 with
          | String c s2 =>
              if Ascii.eqb c "]" then Ok (PList values', s2)
              else if Ascii.eqb c "," then array_items f values' (skip_ws s2)
              else Raise JSONDecodeError
          | "" => Raise JSONDecodeError
          end
      | Raise e => Raise e
      | Unmodelled => Unmodelled
      end
  end.

(** [json.loads(s)]: one value between optional whitespace. *)
Definition json_loads (s : string) : result pyval :=
  match scan_once (2 * String.length s + 2) (skip_ws s) with
  | Ok (v, rest) =>
      match skip_ws rest with
      | "" => Ok v
      | _ => Raise JSONDecodeError
      end
  | Raise e => Raise e
  | Unmodelled => Unmodelled
  end.

(* ================================================================== *)
(** ** Notions used to state the codec theorems *)

(** What may follow a value in the output of [json.dumps]: the end of
    the text or one of [,], [\]], [}]. *)
Definition at_delimiter (s : string) : bool :=
  match s with
  | "" => true
  | String c _ => Ascii.eqb c "," || Ascii.eqb c "]" || Ascii.eqb c "}"
  end.

(** The decimal digits of a number in normal form: a lone zero, or no
    leading zero. *)
Definition no_leading_zero (u : Decimal.uint) : Prop :=
  match u with
  | Decimal.Nil => False
  | Decimal.D0 Decimal.Nil => True
  | Decimal.D0 _ => False
  | _ => True
  end.

Fixpoint distinct (ks : list string) : bool :=
  match ks with
  | [] => true
  | k :: r => negb (existsb (String.eqb k) r) && distinct r
  end.

(** The invariant of the dict representation: no key occurs twice, at
    any depth.  Every Python dict satisfies it. *)
Fixpoint well_formed (v : pyval) : bool :=
  match v with
  | PList l => forallb well_formed l
  | PDict d => distinct (map fst d) && forallb (fun kv => well_formed (snd kv)) d
  | _ => true
  end.

(** The first character of an encoded value is neither whitespace nor a
    closing bracket. *)
Definition value_start (c : ascii) : bool :=
  negb (is_json_ws c) && negb (Ascii.eqb c "]").

(** [scan_once] reads an encoded value back, whatever follows it. *)
Definition reads_back (v : pyval) : Prop :=
  forall fuel rest,
    String.length (json_dumps v) <= fuel ->
    at_delimiter rest = true ->
    scan_once fuel (json_dumps v ++ rest) = Ok (v, rest).

(** The fuel the loops of [JSONArray] and [JSONObject] use. *)
Definition items_cost (parts : list string) : nat :=
  fold_right (fun p n => S (String.length p) + n) 0 parts.

Definition encode_item (kv : string * pyval) : string :=
  encode_basestring_ascii (fst kv) ++ ":" ++ json_dumps (snd kv).

(* ================================================================== *)
(** ** The panel and the client's monad

    The panel (and the network between) is an oracle: it answers a
    request from the history of what the client did so far, so that its
    state may change between two identical requests.  [time.time()] is a
    reading of the history in milliseconds. *)

Inductive http_method := GET | POST.

Record request := {
  req_method : http_method;
  req_url : string;
  req_json : pyval;                (* the [json=] argument; [PNone] for none *)
}.

Inductive event :=
| EvRequest (rq : request)         (* [session.request(...)] *)
| EvSleep (ms : Z).                (* [time.sleep(ms / 1000)] *)

Definition history := list event.

(** What [session.request] followed by [raise_for_status] gives:
    an exception, or a body whose [resp.json()] is [js] ([None] when
    [resp.json()] raises). *)
Inductive response :=
| Failed (text : string)
| Body (text : string) (js : option pyval).

Definition M (A : Type) : Type := history -> result A * history.

Definition ret {A} (a : A) : M A := fun h => (Ok a, h).
Definition throw {A} (e : exn) : M A := fun h => (Raise e, h).
Definition lift {A} (r : result A) : M A := fun h => (r, h).

Definition bind {A B} (m : M A) (k : A -> M B) : M B :=
  fun h =>
    match m h with
    | (Ok a, h') => k a h'
    | (Raise e, h') => (Raise e, h')
    | (Unmodelled, h') => (Unmodelled, h')
    end.

(** [try: m  except Exception as e: handler(e)] *)
Definition try_except {A} (m : M A) (handler : exn -> M A) : M A :=
  fun h =>
    match m h with
    | (Raise e, h') => handler e h'
    | r => r
    end.

Declare Scope io_scope.
Delimit Scope io_scope with io.
Notation "x <== c ;; k" := (bind c (fun x => k))
  (at level 61, c at next level, right associativity) : io_scope.
Notation "c ;;; k" := (bind c (fun _ => k))
  (at level 61, right associativity) : io_scope.

Local Open Scope res_scope.
Local Open Scope io_scope.
Local Open Scope Z_scope.
Local Open Scope string_scope.

(** What the client reads from its surroundings besides the panel. *)
Record World := {
  clock : history -> Z;                         (* [time.time()], in milliseconds *)
  uuid4 : history -> string;                    (* [str(uuid.uuid4())] *)
  urlparse_hostname : string -> option string;  (* [urlparse(u).hostname]; [None]
                                                   also when [urlparse] raises *)
  max_polls : nat;                              (* polls the model follows before it
                                                   answers [Unmodelled] *)
}.

(** [s.startswith(p)] and [s.endswith(p)], [p in s] *)
Definition starts_with (p s : string) : bool :=
  match strip_prefix p s with Some _ => true | None => false end.

Fixpoint is_substring (p s : string) : bool :=
  starts_with p s
  || match s with
     | "" => false
     | String _ r => is_substring p r
     end.

Fixpoint ends_with (p s : string) : bool :=
  String.eqb p s
  || match s with
     | "" => false
     | String _ r => ends_with p r
     end.

(** [v.strip()] on an arbitrary value: only a str has the method. *)
Definition py_strip (v : pyval) : result string :=
  match v with
  | PStr s => Ok (strip s)
  | _ => Raise AttributeError
  end.

(** [v[k] = x] on an arbitrary value with a str key. *)
Definition py_setitem (v : pyval) (k : string) (x : pyval) : result pyval :=
  match v with
  | PDict d => Ok (PDict (dict_set d k x))
  | _ => Raise TypeError
  end.

(** [dict(v)] for a value that is not a str.  A non-empty list of pairs
    may have keys that are not strings, which the universe lacks. *)
Definition py_dict_of (v : pyval) : result pyval :=
  match v with
  | PDict d => Ok (PDict d)
  | PList [] => Ok (PDict [])
  | PList (_ :: _) => Unmodelled
  | PStr "" => Ok (PDict [])
  | PStr _ => Raise ValueError
  | _ => Raise TypeError
  end.

Definition BYTES_IN_GB : Z := 1024 * 1024 * 1024.

(** [self]: the session (the panel's answers) and the bases that
    [__init__] derives from [base_url]. *)
Record UIAPI := {
  session : history -> request -> response;
  secret_base : string;            (* .../secretpanel *)
  panel_base : string;             (* .../secretpanel/panel *)
}.

(** [_safe_json_load]: at most three rounds of [json.loads] while the
    value is a str; a dict is returned as it is, anything else as [{}]. *)
Fixpoint unwrap_json (rounds : nat) (parsed : pyval) : result pyval :=
  match rounds with
  | O => Ok parsed
  | S n =>
      match parsed with
      | PStr s =>
          match json_loads s with
          | Ok v => unwrap_json n v
          | Raise _ => Ok parsed               (* except Exception: break *)
          | Unmodelled => Unmodelled
          end
      | _ => Ok parsed                         (* else: break *)
      end
  end.

Definition _safe_json_load (obj : pyval) : result pyval :=
  parsed <- unwrap_json 3 obj ;;
  Ok (if is_dict parsed then parsed else PDict []).

(* ================================================================== *)
(** ** [class UIAPI] *)

Definition _build_url (self : UIAPI) (path : string) : string :=
  if starts_with "http://" path || starts_with "https://" path then path
  else
    let path := if negb (starts_with "/" path) then "/" ++ path else path in
    secret_base self ++ path.

Definition _request (self : UIAPI) (method : http_method) (path : string)
           (payload : pyval) : M pyval :=
  fun h =>
    let rq := {| req_method := method; req_url := _build_url self path;
                 req_json := payload |} in
    let h' := (h ++ [EvRequest rq])%list in
    match session self h rq with
    | Failed text => (Raise (RequestError text), h')
    | Body _ (Some v) => (Ok v, h')
    | Body text None => (Ok (PDict [("raw", PStr text); ("ok", PBool true)]), h')
    end.

Definition _post (self : UIAPI) (path : string) (payload : pyval) : M pyval :=
  _request self POST path payload.

Definition _resolve_server_host (W : World) (self : UIAPI) : string :=
  match urlparse_hostname W (panel_base self) with
  | Some host => if String.eqb host "" then "localhost" else host
  | None => "localhost"
  end.

(** [isinstance(res, dict) and res.get("success") is True] *)
Definition reports_success (res : pyval) : bool :=
  match res with
  | PDict d => is_True (dict_get d "success")
  | _ => false
  end.

Definition get_inbounds_list (self : UIAPI) : M pyval :=
  res <== _post self "panel/inbound/list" (PDict []) ;;
  if reports_success res then
    obj <== lift (py_get res "obj") ;;
    let obj := py_or obj (PList []) in
    ret (if is_list obj then obj else PList [])
  else
    obj <== lift (py_get res "obj") ;;
    ret (py_or obj (PList [])).

(** The first [ib] with [str(ib.get("id")) == str(inbound_id)]. *)
Fixpoint find_inbound (inbounds : list pyval) (inbound_id : Z)
  : result (option pyval) :=
  match inbounds with
  | [] => Ok None
  | ib :: rest =>
      i <- py_get ib "id" ;;
      if String.eqb (py_str i) (str_of_Z inbound_id) then Ok (Some ib)
      else find_inbound rest inbound_id
  end.

(** The loop over the direct [GET] variants of [get_inbound]. *)
Fixpoint get_inbound_variants (self : UIAPI)
         (variants : list (http_method * string * pyval)) : M pyval :=
  match variants with
  | [] => ret (PDict [])
  | (method, path, payload) :: rest =>
      r <== try_except (res <== _request self method path payload ;; ret (Some res))
                       (fun _ => ret None) ;;
      match r with
      | None => get_inbound_variants self rest
      | Some res =>
          match res with
          | PDict d =>
              let inbound :=
                py_or (dict_get d "obj")
                  (py_or (dict_get d "data") (py_or (dict_get d "inbound") res)) in
              if is_dict inbound && truthy inbound then ret inbound
              else get_inbound_variants self rest
          | _ => get_inbound_variants self rest
          end
      end
  end.

Definition get_inbound (self : UIAPI) (inbound_id : Z) : M pyval :=
  inbounds <== get_inbounds_list self ;;
  items <== lift (py_iter inbounds) ;;
  found <== lift (find_inbound items inbound_id) ;;
  match found with
  | Some ib => ret ib
  | None =>
      get_inbound_variants self
        [ (GET, "panel/inbound/get/" ++ str_of_Z inbound_id, PNone);
          (GET, "panel/inbound/get", PDict [("id", PInt inbound_id)]) ]
  end.

(** The part of [get_clients_list] after [get_inbound]. *)
Definition clients_of_inbound (inbound : pyval) : result pyval :=
  if negb (truthy inbound) then Ok (PList [])
  else
    settings_raw <- py_get inbound "settings" ;;
    settings <- match settings_raw with
                | PStr s =>
                    match json_loads s with
                    | Ok v => Ok v
                    | Raise _ => Ok (PDict [])
                    | Unmodelled => Unmodelled
                    end
                | _ => Ok (py_or settings_raw (PDict []))
                end ;;
    clients <- py_get settings "clients" ;;
    Ok (py_or clients (PList [])).

Definition get_clients_list (self : UIAPI) (inbound_id : Z) : M pyval :=
  inbound <== get_inbound self inbound_id ;;
  lift (clients_of_inbound inbound).

(** *** The panel's VLESS link *)

(** [next((c for c in clients
          if (c.get("email") or "").strip().lower() == target), None)] *)
Fixpoint find_client (clients : list pyval) (target : string)
  : result (option pyval) :=
  match clients with
  | [] => Ok None
  | c :: rest =>
      e <- py_get c "email" ;;
      s <- py_strip (py_or e (PStr "")) ;;
      if String.eqb (lower s) target then Ok (Some c)
      else find_client rest target
  end.

(** [rs.get("publicKey") or settings_inner.get("publicKey") or ""] *)
Definition select_public_key (rs settings_inner : pyval) : result pyval :=
  outer <- py_get rs "publicKey" ;;
  inner <- py_get settings_inner "publicKey" ;;
  Ok (py_or outer (py_or inner (PStr ""))).

(** [short_id] *)
Definition select_short_id (rs : pyval) : result pyval :=
  ids <- py_get rs "shortIds" ;;
  match py_or ids (PList []) with
  | PList (first :: _) => Ok first
  | _ => Ok (PStr "")
  end.

(** [sni] *)
Definition select_sni (rs : pyval) (host : string) : result pyval :=
  names <- py_get rs "serverNames" ;;
  match py_or names (PList [PStr host]) with
  | PList (first :: _) => Ok first
  | _ => Ok (PStr host)
  end.

(** [fp] *)
Definition select_fingerprint (tls rs : pyval) : result pyval :=
  t <- py_get tls "fingerprint" ;;
  r <- py_get rs "fingerprint" ;;
  Ok (py_or t (py_or r (PStr "chrome"))).

(** [flow] *)
Definition select_flow (client : pyval) : result string :=
  f <- py_get client "flow" ;;
  py_strip (py_or f (PStr "xtls-rprx-vision")).

(** The f-string that ends the loop body. *)
Definition vless_link (uuid_val : pyval) (host : string) (port public_key fp sni
                       short_id : pyval) (flow tag : string) : string :=
  let params :=
    [ "type=tcp";
      "security=reality";
      "pbk=" ++ py_str public_key;
      "fp=" ++ py_str fp;
      "sni=" ++ py_str sni;
      "sid=" ++ py_str short_id;
      "spx=%2F";
      "flow=" ++ flow ] in
  "vless://" ++ py_str uuid_val ++ "@" ++ host ++ ":" ++ py_str port
    ++ "?" ++ join "&" params ++ "#" ++ tag.

(** How one round of the [while] loop ends. *)
Inductive step :=
| Continue                         (* [time.sleep(0.4); continue] *)
| Return (r : option string).      (* [return None] or [return link] *)

(** The loop body up to [client = next(...)]: the client list of the
    inbound and the first client whose trimmed, lower-cased email is
    [target]. *)
Definition lookup_client (inbound : pyval) (target : string)
  : result (option pyval) :=
  s <- py_get inbound "settings" ;;
  settings <- _safe_json_load (py_or s (PDict [])) ;;
  cs <- py_get settings "clients" ;;
  ic <- py_get inbound "clients" ;;
  let clients := py_or cs (py_or ic (PList [])) in
  items <- py_iter clients ;;
  find_client items target.

(** [rs] and [tls]: the Reality and TLS settings inside [streamSettings]. *)
Definition reality_and_tls (inbound : pyval) : result (pyval * pyval) :=
  ss0 <- py_get inbound "streamSettings" ;;
  ss <- _safe_json_load (py_or ss0 (PDict [])) ;;
  rs0 <- py_get ss "realitySettings" ;;
  rs <- _safe_json_load (py_or rs0 (PDict [])) ;;
  tls0 <- py_get ss "tlsSettings" ;;
  tls <- _safe_json_load (py_or tls0 (PDict [])) ;;
  Ok (rs, tls).

(** The body of the [while] loop of [try_get_client_vless_link], after
    [get_inbound] gave a non-empty [inbound]. *)
Definition link_step (W : World) (self : UIAPI) (email target : string)
           (inbound : pyval) : result step :=
  found <- lookup_client inbound target ;;
  match found with
  | None => Ok Continue
  | Some client =>
      if negb (truthy client) then Ok Continue
      else
        ' (rs, tls) <- reality_and_tls inbound ;;
        p <- py_get inbound "port" ;;
        let port := py_or p (PStr "") in
        i <- py_get client "id" ;;
        pw <- py_get client "password" ;;
        let uuid_val := py_or i pw in
        if negb (truthy uuid_val) then Ok (Return None)
        else
          let host := _resolve_server_host W self in
          si0 <- py_get rs "settings" ;;
          settings_inner <- _safe_json_load (py_or si0 (PDict [])) ;;
          public_key <- select_public_key rs settings_inner ;;
          short_id <- select_short_id rs ;;
          sni <- select_sni rs host ;;
          fp <- select_fingerprint tls rs ;;
          flow <- select_flow client ;;
          r <- py_get inbound "remark" ;;
          remark <- py_strip (py_or r (PStr "")) ;;
          let tag := if String.eqb remark "" then email
                     else remark ++ "-" ++ email in
          Ok (Return (Some (vless_link uuid_val host port public_key fp sni
                                       short_id flow tag)))
  end.

Definition sleep (ms : Z) : M unit :=
  fun h => (Ok tt, (h ++ [EvSleep ms])%list).

(** [while time.time() < deadline: ...] *)
Fixpoint poll_link (W : World) (self : UIAPI) (inbound_id : Z)
         (email target : string) (deadline : Z) (fuel : nat) : M (option string) :=
  fun h =>
    if (clock W h <? deadline)%Z then
      match fuel with
      | O => (Unmodelled, h)
      | S f =>
          (inbound <== get_inbound self inbound_id ;;
           if negb (truthy inbound) then
             sleep 400 ;;; poll_link W self inbound_id email target deadline f
           else
             st <== lift (link_step W self email target inbound) ;;
             match st with
             | Continue =>
                 sleep 400 ;;; poll_link W self inbound_id email target deadline f
             | Return r => ret r
             end) h
      end
    else (Ok None, h).

Definition try_get_client_vless_link (W : World) (self : UIAPI) (inbound_id : Z)
           (email : string) (wait_seconds : Z) : M (option string) :=
  fun h =>
    let target := lower (strip email) in
    let deadline := (clock W h + 1000 * Z.max 1 wait_seconds)%Z in
    poll_link W self inbound_id email target deadline (max_polls W) h.

Definition get_client_vless_link (W : World) (self : UIAPI) (inbound_id : Z)
           (email : string) : M string :=
  link <== try_get_client_vless_link W self inbound_id email 12 ;;
  match link with
  | Some l => if String.eqb l "" then throw (LookupError (MsgClientNotFound email))
              else ret l
  | None => throw (LookupError (MsgClientNotFound email))
  end.

(** *** Creating a client *)

(** [str(e)] of the exception a failed request raised. *)
Definition exn_text (e : exn) : string :=
  match e with
  | RequestError text => text
  | _ => ""
  end.

(** [any(str(ib.get("id")) == str(inbound_id) for ib in inbounds)] *)
Definition has_inbound (inbounds : list pyval) (inbound_id : Z) : result bool :=
  found <- find_inbound inbounds inbound_id ;;
  Ok (match found with Some _ => true | None => false end).

(** [[ib.get('id') for ib in inbounds]] *)
Fixpoint inbound_ids (inbounds : list pyval) : result (list pyval) :=
  match inbounds with
  | [] => Ok []
  | ib :: rest =>
      i <- py_get ib "id" ;;
      ids <- inbound_ids rest ;;
      Ok (i :: ids)
  end.

(** [client_obj] of [add_client] ([total_gb] a whole number of GB). *)
Definition client_obj (client_uuid email : string) (limit_ip total_gb
                       expiry_time_ms : Z) (flow : option string) : pyval :=
  let base :=
    [ ("id", PStr client_uuid);
      ("email", PStr email);
      ("limitIp", PInt (if (limit_ip =? 0)%Z then 0 else limit_ip));
      ("totalGB", PInt (if (total_gb =? 0)%Z then 0
                        else total_gb * 1024 * 1024 * 1024));
      ("expiryTime", PInt (if (expiry_time_ms =? 0)%Z then 0 else expiry_time_ms)) ] in
  match flow with
  | Some f => if String.eqb f "" then PDict base
              else PDict (dict_set base "flow" (PStr f))
  | None => PDict base
  end.

Definition add_client_paths (inbound_id : Z) : list string :=
  [ "panel/inbound/addClient";
    "panel/inbound/addClient/" ++ str_of_Z inbound_id;
    "xui/inbound/addClient";
    "inbound/addClient" ].

(** The loop over [paths]: whether one answered with success, and
    [last_res]. *)
Fixpoint add_client_attempts (self : UIAPI) (inbound_id : Z) (payload : pyval)
         (settings : pyval) (paths : list string) (last_res : pyval)
  : M (bool * pyval) :=
  match paths with
  | [] => ret (false, last_res)
  | p :: rest =>
      let body :=
        if negb (is_substring "{inbound_id}" p)
           && negb (ends_with ("/" ++ str_of_Z inbound_id) p)
        then payload else PDict [("settings", settings)] in
      r <== try_except (res <== _post self p body ;; ret (inl res))
                       (fun e => ret (inr e)) ;;
      match r with
      | inl res =>
          if reports_success res then ret (true, res)
          else add_client_attempts self inbound_id payload settings rest res
      | inr e =>
          add_client_attempts self inbound_id payload settings rest
            (PDict [("success", PBool false); ("msg", PStr (exn_text e))])
      end
  end.

Definition add_client (W : World) (self : UIAPI) (inbound_id : Z) (email : string)
           (limit_ip total_gb expiry_time_ms : Z) (flow : option string)
           (wait_seconds : Z) : M string :=
  inbounds <== get_inbounds_list self ;;
  items <== lift (py_iter inbounds) ;;
  present <== lift (has_inbound items inbound_id) ;;
  if negb present then
    ids <== lift (inbound_ids items) ;;
    throw (RuntimeError (MsgInboundMissing inbound_id ids))
  else
    client_uuid <== (fun h => (Ok (uuid4 W h), h)) ;;
    let settings :=
      PStr (json_dumps (PDict [("clients",
              PList [client_obj client_uuid email limit_ip total_gb
                                expiry_time_ms flow])])) in
    let payload := PDict [("id", PInt inbound_id); ("settings", settings)] in
    r <== add_client_attempts self inbound_id payload settings
            (add_client_paths inbound_id) (PDict []) ;;
    let '(ok, last_res) := r in
    if negb ok then throw (RuntimeError (MsgAddClientFailed last_res))
    else get_client_vless_link W self inbound_id email.

(** *** Changing a client's allowance *)

(** The [for c in clients] loop of [add_traffic]: the list with the
    first client named [email] raised by [add_gb] GB, or [None] when no
    client has that email. *)
Fixpoint add_traffic_clients (email : string) (add_gb : Z) (clients : list pyval)
  : result (option (list pyval)) :=
  match clients with
  | [] => Ok None
  | c :: rest =>
      e <- py_get c "email" ;;
      if py_eq_str e email then
        t <- py_get c "totalGB" ;;
        current_limit <- py_int (py_or t (PInt 0)) ;;
        if (current_limit =? 0)%Z then Raise (RuntimeError MsgUnlimitedPlan)
        else
          c' <- py_setitem c "totalGB" (PInt (current_limit + add_gb * BYTES_IN_GB)) ;;
          Ok (Some (c' :: rest))
      else
        r <- add_traffic_clients email add_gb rest ;;
        Ok (option_map (cons c) r)
  end.

(** The [for c in clients] loop of [update_client]. *)
Fixpoint update_client_clients (email : string) (total_gb : Z)
         (expiry_time_ms : option Z) (clients : list pyval)
  : result (option (list pyval)) :=
  match clients with
  | [] => Ok None
  | c :: rest =>
      e <- py_get c "email" ;;
      if py_eq_str e email then
        c1 <- py_setitem c "totalGB" (PInt (total_gb * 1024 ^ 3)) ;;
        c2 <- match expiry_time_ms with
              | Some t => py_setitem c1 "expiryTime" (PInt t)
              | None => Ok c1
              end ;;
        Ok (Some (c2 :: rest))
      else
        r <- update_client_clients email total_gb expiry_time_ms rest ;;
        Ok (option_map (cons c) r)
  end.

(** [json.loads(inbound["settings"]) if isinstance(inbound["settings"], str)
     else dict(inbound["settings"])] *)
Definition load_settings (inbound : pyval) : result pyval :=
  s <- py_getitem inbound "settings" ;;
  match s with
  | PStr text => json_loads text
  | _ => py_dict_of s
  end.

(** [settings["clients"] = clients], [inbound["settings"] = json.dumps(...)]
    and the full [payload] of the update request. *)
Definition encode_payload (inbound_id : Z) (inbound settings clients : pyval)
  : result pyval :=
  settings' <- py_setitem settings "clients" clients ;;
  let text := PStr (json_dumps settings') in
  remark <- py_get_default inbound "remark" (PStr "") ;;
  port <- py_get inbound "port" ;;
  protocol <- py_get inbound "protocol" ;;
  streamSettings <- py_get inbound "streamSettings" ;;
  sniffing <- py_get inbound "sniffing" ;;
  enable <- py_get_default inbound "enable" (PBool true) ;;
  tag <- py_get inbound "tag" ;;
  Ok (PDict [ ("id", PInt inbound_id);
              ("remark", remark);
              ("port", port);
              ("protocol", protocol);
              ("settings", text);
              ("streamSettings", streamSettings);
              ("sniffing", sniffing);
              ("enable", enable);
              ("tag", tag) ]).

(** From [inbound] to the payload of the update request: [edit] is the
    loop over the clients, [missing] the exception when it finds none. *)
Definition update_payload (inbound_id : Z) (inbound : pyval)
           (edit : list pyval -> result (option (list pyval))) (missing : exn)
  : result pyval :=
  settings <- load_settings inbound ;;
  clients <- py_get_default settings "clients" (PList []) ;;
  items <- py_iter clients ;;
  edited <- edit items ;;
  match edited with
  | None => Raise missing
  | Some items' =>
      let clients' := match clients with PList _ => PList items' | _ => clients end in
      encode_payload inbound_id inbound settings clients'
  end.

(** [next((c for c in clients if c.get("email") == email), None)] *)
Fixpoint first_with_email (clients : list pyval) (email : string)
  : result (option pyval) :=
  match clients with
  | [] => Ok None
  | c :: rest =>
      e <- py_get c "email" ;;
      if py_eq_str e email then Ok (Some c) else first_with_email rest email
  end.

Definition add_traffic (self : UIAPI) (inbound_id : Z) (email : string) (add_gb : Z)
  : M bool :=
  inbound <== get_inbound self inbound_id ;;
  if negb (truthy inbound) then throw (RuntimeError (MsgInboundNotFound inbound_id))
  else
    payload <== lift (update_payload inbound_id inbound
                        (add_traffic_clients email add_gb)
                        (RuntimeError (MsgClientNotFound email))) ;;
    res <== _post self ("panel/inbound/update/" ++ str_of_Z inbound_id) payload ;;
    success <== lift (py_get res "success") ;;
    if negb (truthy success) then throw (RuntimeError (MsgUpdateFailed res))
    else
      (* the check after the write only logs *)
      clients <== get_clients_list self inbound_id ;;
      items <== lift (py_iter clients) ;;
      _ <== lift (first_with_email items email) ;;
      ret true.

Definition update_client (self : UIAPI) (inbound_id : Z) (email : string)
           (total_gb : Z) (expiry_time_ms : option Z) : M bool :=
  inbound <== get_inbound self inbound_id ;;
  if negb (truthy inbound) then throw (RuntimeError (MsgInboundNotFound inbound_id))
  else
    payload <== lift (update_payload inbound_id inbound
                        (update_client_clients email total_gb expiry_time_ms)
                        (RuntimeError (MsgClientNotFound email))) ;;
    res <== _post self ("panel/inbound/update/" ++ str_of_Z inbound_id) payload ;;
    if negb (reports_success res) then throw (RuntimeError (MsgUpdateFailed res))
    else ret true.

(* ================================================================== *)
(** ** The admin's "create client" step of [bot.py]

    [admin_plan_pick_callback] from the check for an existing login to
    the call of [add_client]; what the bot answers is kept as data. *)

Inductive reply :=
| ReplyExistingLink (link : string)     (* the client exists, here is its link *)
| ReplyExistsInPanel                    (* the client exists, no link resolved *)
| ReplyCreateError (e : exn)            (* [add_client] raised *)
| ReplyCreated (link : string)          (* the key was created *)
| ReplyError (e : exn).                 (* the outer [except Exception] *)

(** [any(c.get("email") == email for c in existing_clients)] *)
Definition email_exists (clients : list pyval) (email : string) : result bool :=
  found <- first_with_email clients email ;;
  Ok (match found with Some _ => true | None => false end).

Definition admin_plan_pick_callback (W : World) (UI : UIAPI) (INBOUND_ID : Z)
           (email : string) (traffic_limit expiry_time : Z) (flow : string)
  : M reply :=
  try_except
    (existing_clients <== get_clients_list UI INBOUND_ID ;;
     items <== lift (py_iter existing_clients) ;;
     exists_ <== lift (email_exists items email) ;;
     if exists_ then
       try_except
         (link <== get_client_vless_link W UI INBOUND_ID email ;;
          ret (ReplyExistingLink link))
         (fun _ => ret ReplyExistsInPanel)
     else
       try_except
         (link <== add_client W UI INBOUND_ID email 2 traffic_limit expiry_time
                     (Some flow) 15 ;;
          ret (ReplyCreated link))
         (fun e => ret (ReplyCreateError e)))
    (fun e => ret (ReplyError e)).

(* ================================================================== *)
(** ** Notions used to state the client's theorems *)

(** [unwraps k obj v]: [k] rounds of [json.loads] lead from [obj] to [v]. *)
Inductive unwraps : nat -> pyval -> pyval -> Prop :=
| unwraps_here (v : pyval) : unwraps 0 v v
| unwraps_load (k : nat) (s : string) (v w : pyval) :
    json_loads s = Ok v -> unwraps k v w -> unwraps (S k) (PStr s) w.

(** The first truthy candidate of a preference chain, else [default]. *)
Fixpoint prefer (candidates : list pyval) (default : pyval) : pyval :=
  match candidates with
  | [] => default
  | c :: rest => if truthy c then c else prefer rest default
  end.

(** The first entry of a list-valued field, else [default]. *)
Definition first_entry (field : option pyval) (default : pyval) : pyval :=
  match field with
  | Some (PList (first :: _)) => first
  | _ => default
  end.

(** The events that only read the panel: the inbound list, the direct
    [GET]s, and sleeping. *)
Definition is_read (self : UIAPI) (e : event) : bool :=
  match e with
  | EvSleep _ => true
  | EvRequest rq =>
      match req_method rq with
      | GET => true
      | POST => String.eqb (req_url rq) (_build_url self "panel/inbound/list")
      end
  end.

(** [m] started at [h] only appends events, all of them satisfying [ok]. *)
Definition appends {A} (ok : event -> bool) (m : M A) : Prop :=
  forall h, exists evs, snd (m h) = (h ++ evs)%list /\ forallb ok evs = true.

(** No constraint on the events: the action only appends to the history. *)
Definition any_event (e : event) : bool := true.

(** The client list [clients] with the ceiling of its first client
    named [email] set to [ceiling]. *)
Fixpoint with_ceiling (email : string) (ceiling : Z) (clients : list pyval)
  : list pyval :=
  match clients with
  | [] => []
  | c :: rest =>
      match c with
      | PDict d =>
          if py_eq_str (dict_get d "email") email
          then PDict (dict_set d "totalGB" (PInt ceiling)) :: rest
          else c :: with_ceiling email ceiling rest
      | _ => c :: with_ceiling email ceiling rest
      end
  end.

(** The request [add_traffic] and [update_client] push. *)
Definition update_request (self : UIAPI) (inbound_id : Z) (payload : pyval) : event :=
  EvRequest {| req_method := POST;
               req_url := _build_url self
                            ("panel/inbound/update/" ++ str_of_Z inbound_id);
               req_json := payload |}.

(** The first request of [add_client]'s loop over the paths. *)
Definition create_request (W : World) (self : UIAPI) (inbound_id : Z)
           (email : string) (limit_ip total_gb expiry_time_ms : Z)
           (flow : option string) (h : history) : event :=
  EvRequest
    {| req_method := POST;
       req_url := _build_url self "panel/inbound/addClient";
       req_json :=
         PDict [ ("id", PInt inbound_id);
                 ("settings",
                  PStr (json_dumps
                          (PDict [("clients",
                                   PList [client_obj (uuid4 W h) email limit_ip
                                            total_gb expiry_time_ms flow])]))) ] |}.

(* ================================================================== *)
(** ** A panel to run the client on

    Inbound 2 of the specification's end-to-end scenario: Reality
    settings with public key [PK1], short id [ab12] and server name
    [example.com], TLS fingerprint [chrome], port 443, remark [srv1];
    the clients [alice] (30 GB), [bob] (no identifier) and [carol]
    (unlimited).  The panel refuses to add a client. *)

Module Scenario.

Definition reality_fields : pydict :=
  [ ("publicKey", PStr "PK1");
    ("shortIds", PList [PStr "ab12"]);
    ("serverNames", PList [PStr "example.com"]) ].

Definition reality : pyval := PDict reality_fields.

Definition tls_fields : pydict := [("fingerprint", PStr "chrome")].

Definition tls : pyval := PDict tls_fields.

Definition stream : pyval :=
  PDict [("realitySettings", reality); ("tlsSettings", tls)].

Definition alice_fields : pydict :=
  [ ("id", PStr "11111111-2222-3333-4444-555555555555");
    ("email", PStr "alice");
    ("flow", PStr "xtls-rprx-vision");
    ("totalGB", PInt 32212254720) ].

Definition alice : pyval := PDict alice_fields.

Definition bob_fields : pydict := [("email", PStr "bob"); ("totalGB", PInt 1)].

Definition bob : pyval := PDict bob_fields.

Definition carol_fields : pydict :=
  [ ("id", PStr "66666666-7777-8888-9999-000000000000");
    ("email", PStr "carol");
    ("totalGB", PInt 0) ].

Definition carol : pyval := PDict carol_fields.

Definition clients : list pyval := [alice; bob; carol].

Definition settings_fields : pydict := [("clients", PList clients)].

Definition settings : pyval := PDict settings_fields.

(** [settings] is JSON text, [streamSettings] JSON text of JSON text. *)
Definition inbound_fields : pydict :=
  [ ("id", PInt 2);
    ("port", PInt 443);
    ("protocol", PStr "vless");
    ("remark", PStr "srv1");
    ("enable", PBool true);
    ("settings", PStr (json_dumps settings));
    ("streamSettings", PStr (json_dumps (PStr (json_dumps stream)))) ].

Definition inbound : pyval := PDict inbound_fields.

Definition envelope : pyval :=
  PDict [("success", PBool true); ("obj", PList [inbound])].

Definition refusal : pyval :=
  PDict [("success", PBool false); ("msg", PStr "Duplicate email: alice")].

Definition accepted : pyval := PDict [("success", PBool true)].

Definition answer (h : history) (rq : request) : response :=
  if String.eqb (req_url rq) "http://panel.test/secret/panel/inbound/list"
  then Body "" (Some envelope)
  else if String.eqb (req_url rq) "http://panel.test/secret/panel/inbound/update/2"
  then Body "" (Some accepted)
  else Body "" (Some refusal).

Definition UI : UIAPI :=
  {| session := answer;
     secret_base := "http://panel.test/secret";
     panel_base := "http://panel.test/secret/panel" |}.

(** A fork that answers the list request with a bare list. *)
Definition bare_list_UI : UIAPI :=
  {| session := fun _ _ => Body "" (Some (PList [inbound]));
     secret_base := "http://panel.test/secret";
     panel_base := "http://panel.test/secret/panel" |}.

(** Every request and every sleep takes a second. *)
Definition world : World :=
  {| clock := fun h => 1000 * Z.of_nat (List.length h);
     uuid4 := fun _ => "aaaaaaaa-bbbb-cccc-dddd-eeeeeeeeeeee";
     urlparse_hostname := fun _ => Some "panel.test";
     max_polls := 64 |}.

Definition list_request : event :=
  EvRequest {| req_method := POST;
               req_url := "http://panel.test/secret/panel/inbound/list";
               req_json := PDict [] |}.

(** The link of [alice], as the specification gives it. *)
Definition alice_link : string :=
  "vless://11111111-2222-3333-4444-555555555555@panel.test:443"
    ++ "?type=tcp&security=reality&pbk=PK1&fp=chrome&sni=example.com&sid=ab12"
    ++ "&spx=%2F&flow=xtls-rprx-vision#srv1-alice".

(** The creation request [add_client] sends for [alice]. *)
Definition create_alice : event :=
  EvRequest
    {| req_method := POST;
       req_url := "http://panel.test/secret/panel/inbound/addClient";
       req_json :=
         PDict [ ("id", PInt 2);
                 ("settings",
                  PStr (json_dumps
                          (PDict [("clients",
                                   PList [client_obj
                                            "aaaaaaaa-bbbb-cccc-dddd-eeeeeeeeeeee"
                                            "alice" 2 30 0
                                            (Some "xtls-rprx-vision")])]))) ] |}.

End Scenario.

(* ================================================================== *)
(** ** The bases of [UIAPI.__init__]

    [__init__] derives [secret_base], [panel_base] and [login_url] from
    [base_url] before it logs in. *)

(** [s.rstrip(chars)] *)
Fixpoint rstrip_chars (chars s : string) : string :=
  match s with
  | "" => ""
  | String c r =>
      match rstrip_chars chars r with
      | "" => if contains_char c chars then "" else String c ""
      | r' => String c r'
      end
  end.

(** The text before the last occurrence of [sep] in [s], if [sep]
    (not empty) occurs. *)
Fixpoint before_last (sep s : string) : option string :=
  match s with
  | "" => None
  | String c r =>
      match before_last sep r with
      | Some p => Some (String c p)
      | None => if starts_with sep s then Some "" else None
      end
  end.

(** [s.rsplit(sep, 1)[0]] for a [sep] that is not empty. *)
Definition rsplit_head (sep s : string) : string :=
  match before_last sep s with
  | Some p => p
  | None => s
  end.

(** [(self.secret_base, self.panel_base)] *)
Definition init_bases (base_url : string) : string * string :=
  let base := rstrip_chars "/" base_url in
  if ends_with "/panel" base then (rsplit_head "/panel" base, base)
  else (base, base ++ "/panel").

(** [self.login_url] *)
Definition login_url (base_url : string) : string :=
  fst (init_bases base_url) ++ "/login".

(** [self] as [__init__] leaves it, for the session [sess]. *)
Definition init_self (sess : history -> request -> response) (base_url : string)
  : UIAPI :=
  {| session := sess;
     secret_base := fst (init_bases base_url);
     panel_base := snd (init_bases base_url) |}.

(* ================================================================== *)
(** ** More of [bot.py] *)

(** What the jobs [send_activated_key] and [retry_activate_key] send to
    the chat. *)
Inductive notice :=
| NoticeReady (link : string)      (* the key is ready, with its link *)
| NoticeNotReady                   (* the key is not ready, try later *)
| NoticeRetry (attempt : Z)        (* not ready; the job runs again *)
| NoticeError (e : exn).           (* the [except Exception] branch *)

(** [link and "vless://" in link] *)
Definition link_ready (link : string) : bool :=
  negb (String.eqb link "") && is_substring "vless://" link.

Definition send_activated_key (W : World) (UI : UIAPI) (INBOUND_ID : Z)
           (email : string) : M notice :=
  try_except
    (link <== get_client_vless_link W UI INBOUND_ID email ;;
     if link_ready link then ret (NoticeReady link) else ret NoticeNotReady)
    (fun e => ret (NoticeError e)).

Definition retry_activate_key (W : World) (UI : UIAPI) (INBOUND_ID : Z)
           (email : string) (attempt : Z) : M notice :=
  try_except
    (link <== get_client_vless_link W UI INBOUND_ID email ;;
     if link_ready link then ret (NoticeReady link)
     else if (attempt <? 2)%Z then ret (NoticeRetry (attempt + 1))
     else ret NoticeNotReady)
    (fun e => ret (NoticeError e)).

(** [new_limit] of the renewal branch of [approve_payment_callback],
    from the panel's client and the tariff's [traffic_limit]:
    [raw_limit = client.get("totalGB") or client.get("total_gb")
                 or client.get("total") or 0], read as bytes above
    [10**6], then [0 if traffic_limit == 0 else raw_limit + traffic_limit]. *)
Definition renewal_limit (client : pydict) (traffic_limit : Z) : result Z :=
  let raw_limit :=
    py_or (dict_get client "totalGB")
      (py_or (dict_get client "total_gb")
         (py_or (dict_get client "total") (PInt 0))) in
  let raw_limit :=
    match raw_limit with
    | PInt z => if (10 ^ 6 <? z)%Z then PInt (z / 1024 ^ 3) else raw_limit
    | _ => raw_limit
    end in
  if (traffic_limit =? 0)%Z then Ok 0
  else
    match raw_limit with
    | PInt z => Ok (z + traffic_limit)
    | PBool b => Ok ((if b then 1 else 0) + traffic_limit)
    | _ => Raise TypeError
    end.

(** [d.pop(k, None)] *)
Fixpoint dict_pop (d : pydict) (k : string) : pydict :=
  match d with
  | [] => []
  | (k', v) :: rest =>
      if String.eqb k' k then rest else (k', v) :: dict_pop rest k
  end.

(** The loop of [del_key] over [list(user_emails.items())]: the two
    local mappings after it. *)
Definition del_key_mappings (login : string) (user_emails paid_users : pydict)
  : pydict * pydict :=
  fold_left
    (fun st entry =>
       let '(uid, em) := entry in
       if py_eq_str em login
       then (dict_pop (fst st) uid, dict_pop (snd st) uid)
       else st)
    user_emails (user_emails, paid_users).

(** [hasattr(UI, "add_traffic")] holds for a [UIAPI], so the first
    branch of [_apply_traffic_topup] is the one that runs. *)
Definition _apply_traffic_topup (UI : UIAPI) (INBOUND_ID : Z) (email : string)
           (add_gb : Z) : M bool :=
  add_traffic UI INBOUND_ID email add_gb.

(** What the admin reads after confirming a top-up. *)
Inductive topup_reply :=
| TopupBadPackage                  (* no such package *)
| TopupDone                        (* the top-up was applied *)
| TopupError (e : exn).            (* the [except Exception] branch *)

(** [approve_topup_callback] after its data are split: [addon] is the
    [gb] of [ADDONS.get(addon_code)], [tgid] the user's id as text,
    which [int(tgid)] turns into the chat to notify. *)
Definition approve_topup_callback (UI : UIAPI) (INBOUND_ID : Z)
           (addon : option Z) (tgid email : string) : M topup_reply :=
  try_except
    (match addon with
     | None => ret TopupBadPackage
     | Some gb =>
         _apply_traffic_topup UI INBOUND_ID email gb ;;;
         lift (int_of_str tgid) ;;;
         ret TopupDone
     end)
    (fun e => ret (TopupError e)).

(** [v != 0] *)
Definition py_ne_zero (v : pyval) : bool :=
  match v with
  | PInt z => negb (z =? 0)%Z
  | PBool b => b
  | _ => true
  end.

(** [total = c.get("total_gb") or c.get("totalGB") or c.get("total") or 0]
    and [isinstance(total, int) and total != 0] *)
Definition client_limited (c : pydict) : bool :=
  let total :=
    py_or (dict_get c "total_gb")
      (py_or (dict_get c "totalGB") (py_or (dict_get c "total") (PInt 0))) in
  match total with
  | PInt z => negb (z =? 0)%Z
  | PBool b => b
  | _ => false
  end.

(** [limited] of [user_topup_pick_callback]: whether the user is
    offered a top-up. *)
Definition topup_limited (UI : UIAPI) (INBOUND_ID : Z) (paid_users : pydict)
           (tgid email : string) : M bool :=
  let info := dict_get paid_users tgid in
  known <== lift (if truthy info
                  then (tl <- py_get_default info "traffic_limit" (PInt 0) ;;
                        Ok (py_ne_zero tl))
                  else Ok false) ;;
  if known then ret true
  else
    try_except
      (existing <== get_clients_list UI INBOUND_ID ;;
       items <== lift (py_iter existing) ;;
       c <== lift (first_with_email items email) ;;
       match c with
       | Some (PDict cd) => ret (truthy (PDict cd) && client_limited cd)
       | _ => ret false
       end)
      (fun _ => ret false).

(* ================================================================== *)
(** ** More notions for the theorems *)

(** The events that stay with the panel: sleeping, and requests whose
    URL begins with [secret_base]. *)
Definition under_base (self : UIAPI) (e : event) : bool :=
  match e with
  | EvSleep _ => true
  | EvRequest rq => starts_with (secret_base self) (req_url rq)
  end.

(** A response that [add_client] does not take as a success. *)
Definition refused (r : response) : bool :=
  match r with
  | Failed _ => true
  | Body _ (Some v) => negb (reports_success v)
  | Body _ None => true
  end.

(** The request [add_client] sends to the path [p] with the body [body]. *)
Definition post_request (self : UIAPI) (p : string) (body : pyval) : event :=
  EvRequest {| req_method := POST; req_url := _build_url self p;
               req_json := body |}.

(** A direct [GET] of [get_inbound]. *)
Definition get_request (self : UIAPI) (p : string) (body : pyval) : event :=
  EvRequest {| req_method := GET; req_url := _build_url self p;
               req_json := body |}.

(** The number of [time.sleep] calls among the events. *)
Definition is_sleep (e : event) : bool :=
  match e with
  | EvSleep _ => true
  | EvRequest _ => false
  end.

Definition sleeps (evs : list event) : nat := List.length (filter is_sleep evs).

(** [m] appends at most [n] events, none of them a sleep. *)
Definition sends_at_most {A} (n : nat) (m : M A) : Prop :=
  forall h, exists evs,
    snd (m h) = (h ++ evs)%list /\ (List.length evs <= n)%nat /\ sleeps evs = 0%nat.

(* ================================================================== *)
(** ** Panels for the edge cases *)

Module Edge.

(** The inbound list is empty. *)
Definition empty_list : pyval :=
  PDict [("success", PBool true); ("obj", PList [])].

(** Every direct [GET] fails. *)
Definition gone (h : history) (rq : request) : response :=
  match req_method rq with
  | GET => Failed "404"
  | POST => Body "" (Some empty_list)
  end.

Definition gone_UI : UIAPI :=
  {| session := gone;
     secret_base := "http://panel.test/secret";
     panel_base := "http://panel.test/secret/panel" |}.

(** Every direct [GET] answers with a page that is not JSON. *)
Definition html (h : history) (rq : request) : response :=
  match req_method rq with
  | GET => Body "<html>" None
  | POST => Body "" (Some empty_list)
  end.

Definition html_UI : UIAPI :=
  {| session := html;
     secret_base := "http://panel.test/secret";
     panel_base := "http://panel.test/secret/panel" |}.

(** The list request these panels receive. *)
Definition empty_list_request : event :=
  post_request gone_UI "panel/inbound/list" (PDict []).

(** The panel of [Scenario], but one that accepts every change. *)
Definition accepting (h : history) (rq : request) : response :=
  if String.eqb (req_url rq) "http://panel.test/secret/panel/inbound/list"
  then Body "" (Some Scenario.envelope)
  else Body "" (Some Scenario.accepted).

Definition accepting_UI : UIAPI :=
  {| session := accepting;
     secret_base := "http://panel.test/secret";
     panel_base := "http://panel.test/secret/panel" |}.

(** An inbound whose fields take the fallbacks: the public key only in
    the nested settings, two short ids, no server names, a TLS
    fingerprint that differs from the Reality one, [tlsSettings] as
    JSON text, and a client with a password and no flow. *)
Definition fallback_reality : pydict :=
  [ ("settings", PDict [("publicKey", PStr "PK2")]);
    ("shortIds", PList [PStr "s1"; PStr "s2"]);
    ("fingerprint", PStr "safari") ].

Definition fallback_tls : pydict := [("fingerprint", PStr "firefox")].

Definition fallback_stream : pydict :=
  [ ("realitySettings", PDict fallback_reality);
    ("tlsSettings", PStr (json_dumps (PDict fallback_tls))) ].

Definition dora : pydict := [("password", PStr "pw-1"); ("email", PStr "dora")].

Definition fallback_inbound : pydict :=
  [ ("id", PInt 3);
    ("port", PInt 8443);
    ("settings", PDict [("clients", PList [PDict dora])]);
    ("streamSettings", PDict fallback_stream) ].

Definition dora_link : string :=
  "vless://pw-1@panel.test:8443"
    ++ "?type=tcp&security=reality&pbk=PK2&fp=firefox&sni=panel.test&sid=s1"
    ++ "&spx=%2F&flow=xtls-rprx-vision#dora".

(** A panel whose inbound 2 lists, before [alice], a client whose email
    differs from hers by case and a trailing blank. *)
Definition other : pydict :=
  [ ("id", PStr "99999999-0000-0000-0000-000000000000");
    ("email", PStr "ALICE ") ].

Definition shadowed_inbound : pydict :=
  [ ("id", PInt 2);
    ("port", PInt 443);
    ("remark", PStr "srv1");
    ("settings", PDict [("clients", PList [PDict other; Scenario.alice])]);
    ("streamSettings", Scenario.stream) ].

Definition shadowed (h : history) (rq : request) : response :=
  Body "" (Some (PDict [ ("success", PBool true);
                         ("obj", PList [PDict shadowed_inbound]) ])).

Definition shadowed_UI : UIAPI :=
  {| session := shadowed;
     secret_base := "http://panel.test/secret";
     panel_base := "http://panel.test/secret/panel" |}.

Definition other_link : string :=
  "vless://99999999-0000-0000-0000-000000000000@panel.test:443"
    ++ "?type=tcp&security=reality&pbk=PK1&fp=chrome&sni=example.com&sid=ab12"
    ++ "&spx=%2F&flow=xtls-rprx-vision#srv1-alice".

End Edge.

(* ================================================================== *)
(** * Theorems *)

Local Open Scope nat_scope.
Local Open Scope string_scope.

(* ================================================================== *)
(** ** Induction on Python values *)

Section PyvalInd.
Variable P : pyval -> Prop.
Hypothesis HNone : P PNone.
Hypothesis HBool : forall b, P (PBool b).
Hypothesis HInt : forall z, P (PInt z).
Hypothesis HStr : forall s, P (PStr s).
Hypothesis HList : forall l, Forall P l -> P (PList l).
Hypothesis HDict : forall d, Forall (fun kv => P (snd kv)) d -> P (PDict d).

Fixpoint pyval_nested_ind (v : pyval) : P v :=
  match v with
  | PNone => HNone
  | PBool b => HBool b
  | PInt z => HInt z
  | PStr s => HStr s
  | PList l =>
      HList l ((fix go (l : list pyval) : Forall P l :=
                  match l with
                  | [] => Forall_nil P
                  | x :: r => Forall_cons x (pyval_nested_ind x) (go r)
                  end) l)
  | PDict d =>
      HDict d ((fix go (d : pydict) : Forall (fun kv => P (snd kv)) d :=
                  match d with
                  | [] => Forall_nil _
                  | kv :: r => Forall_cons kv (pyval_nested_ind (snd kv)) (go r)
                  end) d)
  end.
End PyvalInd.

(* ================================================================== *)
(** ** Facts about strings *)

Lemma append_assoc (a b c : string) : (a ++ b) ++ c = a ++ (b ++ c).
Proof. induction a as [|x a IH]; simpl; [reflexivity | now rewrite IH]. Qed.

Lemma append_nil_r (a : string) : a ++ "" = a.
Proof. induction a as [|x a IH]; simpl; [reflexivity | now rewrite IH]. Qed.

Lemma length_append (a b : string) :
  String.length (a ++ b) = String.length a + String.length b.
Proof. induction a as [|x a IH]; simpl; [reflexivity | now rewrite IH]. Qed.

(* ================================================================== *)
(** ** [json.loads] inverts [json.dumps] *)

(** One escaped character is read back as that character. *)
Lemma scanstring_escape_char (c : ascii) (tail : string) :
  scanstring (json_escape_char c ++ tail)
  = match scanstring tail with
    | Ok (t, rest) => Ok (String c t, rest)
    | Raise e => Raise e
    | Unmodelled => Unmodelled
    end.
Proof.
  destruct c as [[] [] [] [] [] [] [] []]; reflexivity.
Qed.

Lemma scanstring_escape (s rest : string) :
  scanstring (json_escape s ++ String dquote rest) = Ok (s, rest).
Proof.
  induction s as [|c s IH]; simpl.
  - reflexivity.
  - rewrite append_assoc, scanstring_escape_char, IH. reflexivity.
Qed.

(** *** Integers *)

Lemma at_delimiter_no_digit s : at_delimiter s = true -> starts_with_digit s = false.
Proof.
  destruct s as [|c s]; [reflexivity|].
  destruct c as [[] [] [] [] [] [] [] []]; cbn; intros H; try discriminate H; reflexivity.
Qed.

Lemma at_delimiter_no_float s :
  at_delimiter s = true -> has_frac s || has_exp s = false.
Proof.
  destruct s as [|c s]; [reflexivity|].
  destruct c as [[] [] [] [] [] [] [] []]; cbn; intros H; try discriminate H; reflexivity.
Qed.

Lemma at_delimiter_skip_ws s : at_delimiter s = true -> skip_ws s = s.
Proof.
  destruct s as [|c s]; [reflexivity|].
  destruct c as [[] [] [] [] [] [] [] []]; cbn; intros H; try discriminate H; reflexivity.
Qed.

Lemma span_digits_uint (u : Decimal.uint) (rest : string) :
  starts_with_digit rest = false ->
  span_digits (NilEmpty.string_of_uint u ++ rest) = (NilEmpty.string_of_uint u, rest).
Proof.
  intros Hr. induction u; simpl; try (rewrite IHu; reflexivity).
  destruct rest as [|c r]; [reflexivity|]. simpl in *. now rewrite Hr.
Qed.

Lemma nzhead_no_leading_zero u :
  Decimal.nzhead u <> Decimal.Nil -> no_leading_zero (Decimal.nzhead u).
Proof.
  induction u; simpl; intros H; try exact I; auto.
Qed.

Lemma unorm_no_leading_zero u : no_leading_zero (Decimal.unorm u).
Proof.
  unfold Decimal.unorm.
  destruct (Decimal.nzhead u) eqn:E; try exact I;
    rewrite <- E; apply nzhead_no_leading_zero; rewrite E; discriminate.
Qed.

Lemma nzhead_not_zero u : Decimal.nzhead u <> Decimal.D0 Decimal.Nil.
Proof. induction u; simpl; try discriminate; auto. Qed.

Lemma to_int_normal (z : Z) :
  match Z.to_int z with
  | Decimal.Pos u => no_leading_zero u
  | Decimal.Neg u => no_leading_zero u /\ u <> Decimal.D0 Decimal.Nil
  end.
Proof.
  pose proof (DecimalZ.to_of (Z.to_int z)) as H.
  rewrite DecimalZ.of_to in H.
  destruct (Z.to_int z) as [u|u]; simpl in H.
  - injection H as H. rewrite H. apply unorm_no_leading_zero.
  - destruct (Decimal.nzhead u) eqn:E; try discriminate H;
      injection H as H; rewrite H; rewrite <- E;
      (split; [apply nzhead_no_leading_zero; rewrite E; discriminate
              | apply nzhead_not_zero]).
Qed.

Lemma match_unsigned_uint (u : Decimal.uint) (rest : string) :
  no_leading_zero u -> starts_with_digit rest = false ->
  match NilEmpty.string_of_uint u ++ rest with
  | String c r =>
      if Ascii.eqb c "0" then Some ("0", r)
      else if is_digit c then Some (span_digits (NilEmpty.string_of_uint u ++ rest))
      else None
  | "" => None
  end = Some (NilEmpty.string_of_uint u, rest).
Proof.
  intros Hu Hr.
  destruct u as [|u|u|u|u|u|u|u|u|u|u]; simpl in Hu; try contradiction;
    try (change (NilEmpty.string_of_uint (?D u)) with
           (String (match D Decimal.Nil with
                    | Decimal.D1 _ => "1" | Decimal.D2 _ => "2" | Decimal.D3 _ => "3"
                    | Decimal.D4 _ => "4" | Decimal.D5 _ => "5" | Decimal.D6 _ => "6"
                    | Decimal.D7 _ => "7" | Decimal.D8 _ => "8" | _ => "9" end)%char
                   (NilEmpty.string_of_uint u));
         cbn [append Ascii.eqb Bool.eqb is_digit code nat_of_ascii];
         simpl; rewrite span_digits_uint by assumption; reflexivity).
  destruct u; try contradiction. reflexivity.
Qed.

Lemma uint_head_digit (u : Decimal.uint) :
  no_leading_zero u ->
  exists c r, NilEmpty.string_of_uint u = String c r /\ is_digit c = true.
Proof.
  destruct u; simpl; try contradiction; intros _; eexists; eexists; split;
    try reflexivity; reflexivity.
Qed.

Lemma scan_atom_number (s integer rest : string) :
  match_integer s = Some (integer, rest) ->
  scan_atom s
  = if has_frac rest || has_exp rest then Unmodelled
    else match NilZero.int_of_string integer with
         | Some i => Ok (PInt (Z.of_int i), rest)
         | None => Raise ValueError
         end.
Proof.
  destruct s as [|c r]; [discriminate|].
  intros H. unfold scan_atom.
  assert (Hp : strip_prefix "null" (String c r) = None
               /\ strip_prefix "true" (String c r) = None
               /\ strip_prefix "false" (String c r) = None).
  { destruct c as [[] [] [] [] [] [] [] []]; cbn in H; try discriminate H;
      repeat split; reflexivity. }
  destruct Hp as (-> & -> & ->). now rewrite H.
Qed.

Lemma str_of_Z_head (z : Z) :
  exists c r, str_of_Z z = String c r /\ is_digit c || Ascii.eqb c "-" = true.
Proof.
  unfold str_of_Z. pose proof (to_int_normal z) as H.
  destruct (Z.to_int z) as [u|u]; simpl.
  - destruct (uint_head_digit u H) as (c & r & E & Hc).
    exists c, r. split.
    + destruct u; simpl in *; try contradiction; exact E.
    + now rewrite Hc.
  - eexists; eexists; split; reflexivity.
Qed.

Lemma scan_atom_int (z : Z) (rest : string) :
  at_delimiter rest = true ->
  scan_atom (str_of_Z z ++ rest) = Ok (PInt z, rest).
Proof.
  intros Hr.
  destruct (str_of_Z_head z) as (c & r & E & Hc).
  assert (Hm : match_integer (str_of_Z z ++ rest) = Some (str_of_Z z, rest)).
  { unfold str_of_Z in *. pose proof (to_int_normal z) as Hn.
    destruct (Z.to_int z) as [u|u].
    - assert (Hs : NilZero.string_of_int (Decimal.Pos u) = NilEmpty.string_of_uint u)
        by (destruct u; simpl in *; [contradiction | reflexivity..]).
      rewrite Hs in *.
      pose proof (match_unsigned_uint u rest Hn (at_delimiter_no_digit _ Hr)) as Hu.
      destruct (uint_head_digit u Hn) as (c' & r' & E' & Hc').
      unfold match_integer. rewrite E' in *. simpl append in *.
      cbv beta iota in Hu |- *.
      assert (Ascii.eqb c' "-" = false) as ->
          by (destruct c' as [[] [] [] [] [] [] [] []]; cbn in Hc'; try discriminate; reflexivity).
      exact Hu.
    - destruct Hn as [Hn Hz].
      assert (Hs : NilZero.string_of_int (Decimal.Neg u)
                   = String "-" (NilEmpty.string_of_uint u))
        by (destruct u; simpl in *; [contradiction | reflexivity..]).
      rewrite Hs.
      pose proof (match_unsigned_uint u rest Hn (at_delimiter_no_digit _ Hr)) as Hu.
      unfold match_integer. simpl append. cbn [Ascii.eqb Bool.eqb].
      rewrite Hu. reflexivity. }
  rewrite (scan_atom_number _ _ _ Hm), at_delimiter_no_float by exact Hr.
  unfold str_of_Z.
  rewrite NilZero.isi.
  - now rewrite DecimalZ.of_to.
  - pose proof (to_int_normal z) as Hn. intros Hx. rewrite Hx in Hn. exact Hn.
  - pose proof (to_int_normal z) as Hn. intros Hx. rewrite Hx in Hn. now destruct Hn.
Qed.

(** *** Values *)

Lemma dict_set_fresh (d : pydict) (k : string) (v : pyval) :
  existsb (String.eqb k) (map fst d) = false ->
  dict_set d k v = (d ++ [(k, v)])%list.
Proof.
  induction d as [|[k' v'] d IH]; simpl; [reflexivity|].
  intros H. apply orb_false_iff in H as [Hk Hd].
  rewrite String.eqb_sym, Hk, IH by exact Hd. reflexivity.
Qed.

Lemma distinct_app_cons (a : list string) (k : string) (r : list string) :
  distinct (a ++ k :: r)%list = true ->
  existsb (String.eqb k) a = false /\ distinct ((a ++ [k]) ++ r)%list = true.
Proof.
  intros H. rewrite <- app_assoc. simpl. split; [|exact H].
  induction a as [|x a IH]; simpl in *; [reflexivity|].
  apply andb_true_iff in H as [Hx Ha].
  rewrite (IH Ha), orb_false_r.
  rewrite existsb_app in Hx. simpl in Hx.
  destruct (String.eqb_spec k x) as [->|]; [|reflexivity].
  rewrite String.eqb_refl in Hx. simpl in Hx.
  now rewrite orb_true_r in Hx.
Qed.

Lemma fold_dict_set_distinct (d acc : pydict) :
  distinct (map fst (acc ++ d)%list) = true ->
  fold_left (fun a kv => dict_set a (fst kv) (snd kv)) d acc = (acc ++ d)%list.
Proof.
  revert acc. induction d as [|[k v] d IH]; intros acc H; simpl.
  - now rewrite app_nil_r.
  - rewrite map_app in H. simpl in H.
    apply distinct_app_cons in H as [Hk Hd].
    rewrite dict_set_fresh by exact Hk.
    rewrite IH.
    + now rewrite <- app_assoc.
    + now rewrite !map_app.
Qed.

Lemma dict_of_pairs_distinct (d : pydict) :
  distinct (map fst d) = true -> dict_of_pairs d = d.
Proof. intros H. unfold dict_of_pairs. now rewrite fold_dict_set_distinct. Qed.

Lemma json_dumps_head (v : pyval) :
  exists c r, json_dumps v = String c r /\ value_start c = true.
Proof.
  destruct v as [| [] | z | s | l | d]; simpl;
    try (eexists; eexists; split; reflexivity).
  destruct (str_of_Z_head z) as (c & r & E & Hc).
  exists c, r. split; [exact E|].
  destruct c as [[] [] [] [] [] [] [] []]; cbn in Hc; try discriminate; reflexivity.
Qed.

Lemma skip_ws_value_start (c : ascii) (r : string) :
  value_start c = true -> skip_ws (String c r) = String c r.
Proof.
  unfold value_start. intros H. apply andb_true_iff in H as [H _].
  simpl. now destruct (is_json_ws c).
Qed.

Lemma skip_ws_json_dumps (v : pyval) (rest : string) :
  skip_ws (json_dumps v ++ rest) = json_dumps v ++ rest.
Proof.
  destruct (json_dumps_head v) as (c & r & -> & Hc).
  simpl append. now apply skip_ws_value_start.
Qed.

Lemma length_join_comma (parts : list string) :
  parts <> [] -> S (String.length (join "," parts)) = items_cost parts.
Proof.
  induction parts as [|p [|q r] IH]; intros H; [contradiction| |].
  - simpl. lia.
  - change (join "," (p :: q :: r)) with (p ++ "," ++ join "," (q :: r)).
    rewrite length_append. simpl String.length.
    change (items_cost (p :: q :: r)) with (S (String.length p) + items_cost (q :: r)).
    rewrite <- IH by discriminate. simpl. lia.
Qed.

Lemma array_items_last (v : pyval) (f : nat) (acc : list pyval) (rest : string) :
  reads_back v -> String.length (json_dumps v) <= f ->
  array_items (S f) acc (json_dumps v ++ String "]" rest)
  = Ok (PList (acc ++ [v]), rest).
Proof.
  intros Hv Hf. simpl. now rewrite Hv.
Qed.

Lemma array_items_more (v : pyval) (f : nat) (acc : list pyval) (tail : string) :
  reads_back v -> String.length (json_dumps v) <= f ->
  skip_ws tail = tail ->
  array_items (S f) acc (json_dumps v ++ String "," tail)
  = array_items f (acc ++ [v]) tail.
Proof.
  intros Hv Hf Ht. simpl. rewrite Hv by (try reflexivity; exact Hf).
  simpl. now rewrite Ht.
Qed.

Lemma skip_ws_join_dumps (x : pyval) (l : list pyval) (tail : string) :
  skip_ws (join "," (map json_dumps (x :: l)) ++ tail)
  = join "," (map json_dumps (x :: l)) ++ tail.
Proof.
  simpl map. destruct l; simpl join.
  - apply skip_ws_json_dumps.
  - rewrite !append_assoc. apply skip_ws_json_dumps.
Qed.

Lemma array_items_join (l : list pyval) :
  Forall (fun x => well_formed x = true -> reads_back x) l ->
  forallb well_formed l = true ->
  l <> [] ->
  forall fuel acc rest,
    items_cost (map json_dumps l) <= fuel ->
    array_items fuel acc (join "," (map json_dumps l) ++ String "]" rest)
    = Ok (PList (acc ++ l), rest).
Proof.
  induction l as [|x l IH]; intros HF Hwf Hne fuel acc rest Hfuel; [contradiction|].
  inversion HF as [|? ? Hx HF']; subst.
  simpl in Hwf. apply andb_true_iff in Hwf as [Hwx Hwl].
  specialize (Hx Hwx).
  change (items_cost (map json_dumps (x :: l)))
    with (S (String.length (json_dumps x)) + items_cost (map json_dumps l)) in Hfuel.
  destruct fuel as [|f]; [lia|].
  destruct l as [|y l].
  - simpl map. simpl join. apply array_items_last; [exact Hx | lia].
  - change (join "," (map json_dumps (x :: y :: l)))
      with (json_dumps x ++ "," ++ join "," (map json_dumps (y :: l))).
    rewrite !append_assoc. cbn [append].
    rewrite array_items_more by (try exact Hx; try lia; apply skip_ws_join_dumps).
    rewrite (IH HF' Hwl) by (try discriminate; lia).
    now rewrite <- app_assoc.
Qed.

Lemma encode_item_append (k : string) (v : pyval) (tail : string) :
  encode_item (k, v) ++ tail
  = String dquote (json_escape k ++ String dquote (String ":" (json_dumps v ++ tail))).
Proof.
  unfold encode_item, encode_basestring_ascii. simpl.
  now rewrite !append_assoc.
Qed.

Lemma join_encode_items_head (d : pydict) (tail : string) :
  d <> [] ->
  exists s, join "," (map encode_item d) ++ tail = String dquote s.
Proof.
  destruct d as [|[k v] [|kv d]]; intros H; [contradiction| |].
  - simpl map. simpl join. rewrite encode_item_append. eexists; reflexivity.
  - change (join "," (map encode_item ((k, v) :: kv :: d)))
      with (encode_item (k, v) ++ "," ++ join "," (map encode_item (kv :: d))).
    rewrite append_assoc, encode_item_append. eexists; reflexivity.
Qed.

Lemma object_items_last (k : string) (v : pyval) (f : nat) (acc : pydict)
      (rest : string) :
  reads_back v -> String.length (json_dumps v) <= f ->
  object_items (S f) acc
    (json_escape k ++ String dquote (String ":" (json_dumps v ++ String "}" rest)))
  = Ok (PDict (dict_of_pairs (acc ++ [(k, v)])), rest).
Proof.
  intros Hv Hf. simpl. rewrite scanstring_escape. simpl.
  rewrite skip_ws_json_dumps, Hv by (try reflexivity; exact Hf).
  reflexivity.
Qed.

Lemma object_items_more (k : string) (v : pyval) (f : nat) (acc : pydict)
      (s : string) :
  reads_back v -> String.length (json_dumps v) <= f ->
  object_items (S f) acc
    (json_escape k
       ++ String dquote (String ":" (json_dumps v ++ String "," (String dquote s))))
  = object_items f (acc ++ [(k, v)]) s.
Proof.
  intros Hv Hf. simpl. rewrite scanstring_escape. simpl.
  rewrite skip_ws_json_dumps, Hv by (try reflexivity; exact Hf).
  reflexivity.
Qed.

Lemma object_items_join (d : pydict) :
  Forall (fun kv => well_formed (snd kv) = true -> reads_back (snd kv)) d ->
  forallb (fun kv => well_formed (snd kv)) d = true ->
  d <> [] ->
  forall fuel acc rest s,
    items_cost (map encode_item d) <= fuel ->
    String dquote s = join "," (map encode_item d) ++ String "}" rest ->
    object_items fuel acc s = Ok (PDict (dict_of_pairs (acc ++ d)), rest).
Proof.
  induction d as [|[k v] d IH]; intros HF Hwf Hne fuel acc rest s Hfuel Hs;
    [contradiction|].
  inversion HF as [|? ? Hx HF']; subst.
  simpl in Hwf. apply andb_true_iff in Hwf as [Hwx Hwl].
  simpl in Hx. specialize (Hx Hwx).
  assert (Hlen : String.length (json_dumps v) < String.length (encode_item (k, v))).
  { unfold encode_item. simpl. rewrite !length_append. simpl. lia. }
  change (items_cost (map encode_item ((k, v) :: d)))
    with (S (String.length (encode_item (k, v))) + items_cost (map encode_item d))
    in Hfuel.
  destruct fuel as [|f]; [lia|].
  destruct d as [|kv d].
  - simpl map in Hs. simpl join in Hs. rewrite encode_item_append in Hs.
    injection Hs as ->.
    apply object_items_last; [exact Hx | lia].
  - change (join "," (map encode_item ((k, v) :: kv :: d)))
      with (encode_item (k, v) ++ "," ++ join "," (map encode_item (kv :: d)))
      in Hs.
    destruct (join_encode_items_head (kv :: d) (String "}" rest) ltac:(discriminate))
      as [s' Hq].
    rewrite !append_assoc, encode_item_append in Hs. cbn [append] in Hs.
    rewrite Hq in Hs. injection Hs as ->.
    rewrite object_items_more by (try exact Hx; lia).
    rewrite (IH HF' Hwl) with (rest := rest)
      by (try discriminate; try (symmetry; exact Hq); lia).
    now rewrite <- app_assoc.
Qed.

Lemma scan_once_array_open (f : nat) (c : ascii) (r : string) :
  value_start c = true ->
  scan_once (S f) (String "[" (String c r)) = array_items f [] (String c r).
Proof.
  unfold value_start. intros H. apply andb_true_iff in H as [Hw Hb].
  apply negb_true_iff in Hw, Hb. simpl. now rewrite Hw, Hb.
Qed.

Lemma join_dumps_head (x : pyval) (l : list pyval) (tail : string) :
  exists c r, join "," (map json_dumps (x :: l)) ++ tail = String c r
              /\ value_start c = true.
Proof.
  destruct (json_dumps_head x) as (c & r & E & Hc).
  simpl map. destruct l; simpl join; rewrite E; simpl; eexists; eexists;
    (split; [reflexivity | exact Hc]).
Qed.

Lemma scan_once_json_dumps (v : pyval) : well_formed v = true -> reads_back v.
Proof.
  induction v as [| b | z | s | l IH | d IH] using pyval_nested_ind;
    intros Hwf fuel rest Hfuel Hrest;
    (destruct fuel as [|f];
     [match type of Hfuel with
      | String.length (json_dumps ?v) <= 0 =>
          destruct (json_dumps_head v) as (? & ? & E & _);
          rewrite E in Hfuel; simpl in Hfuel; lia
      end|]).
  - reflexivity.
  - destruct b; reflexivity.
  - simpl json_dumps.
    destruct (str_of_Z_head z) as (c & r & E & Hc).
    pose proof (scan_atom_int z rest Hrest) as Ha.
    rewrite E in *. simpl append in *. simpl scan_once.
    assert (Ascii.eqb c dquote = false /\ Ascii.eqb c "{" = false
            /\ Ascii.eqb c "[" = false) as (-> & -> & ->)
        by (destruct c as [[] [] [] [] [] [] [] []]; cbn in Hc; try discriminate;
            repeat split; reflexivity).
    exact Ha.
  - simpl json_dumps. unfold encode_basestring_ascii. simpl.
    rewrite append_assoc. simpl. now rewrite scanstring_escape.
  - simpl in Hwf.
    destruct l as [|x l]; [reflexivity|].
    change (json_dumps (PList (x :: l)))
      with ("[" ++ join "," (map json_dumps (x :: l)) ++ "]") in *.
    assert (Hc : items_cost (map json_dumps (x :: l)) <= f).
    { rewrite <- length_join_comma by discriminate.
      cbn [append String.length] in Hfuel. rewrite length_append in Hfuel.
      cbn [String.length] in Hfuel. lia. }
    rewrite !append_assoc. cbn [append].
    destruct (join_dumps_head x l (String "]" rest)) as (c & r & E & Hv).
    rewrite E, scan_once_array_open, <- E by exact Hv.
    now rewrite (array_items_join (x :: l) IH Hwf ltac:(discriminate) f [] rest Hc).
  - simpl in Hwf. apply andb_true_iff in Hwf as [Hd Hwf].
    destruct d as [|kv d]; [reflexivity|].
    change (json_dumps (PDict (kv :: d)))
      with ("{" ++ join "," (map encode_item (kv :: d)) ++ "}") in *.
    assert (Hc : items_cost (map encode_item (kv :: d)) <= f).
    { rewrite <- length_join_comma by discriminate.
      cbn [append String.length] in Hfuel. rewrite length_append in Hfuel.
      cbn [String.length] in Hfuel. lia. }
    rewrite !append_assoc. cbn [append].
    destruct (join_encode_items_head (kv :: d) (String "}" rest) ltac:(discriminate))
      as [s' Hq].
    rewrite Hq.
    change (scan_once (S f) (String "{" (String dquote s')))
      with (object_items f [] s').
    rewrite (object_items_join (kv :: d) IH Hwf ltac:(discriminate) f [] rest s' Hc)
      by (symmetry; exact Hq).
    simpl app. now rewrite dict_of_pairs_distinct.
Qed.

(** [json.loads(json.dumps(v, separators=(",", ":"))) == v] *)
Lemma json_loads_dumps (v : pyval) :
  well_formed v = true -> json_loads (json_dumps v) = Ok v.
Proof.
  intros Hwf. unfold json_loads.
  rewrite <- (append_nil_r (json_dumps v)) at 2.
  rewrite skip_ws_json_dumps.
  rewrite (scan_once_json_dumps v Hwf) by (try reflexivity; lia).
  reflexivity.
Qed.

(* ================================================================== *)
(** ** The response normalizer *)

Lemma unwrap_json_never_raises (n : nat) (obj : pyval) (e : exn) :
  unwrap_json n obj <> Raise e.
Proof.
  revert obj. induction n as [|n IH]; intros obj; simpl; [discriminate|].
  destruct obj; try discriminate.
  destruct (json_loads s); try discriminate. apply IH.
Qed.

Lemma unwrap_json_unwraps (n : nat) (obj parsed : pyval) :
  unwrap_json n obj = Ok parsed ->
  exists k, k <= n /\ unwraps k obj parsed.
Proof.
  revert obj. induction n as [|n IH]; intros obj H; simpl in H.
  - injection H as <-. exists 0. split; [lia | constructor].
  - destruct obj as [| b | z | s | l | d];
      try (injection H as <-; exists 0; split; [lia | constructor]).
    destruct (json_loads s) as [v | e |] eqn:E; [| | discriminate].
    + destruct (IH v H) as (k & Hk & Hu).
      exists (S k). split; [lia | econstructor; eassumption].
    + injection H as <-. exists 0. split; [lia | constructor].
Qed.

Lemma safe_json_load_cases (obj : pyval) :
  (exists d, _safe_json_load obj = Ok (PDict d)) \/ _safe_json_load obj = Unmodelled.
Proof.
  unfold _safe_json_load.
  destruct (unwrap_json 3 obj) as [parsed | e |] eqn:E; unfold rbind.
  - left. destruct parsed; simpl; eexists; reflexivity.
  - now apply unwrap_json_never_raises in E.
  - now right.
Qed.

Lemma safe_json_load_is_dict (obj v : pyval) :
  _safe_json_load obj = Ok v -> exists d, v = PDict d.
Proof.
  intros H. destruct (safe_json_load_cases obj) as [[d Hd] | Hu].
  - rewrite Hd in H. injection H as <-. now exists d.
  - rewrite Hu in H. discriminate.
Qed.

Lemma safe_json_load_dict (d : pydict) : _safe_json_load (PDict d) = Ok (PDict d).
Proof. reflexivity. Qed.

Lemma safe_json_load_encoded (d : pydict) :
  well_formed (PDict d) = true ->
  _safe_json_load (PStr (json_dumps (PDict d))) = Ok (PDict d).
Proof.
  intros Hwf. unfold _safe_json_load. cbn [unwrap_json].
  now rewrite (json_loads_dumps _ Hwf).
Qed.

Lemma safe_json_load_twice_encoded (d : pydict) :
  well_formed (PDict d) = true ->
  _safe_json_load (PStr (json_dumps (PStr (json_dumps (PDict d))))) = Ok (PDict d).
Proof.
  intros Hwf. unfold _safe_json_load. cbn [unwrap_json].
  rewrite (json_loads_dumps (PStr _)) by reflexivity.
  now rewrite (json_loads_dumps _ Hwf).
Qed.

Lemma safe_json_load_text (s : string) (d : pydict) :
  json_loads s = Ok (PDict d) -> _safe_json_load (PStr s) = Ok (PDict d).
Proof.
  intros H. unfold _safe_json_load. cbn [unwrap_json]. now rewrite H.
Qed.

Lemma safe_json_load_text_of_text (s1 s2 : string) (d : pydict) :
  json_loads s1 = Ok (PDict d) -> json_loads s2 = Ok (PStr s1) ->
  _safe_json_load (PStr s2) = Ok (PDict d).
Proof.
  intros H1 H2. unfold _safe_json_load. cbn [unwrap_json]. now rewrite H2, H1.
Qed.

Lemma safe_json_load_no_object (obj : pyval) :
  (forall k d, k <= 3 -> ~ unwraps k obj (PDict d)) ->
  _safe_json_load obj <> Unmodelled ->
  _safe_json_load obj = Ok (PDict []).
Proof.
  intros Hno Hm. unfold _safe_json_load in *.
  destruct (unwrap_json 3 obj) as [parsed | e |] eqn:E; unfold rbind in *;
    [| now apply unwrap_json_never_raises in E | contradiction].
  destruct (unwrap_json_unwraps _ _ _ E) as (k & Hk & Hu).
  destruct parsed; try reflexivity.
  exfalso. exact (Hno k d Hk Hu).
Qed.

Lemma safe_json_load_not_json (s : string) (e : exn) :
  json_loads s = Raise e -> _safe_json_load (PStr s) = Ok (PDict []).
Proof.
  intros H. unfold _safe_json_load. cbn [unwrap_json]. now rewrite H.
Qed.

(** C3. The response normalizer [_safe_json_load] never raises and
    always answers a dict; a dict, its JSON text and the JSON text of
    that text all give the dict back (for the text [json.dumps] writes,
    and for any other text that [json.loads] reads as the dict); an
    input that at no level within three rounds of [json.loads] is a JSON
    object, in particular a str that is not JSON, gives the empty dict. *)
Theorem safe_json_load_normalizes (obj : pyval) (d : pydict)
        (Hwf : well_formed (PDict d) = true) :
  (forall e, _safe_json_load obj <> Raise e)
  /\ (forall v, _safe_json_load obj = Ok v -> is_dict v = true)
  /\ (_safe_json_load (PDict d) = Ok (PDict d)
      /\ _safe_json_load (PStr (json_dumps (PDict d))) = Ok (PDict d)
      /\ _safe_json_load (PStr (json_dumps (PStr (json_dumps (PDict d)))))
         = Ok (PDict d))
  /\ (forall s1 s2,
        json_loads s1 = Ok (PDict d) -> json_loads s2 = Ok (PStr s1) ->
        _safe_json_load (PStr s1) = Ok (PDict d)
        /\ _safe_json_load (PStr s2) = Ok (PDict d))
  /\ ((forall k d', k <= 3 -> ~ unwraps k obj (PDict d')) ->
      _safe_json_load obj <> Unmodelled ->
      _safe_json_load obj = Ok (PDict []))
  /\ (forall s e, json_loads s = Raise e -> _safe_json_load (PStr s) = Ok (PDict [])).
Proof.
  repeat split.
  - intros e H. destruct (safe_json_load_cases obj) as [[d' Hd] | Hu];
      rewrite H in *; discriminate.
  - intros v H. destruct (safe_json_load_is_dict _ _ H) as [d' ->]. reflexivity.
  - now apply safe_json_load_encoded.
  - now apply safe_json_load_twice_encoded.
  - now apply safe_json_load_text.
  - eapply safe_json_load_text_of_text; eassumption.
  - apply safe_json_load_no_object.
  - apply safe_json_load_not_json.
Qed.

Lemma safe_json_load_normalizes_witness :
  let d := [("success", PBool true); ("obj", PList [PInt 1])] in
  _safe_json_load (PStr (json_dumps (PStr (json_dumps (PDict d))))) = Ok (PDict d)
  /\ _safe_json_load (PStr "not json") = Ok (PDict []).
Proof.
  pose proof (safe_json_load_normalizes (PStr "not json")
                [("success", PBool true); ("obj", PList [PInt 1])] eq_refl)
    as (_ & _ & (_ & _ & H2) & _ & _ & H4).
  split; [exact H2 | apply (H4 _ JSONDecodeError); reflexivity].
Defined.

(* ================================================================== *)
(** ** Link resolution *)

Local Open Scope Z_scope.
Local Open Scope string_scope.

Lemma vless_link_flat (uuid_val : pyval) (host : string)
      (port public_key fp sni short_id : pyval) (flow tag : string) :
  vless_link uuid_val host port public_key fp sni short_id flow tag
  = "vless://" ++ py_str uuid_val ++ "@" ++ host ++ ":" ++ py_str port
      ++ "?type=tcp&security=reality&pbk=" ++ py_str public_key
      ++ "&fp=" ++ py_str fp ++ "&sni=" ++ py_str sni ++ "&sid=" ++ py_str short_id
      ++ "&spx=%2F&flow=" ++ flow ++ "#" ++ tag.
Proof.
  unfold vless_link. cbn [join]. repeat rewrite append_assoc. reflexivity.
Qed.

Lemma select_public_key_prefer (r si : pydict) :
  select_public_key (PDict r) (PDict si)
  = Ok (prefer [dict_get r "publicKey"; dict_get si "publicKey"] (PStr "")).
Proof. reflexivity. Qed.

Lemma select_short_id_first (r : pydict) :
  select_short_id (PDict r) = Ok (first_entry (dict_lookup r "shortIds") (PStr "")).
Proof.
  unfold select_short_id, first_entry, py_get, dict_get, dict_get_default, rbind.
  destruct (dict_lookup r "shortIds") as [[| [] | z | s | [|x l] | [|kv d]]|];
    try reflexivity.
  - unfold py_or. simpl. now destruct (Z.eqb z 0).
  - unfold py_or. simpl. now destruct (String.eqb s "").
Qed.

Lemma select_sni_first (r : pydict) (host : string) :
  select_sni (PDict r) host
  = Ok (first_entry (dict_lookup r "serverNames") (PStr host)).
Proof.
  unfold select_sni, first_entry, py_get, dict_get, dict_get_default, rbind.
  destruct (dict_lookup r "serverNames") as [[| [] | z | s | [|x l] | [|kv d]]|];
    try reflexivity.
  - unfold py_or. simpl. now destruct (Z.eqb z 0).
  - unfold py_or. simpl. now destruct (String.eqb s "").
Qed.

Lemma select_fingerprint_prefer (t r : pydict) :
  select_fingerprint (PDict t) (PDict r)
  = Ok (prefer [dict_get t "fingerprint"; dict_get r "fingerprint"] (PStr "chrome")).
Proof. reflexivity. Qed.

Lemma select_flow_prefer (cd : pydict) :
  select_flow (PDict cd)
  = py_strip (prefer [dict_get cd "flow"] (PStr "xtls-rprx-vision")).
Proof. reflexivity. Qed.

Section LinkStep.

Variables (W : World) (self : UIAPI) (email target : string).
Variables (d cd r t si : pydict).

Hypothesis Hclient : lookup_client (PDict d) target = Ok (Some (PDict cd)).
Hypothesis Hnonempty : truthy (PDict cd) = true.
Hypothesis Hstream : reality_and_tls (PDict d) = Ok (PDict r, PDict t).


(** A matching client with a credential gives the link. *)
Lemma link_step_found (flow remark : string) :
  truthy (py_or (dict_get cd "id") (dict_get cd "password")) = true ->
  _safe_json_load (py_or (dict_get r "settings") (PDict [])) = Ok (PDict si) ->
  select_flow (PDict cd) = Ok flow ->
  py_strip (py_or (dict_get d "remark") (PStr "")) = Ok remark ->
  link_step W self email target (PDict d)
  = Ok (Return (Some
      (vless_link (py_or (dict_get cd "id") (dict_get cd "password"))
         (_resolve_server_host W self)
         (py_or (dict_get d "port") (PStr ""))
         (prefer [dict_get r "publicKey"; dict_get si "publicKey"] (PStr ""))
         (prefer [dict_get t "fingerprint"; dict_get r "fingerprint"] (PStr "chrome"))
         (first_entry (dict_lookup r "serverNames") (PStr (_resolve_server_host W self)))
         (first_entry (dict_lookup r "shortIds") (PStr ""))
         flow
         (if String.eqb remark "" then email else remark ++ "-" ++ email)))).
Proof.
  intros Hid Hsi Hflow Hremark. unfold link_step. rewrite Hclient. cbn [rbind].
  rewrite Hnonempty. cbn [negb]. rewrite Hstream. cbn [rbind py_get].
  rewrite Hid. cbn [negb]. rewrite Hsi. cbn [rbind].
  rewrite select_public_key_prefer, select_short_id_first, select_sni_first,
    select_fingerprint_prefer, Hflow.
  cbn [rbind]. rewrite Hremark. reflexivity.
Qed.

End LinkStep.

(** Whatever link a round of the loop returns has the panel's shape. *)
Lemma link_step_shape (W : World) (self : UIAPI) (email target : string)
      (inbound : pyval) (link : string) :
  link_step W self email target inbound = Ok (Return (Some link)) ->
  exists (uuid_val port public_key fp sni short_id r : pyval) (flow remark : string),
    py_get inbound "remark" = Ok r
    /\ py_strip (py_or r (PStr "")) = Ok remark
    /\ link = vless_link uuid_val (_resolve_server_host W self) port public_key fp
                sni short_id flow
                (if String.eqb remark "" then email else remark ++ "-" ++ email).
Proof.
  unfold link_step. intros H.
  repeat match type of H with
         | rbind ?x _ = _ => destruct x as [? | ? |] eqn:?; cbn [rbind] in H;
                             try discriminate H
         | match ?x with _ => _ end = _ => destruct x eqn:?; try discriminate H
         | (if ?x then _ else _) = _ => destruct x eqn:?; try discriminate H
         end.
  injection H as <-. repeat eexists; eassumption.
Qed.

(** One round of the [while] loop that ends with [return]. *)
Lemma poll_link_returns (W : World) (self : UIAPI) (inbound_id : Z)
      (email target : string) (deadline : Z) (fuel : nat) (h h1 : history)
      (inbound : pyval) (r : option string) :
  clock W h < deadline ->
  get_inbound self inbound_id h = (Ok inbound, h1) ->
  truthy inbound = true ->
  link_step W self email target inbound = Ok (Return r) ->
  poll_link W self inbound_id email target deadline (S fuel) h = (Ok r, h1).
Proof.
  intros Hclock Hget Htruthy Hstep. cbn [poll_link].
  apply Z.ltb_lt in Hclock. rewrite Hclock.
  unfold bind at 1. rewrite Hget, Htruthy. cbn [negb].
  unfold bind, lift. now rewrite Hstep.
Qed.


(** C1. URI assembly.  When a round of the polling loop finds the
    client and a credential, the link is [vless://], the credential,
    [@host:port], then the query parameters in the fixed order
    [type=tcp], [security=reality], [pbk], [fp], [sni], [sid],
    [spx=%2F], [flow], then [#] and a fragment that is the email when
    the trimmed remark is empty and [remark-email] otherwise; the round
    returns it from [try_get_client_vless_link]'s loop at once.  Every
    link the loop body returns has this shape. *)
Theorem vless_uri_assembly (W : World) (self : UIAPI) (inbound_id : Z)
        (email target : string) (d cd r t si : pydict) (flow remark : string)
        (Hclient : lookup_client (PDict d) target = Ok (Some (PDict cd)))
        (Hnonempty : truthy (PDict cd) = true)
        (Hcred : truthy (py_or (dict_get cd "id") (dict_get cd "password")) = true)
        (Hstream : reality_and_tls (PDict d) = Ok (PDict r, PDict t))
        (Hinner : _safe_json_load (py_or (dict_get r "settings") (PDict []))
                  = Ok (PDict si))
        (Hflow : select_flow (PDict cd) = Ok flow)
        (Hremark : py_strip (py_or (dict_get d "remark") (PStr "")) = Ok remark) :
  exists pbk fp sni sid : string,
    let link :=
      "vless://" ++ py_str (py_or (dict_get cd "id") (dict_get cd "password"))
        ++ "@" ++ _resolve_server_host W self
        ++ ":" ++ py_str (py_or (dict_get d "port") (PStr ""))
        ++ "?type=tcp&security=reality&pbk=" ++ pbk
        ++ "&fp=" ++ fp ++ "&sni=" ++ sni ++ "&sid=" ++ sid
        ++ "&spx=%2F&flow=" ++ flow
        ++ "#" ++ (if String.eqb remark "" then email else remark ++ "-" ++ email) in
    link_step W self email target (PDict d) = Ok (Return (Some link))
    /\ (forall deadline fuel h h1,
          clock W h < deadline ->
          get_inbound self inbound_id h = (Ok (PDict d), h1) ->
          truthy (PDict d) = true ->
          poll_link W self inbound_id email target deadline (S fuel) h
          = (Ok (Some link), h1))
    /\ (forall inbound' link',
          link_step W self email target inbound' = Ok (Return (Some link')) ->
          exists (cred' port' pbk' fp' sni' sid' flow' remark' : string) (r' : pyval),
            py_get inbound' "remark" = Ok r'
            /\ py_strip (py_or r' (PStr "")) = Ok remark'
            /\ link' = "vless://" ++ cred' ++ "@" ++ _resolve_server_host W self
                         ++ ":" ++ port'
                         ++ "?type=tcp&security=reality&pbk=" ++ pbk'
                         ++ "&fp=" ++ fp' ++ "&sni=" ++ sni' ++ "&sid=" ++ sid'
                         ++ "&spx=%2F&flow=" ++ flow'
                         ++ "#" ++ (if String.eqb remark' "" then email
                                    else remark' ++ "-" ++ email)).
Proof.
  pose proof (link_step_found W self email target d cd r t si Hclient Hnonempty
                Hstream flow remark Hcred Hinner Hflow Hremark) as Hstep.
  rewrite vless_link_flat in Hstep.
  do 4 eexists. cbv zeta. split; [exact Hstep | split].
  - intros deadline fuel h h1 Hclock Hget Htruthy.
    eapply poll_link_returns; eauto.
  - intros inbound' link' H.
    destruct (link_step_shape _ _ _ _ _ _ H)
      as (u & p & pk & f & sn & sh & rr & fl & rm & Hr & Hrm & ->).
    rewrite vless_link_flat.
    exists (py_str u), (py_str p), (py_str pk), (py_str f), (py_str sn),
      (py_str sh), fl, rm, rr.
    repeat split; assumption.
Qed.

(** C2. Field selection.  With [ss] the inbound's [streamSettings],
    [r] its [realitySettings], [t] its [tlsSettings] and [si] the
    [settings] inside [r], each as [_safe_json_load] reads it: in the
    link of a matched client the public key is
    [realitySettings.publicKey], else the nested
    [realitySettings.settings.publicKey]; the short id is the first
    entry of [shortIds], else the empty string; the SNI is the first
    entry of [serverNames], else the resolved host; the fingerprint is
    [tlsSettings.fingerprint], else [realitySettings.fingerprint], else
    ["chrome"]; the flow is the client's [flow] (trimmed), else
    ["xtls-rprx-vision"]. *)
Theorem vless_field_selection (W : World) (self : UIAPI)
        (email target : string) (d cd ss r t si : pydict) (remark : string)
        (Hclient : lookup_client (PDict d) target = Ok (Some (PDict cd)))
        (Hnonempty : truthy (PDict cd) = true)
        (Hcred : truthy (py_or (dict_get cd "id") (dict_get cd "password")) = true)
        (Hstream : _safe_json_load (py_or (dict_get d "streamSettings") (PDict []))
                   = Ok (PDict ss))
        (Hreality : _safe_json_load (py_or (dict_get ss "realitySettings") (PDict []))
                    = Ok (PDict r))
        (Htls : _safe_json_load (py_or (dict_get ss "tlsSettings") (PDict []))
                = Ok (PDict t))
        (Hinner : _safe_json_load (py_or (dict_get r "settings") (PDict []))
                  = Ok (PDict si))
        (Hflow : is_str (prefer [dict_get cd "flow"] (PStr "xtls-rprx-vision")) = true)
        (Hremark : py_strip (py_or (dict_get d "remark") (PStr "")) = Ok remark) :
  let host := _resolve_server_host W self in
  let public_key := prefer [dict_get r "publicKey"; dict_get si "publicKey"] (PStr "") in
  let short_id := first_entry (dict_lookup r "shortIds") (PStr "") in
  let sni := first_entry (dict_lookup r "serverNames") (PStr host) in
  let fp := prefer [dict_get t "fingerprint"; dict_get r "fingerprint"]
                   (PStr "chrome") in
  let flow := strip (py_str (prefer [dict_get cd "flow"] (PStr "xtls-rprx-vision"))) in
  link_step W self email target (PDict d)
  = Ok (Return (Some
      ("vless://" ++ py_str (py_or (dict_get cd "id") (dict_get cd "password"))
        ++ "@" ++ host ++ ":" ++ py_str (py_or (dict_get d "port") (PStr ""))
        ++ "?type=tcp&security=reality&pbk=" ++ py_str public_key
        ++ "&fp=" ++ py_str fp ++ "&sni=" ++ py_str sni ++ "&sid=" ++ py_str short_id
        ++ "&spx=%2F&flow=" ++ flow
        ++ "#" ++ (if String.eqb remark "" then email else remark ++ "-" ++ email)))).
Proof.
  cbv zeta.
  assert (Hf : select_flow (PDict cd)
               = Ok (strip (py_str (prefer [dict_get cd "flow"]
                                           (PStr "xtls-rprx-vision"))))).
  { rewrite select_flow_prefer.
    destruct (prefer [dict_get cd "flow"] (PStr "xtls-rprx-vision"));
      try discriminate Hflow. reflexivity. }
  assert (Hboth : reality_and_tls (PDict d) = Ok (PDict r, PDict t)).
  { unfold reality_and_tls. cbn [py_get rbind]. rewrite Hstream.
    cbn [py_get rbind]. rewrite Hreality. cbn [py_get rbind]. now rewrite Htls. }
  rewrite (link_step_found W self email target d cd r t si Hclient Hnonempty
             Hboth _ remark Hcred Hinner Hf Hremark).
  now rewrite vless_link_flat.
Qed.


(* ================================================================== *)
(** ** Decoded values keep the dict invariant *)

Lemma dict_set_keys_fresh (d : pydict) (k k' : string) (v : pyval) :
  existsb (String.eqb k') (map fst d) = false -> k' <> k ->
  existsb (String.eqb k') (map fst (dict_set d k v)) = false.
Proof.
  intros Hd Hk. induction d as [|[a x] d IH]; simpl in *.
  - apply String.eqb_neq in Hk. now rewrite Hk.
  - apply orb_false_iff in Hd as [Ha Hd].
    destruct (String.eqb a k); simpl; rewrite Ha; simpl; auto.
Qed.

Lemma dict_set_distinct (d : pydict) (k : string) (v : pyval) :
  distinct (map fst d) = true -> distinct (map fst (dict_set d k v)) = true.
Proof.
  induction d as [|[a x] d IH]; simpl; [reflexivity|].
  intros H. apply andb_true_iff in H as [Ha Hd].
  destruct (String.eqb_spec a k) as [->|Hne]; simpl.
  - now rewrite Ha, Hd.
  - rewrite (IH Hd), andb_true_r. apply negb_true_iff in Ha.
    apply negb_true_iff. now apply dict_set_keys_fresh.
Qed.

Lemma dict_set_values (d : pydict) (k : string) (v : pyval) :
  forallb (fun kv => well_formed (snd kv)) d = true -> well_formed v = true ->
  forallb (fun kv => well_formed (snd kv)) (dict_set d k v) = true.
Proof.
  intros Hd Hv. induction d as [|[a x] d IH]; simpl in *.
  - now rewrite Hv.
  - apply andb_true_iff in Hd as [Hx Hd].
    destruct (String.eqb a k); simpl.
    + now rewrite Hv, Hd.
    + now rewrite Hx, IH.
Qed.

Lemma dict_set_well_formed (d : pydict) (k : string) (v : pyval) :
  well_formed (PDict d) = true -> well_formed v = true ->
  well_formed (PDict (dict_set d k v)) = true.
Proof.
  simpl. intros H Hv. apply andb_true_iff in H as [H1 H2].
  now rewrite dict_set_distinct, dict_set_values.
Qed.

Lemma dict_of_pairs_well_formed (pairs : list (string * pyval)) :
  forallb (fun kv => well_formed (snd kv)) pairs = true ->
  well_formed (PDict (dict_of_pairs pairs)) = true.
Proof.
  unfold dict_of_pairs.
  assert (G : forall acc, well_formed (PDict acc) = true ->
                          forallb (fun kv => well_formed (snd kv)) pairs = true ->
                          well_formed
                            (PDict (fold_left (fun a kv => dict_set a (fst kv) (snd kv))
                                              pairs acc)) = true).
  { induction pairs as [|[k v] pairs IH]; intros acc Ha Hp; simpl in *; [exact Ha|].
    apply andb_true_iff in Hp as [Hv Hp].
    apply IH; [|exact Hp]. now apply (dict_set_well_formed acc k v). }
  now apply G.
Qed.

Lemma scan_atom_well_formed (s rest : string) (v : pyval) :
  scan_atom s = Ok (v, rest) -> well_formed v = true.
Proof.
  unfold scan_atom. intros H.
  repeat match type of H with
         | match ?x with _ => _ end = _ => destruct x; try discriminate H
         | (if ?x then _ else _) = _ => destruct x; try discriminate H
         end;
    injection H as <- _; reflexivity.
Qed.

Lemma forallb_snoc {A} (f : A -> bool) (l : list A) (x : A) :
  forallb f l = true -> f x = true -> forallb f (l ++ [x])%list = true.
Proof. intros Hl Hx. rewrite forallb_app, Hl. simpl. now rewrite Hx. Qed.

Lemma scan_well_formed (fuel : nat) :
  (forall s v rest, scan_once fuel s = Ok (v, rest) -> well_formed v = true)
  /\ (forall pairs s v rest,
         forallb (fun kv => well_formed (snd kv)) pairs = true ->
         object_items fuel pairs s = Ok (v, rest) -> well_formed v = true)
  /\ (forall values s v rest,
         forallb well_formed values = true ->
         array_items fuel values s = Ok (v, rest) -> well_formed v = true).
Proof.
  induction fuel as [|f (IHs & IHo & IHa)];
    [repeat split; intros; discriminate|].
  repeat split.
  - intros s v rest H. cbn [scan_once] in H.
    destruct s as [|c r]; [discriminate|].
    destruct (Ascii.eqb c dquote).
    { destruct (scanstring r) as [[t0 r0] | |]; try discriminate.
      injection H as <- _. reflexivity. }
    destruct (Ascii.eqb c "{").
    { destruct (skip_ws r) as [|c1 r1]; [discriminate|].
      destruct (Ascii.eqb c1 "}"); [injection H as <- _; reflexivity|].
      destruct (Ascii.eqb c1 dquote); [|discriminate].
      eapply IHo; [|exact H]. reflexivity. }
    destruct (Ascii.eqb c "[").
    { destruct (skip_ws r) as [|c1 r1] eqn:E; [discriminate|].
      destruct (Ascii.eqb c1 "]"); [injection H as <- _; reflexivity|].
      eapply IHa; [|exact H]. reflexivity. }
    eapply scan_atom_well_formed; exact H.
  - intros pairs s v rest Hp H. cbn [object_items] in H.
    destruct (scanstring s) as [[key s1] | |]; try discriminate.
    destruct (skip_ws s1) as [|c s2]; [discriminate|].
    destruct (Ascii.eqb c ":"); [|discriminate].
    destruct (scan_once f (skip_ws s2)) as [[value s3] | |] eqn:E; try discriminate.
    apply IHs in E.
    assert (Hp' : forallb (fun kv => well_formed (snd kv))
                          (pairs ++ [(key, value)])%list = true)
      by (apply forallb_snoc; assumption).
    destruct (skip_ws s3) as [|c3 s4]; [discriminate|].
    destruct (Ascii.eqb c3 "}").
    { injection H as <- _. now apply dict_of_pairs_well_formed. }
    destruct (Ascii.eqb c3 ","); [|discriminate].
    destruct (skip_ws s4) as [|c5 s5]; [discriminate|].
    destruct (Ascii.eqb c5 dquote); [|discriminate].
    eapply IHo; [exact Hp' | exact H].
  - intros values s v rest Hv H. cbn [array_items] in H.
    destruct (scan_once f s) as [[value s1] | |] eqn:E; try discriminate.
    apply IHs in E.
    assert (Hv' : forallb well_formed (values ++ [value])%list = true)
      by (apply forallb_snoc; assumption).
    destruct (skip_ws s1) as [|c s2]; [discriminate|].
    destruct (Ascii.eqb c "]").
    { injection H as <- _. exact Hv'. }
    destruct (Ascii.eqb c ","); [|discriminate].
    eapply IHa; [exact Hv' | exact H].
Qed.

Lemma json_loads_well_formed (s : string) (v : pyval) :
  json_loads s = Ok v -> well_formed v = true.
Proof.
  unfold json_loads. intros H.
  destruct (scan_once _ _) as [[v' rest] | |] eqn:E; try discriminate.
  destruct (skip_ws rest); try discriminate. injection H as <-.
  eapply (proj1 (scan_well_formed _)); exact E.
Qed.

Lemma dict_get_well_formed (d : pydict) (k : string) :
  well_formed (PDict d) = true -> well_formed (dict_get d k) = true.
Proof.
  simpl. intros H. apply andb_true_iff in H as [_ H].
  unfold dict_get, dict_get_default.
  induction d as [|[a x] d IH]; simpl in *; [reflexivity|].
  apply andb_true_iff in H as [Hx Hd].
  destruct (String.eqb a k); auto.
Qed.

Lemma dict_lookup_well_formed (d : pydict) (k : string) (v : pyval) :
  well_formed (PDict d) = true -> dict_lookup d k = Some v -> well_formed v = true.
Proof.
  intros Hwf H. pose proof (dict_get_well_formed d k Hwf) as G.
  unfold dict_get, dict_get_default in G. now rewrite H in G.
Qed.

Lemma dict_get_set_same (d : pydict) (k : string) (v : pyval) :
  dict_lookup (dict_set d k v) k = Some v.
Proof.
  induction d as [|[a x] d IH]; simpl.
  - now rewrite String.eqb_refl.
  - destruct (String.eqb a k) eqn:E; simpl; now rewrite E.
Qed.

Lemma dict_get_set_other (d : pydict) (k k' : string) (v : pyval) :
  k' <> k -> dict_lookup (dict_set d k v) k' = dict_lookup d k'.
Proof.
  intros Hne. induction d as [|[a x] d IH]; simpl.
  - apply String.eqb_neq in Hne. rewrite String.eqb_sym in Hne. now rewrite Hne.
  - destruct (String.eqb_spec a k) as [->|Hak]; simpl.
    + apply String.eqb_neq in Hne. rewrite String.eqb_sym in Hne. now rewrite Hne.
    + now rewrite IH.
Qed.

(* ================================================================== *)
(** ** The fuel of the decoder is enough

    Every step of the decoder consumes input, so the fuel [json_loads]
    starts with is never what stops it: more fuel gives the same answer. *)

Local Open Scope nat_scope.
Local Open Scope string_scope.

Lemma skip_ws_length (s : string) : String.length (skip_ws s) <= String.length s.
Proof.
  induction s as [|c s IH]; simpl; [lia|].
  destruct (is_json_ws c); simpl; lia.
Qed.

Lemma scanstring_length_bounded (n : nat) :
  forall s t rest,
    String.length s <= n -> scanstring s = Ok (t, rest) ->
    String.length rest < String.length s.
Proof.
  induction n as [|n IH]; intros s t rest Hn H.
  - destruct s; [discriminate | simpl in Hn; lia].
  - destruct s as [|c r]; [discriminate|]. cbn [scanstring] in H.
    destruct (Ascii.eqb c dquote); [injection H as _ <-; simpl; lia|].
    destruct (Ascii.eqb c backslash).
    + destruct r as [|e r1]; [discriminate|].
      destruct (Ascii.eqb e "u").
      * destruct r1 as [|h1 [|h2 [|h3 [|h4 r2]]]]; try discriminate.
        destruct (decode_uXXXX h1 h2 h3 h4); [|discriminate].
        destruct (_ <? 256)%nat; [|discriminate].
        destruct (scanstring r2) as [[t' rest'] | |] eqn:E; try discriminate.
        injection H as _ <-. apply IH in E; simpl in *; lia.
      * destruct (unescape e); [|discriminate].
        destruct (scanstring r1) as [[t' rest'] | |] eqn:E; try discriminate.
        injection H as _ <-. apply IH in E; simpl in *; lia.
    + destruct (code c <? 32)%nat; [discriminate|].
      destruct (scanstring r) as [[t' rest'] | |] eqn:E; try discriminate.
      injection H as _ <-. apply IH in E; simpl in *; lia.
Qed.

Lemma scanstring_length (s t rest : string) :
  scanstring s = Ok (t, rest) -> String.length rest < String.length s.
Proof.
  intros H. apply (scanstring_length_bounded (String.length s)) in H; lia.
Qed.

Lemma strip_prefix_length (p s rest : string) :
  strip_prefix p s = Some rest ->
  String.length rest + String.length p = String.length s.
Proof.
  revert s. induction p as [|a p IH]; intros s H; simpl in H.
  - injection H as <-. simpl. lia.
  - destruct s as [|b s]; [discriminate|].
    destruct (Ascii.eqb a b); [|discriminate]. apply IH in H. simpl. lia.
Qed.

Lemma span_digits_length (s : string) :
  String.length (snd (span_digits s)) <= String.length s.
Proof.
  induction s as [|c s IH]; simpl; [lia|].
  destruct (is_digit c); [|simpl; lia].
  destruct (span_digits s); simpl in *; lia.
Qed.

Lemma match_integer_length (s integer rest : string) :
  match_integer s = Some (integer, rest) -> String.length rest <= String.length s.
Proof.
  assert (U : forall t i r,
             match t with
             | String c r0 =>
                 if Ascii.eqb c "0" then Some ("0", r0)
                 else if is_digit c then Some (span_digits t) else None
             | "" => None
             end = Some (i, r) -> String.length r <= String.length t).
  { intros t i r H. destruct t as [|c r0]; [discriminate|].
    destruct (Ascii.eqb c "0"); [injection H as _ <-; simpl; lia|].
    destruct (is_digit c); [|discriminate].
    pose proof (span_digits_length (String c r0)) as L.
    destruct (span_digits (String c r0)); injection H as _ <-. exact L. }
  unfold match_integer. intros H. destruct s as [|c t]; [discriminate|].
  destruct (Ascii.eqb c "-").
  - match type of H with
    | match ?x with _ => _ end = _ => destruct x as [[ds r']|] eqn:E; [|discriminate]
    end.
    injection H as _ <-. apply U in E. simpl. lia.
  - now apply (U (String c t)) in H.
Qed.

Lemma scan_atom_length (s rest : string) (v : pyval) :
  scan_atom s = Ok (v, rest) -> String.length rest <= String.length s.
Proof.
  unfold scan_atom. intros H.
  destruct (strip_prefix "null" s) eqn:E1;
    [injection H as _ <-; apply strip_prefix_length in E1; lia|].
  destruct (strip_prefix "true" s) eqn:E2;
    [injection H as _ <-; apply strip_prefix_length in E2; lia|].
  destruct (strip_prefix "false" s) eqn:E3;
    [injection H as _ <-; apply strip_prefix_length in E3; lia|].
  destruct (match_integer s) as [[integer r]|] eqn:E4.
  - destruct (has_frac r || has_exp r); [discriminate|].
    destruct (NilZero.int_of_string integer); [|discriminate].
    injection H as _ <-. now apply match_integer_length in E4.
  - destruct (strip_prefix "NaN" s), (strip_prefix "Infinity" s),
      (strip_prefix "-Infinity" s); discriminate.
Qed.

Lemma scan_length (fuel : nat) :
  (forall s v rest, scan_once fuel s = Ok (v, rest) ->
                    String.length rest <= String.length s)
  /\ (forall pairs s v rest, object_items fuel pairs s = Ok (v, rest) ->
                             String.length rest <= String.length s)
  /\ (forall values s v rest, array_items fuel values s = Ok (v, rest) ->
                              String.length rest <= String.length s).
Proof.
  induction fuel as [|f (IHs & IHo & IHa)];
    [repeat split; intros; discriminate|].
  repeat split.
  - intros s v rest H. cbn [scan_once] in H.
    destruct s as [|c r]; [discriminate|].
    destruct (Ascii.eqb c dquote).
    { destruct (scanstring r) as [[t0 r0] | |] eqn:E; try discriminate.
      injection H as _ <-. apply scanstring_length in E. simpl. lia. }
    destruct (Ascii.eqb c "{").
    { pose proof (skip_ws_length r) as L.
      destruct (skip_ws r) as [|c1 r1]; [discriminate|].
      destruct (Ascii.eqb c1 "}"); [injection H as _ <-; simpl in *; lia|].
      destruct (Ascii.eqb c1 dquote); [|discriminate].
      apply IHo in H. simpl in *. lia. }
    destruct (Ascii.eqb c "[").
    { pose proof (skip_ws_length r) as L.
      destruct (skip_ws r) as [|c1 r1] eqn:E; [discriminate|].
      destruct (Ascii.eqb c1 "]"); [injection H as _ <-; simpl in *; lia|].
      apply IHa in H. simpl in *. lia. }
    now apply scan_atom_length in H.
  - intros pairs s v rest H. cbn [object_items] in H.
    destruct (scanstring s) as [[key s1] | |] eqn:E0; try discriminate.
    apply scanstring_length in E0.
    pose proof (skip_ws_length s1) as L1.
    destruct (skip_ws s1) as [|c s2]; [discriminate|].
    destruct (Ascii.eqb c ":"); [|discriminate].
    pose proof (skip_ws_length s2) as L2.
    destruct (scan_once f (skip_ws s2)) as [[value s3] | |] eqn:E; try discriminate.
    apply IHs in E.
    pose proof (skip_ws_length s3) as L3.
    destruct (skip_ws s3) as [|c3 s4]; [discriminate|].
    destruct (Ascii.eqb c3 "}"); [injection H as _ <-; simpl in *; lia|].
    destruct (Ascii.eqb c3 ","); [|discriminate].
    pose proof (skip_ws_length s4) as L4.
    destruct (skip_ws s4) as [|c5 s5]; [discriminate|].
    destruct (Ascii.eqb c5 dquote); [|discriminate].
    apply IHo in H. simpl in *. lia.
  - intros values s v rest H. cbn [array_items] in H.
    destruct (scan_once f s) as [[value s1] | |] eqn:E; try discriminate.
    apply IHs in E.
    pose proof (skip_ws_length s1) as L1.
    destruct (skip_ws s1) as [|c s2]; [discriminate|].
    destruct (Ascii.eqb c "]"); [injection H as _ <-; simpl in *; lia|].
    destruct (Ascii.eqb c ","); [|discriminate].
    pose proof (skip_ws_length s2) as L2.
    apply IHa in H. simpl in *. lia.
Qed.

(** More fuel than the input is long (twice over) changes nothing. *)
Lemma scan_fuel_enough (f1 : nat) :
  (forall s f2,
      2 * String.length s + 2 <= f1 -> 2 * String.length s + 2 <= f2 ->
      scan_once f1 s = scan_once f2 s)
  /\ (forall pairs s f2,
         2 * String.length s + 3 <= f1 -> 2 * String.length s + 3 <= f2 ->
         object_items f1 pairs s = object_items f2 pairs s)
  /\ (forall values s f2,
         2 * String.length s + 3 <= f1 -> 2 * String.length s + 3 <= f2 ->
         array_items f1 values s = array_items f2 values s).
Proof.
  induction f1 as [|f (IHs & IHo & IHa)]; [repeat split; intros; lia|].
  repeat split.
  - intros s [|g] H1 H2; [lia|]. cbn [scan_once].
    destruct s as [|c r]; [reflexivity|]. cbn [String.length] in H1, H2.
    destruct (Ascii.eqb c dquote); [reflexivity|].
    destruct (Ascii.eqb c "{").
    { pose proof (skip_ws_length r) as L.
      destruct (skip_ws r) as [|c1 r1]; [reflexivity|].
      destruct (Ascii.eqb c1 "}"); [reflexivity|].
      destruct (Ascii.eqb c1 dquote); [|reflexivity].
      apply IHo; cbn [String.length] in *; lia. }
    destruct (Ascii.eqb c "[").
    { pose proof (skip_ws_length r) as L.
      destruct (skip_ws r) as [|c1 r1] eqn:E; [reflexivity|].
      destruct (Ascii.eqb c1 "]"); [reflexivity|].
      apply IHa; cbn [String.length] in *; lia. }
    reflexivity.
  - intros pairs s [|g] H1 H2; [lia|]. cbn [object_items].
    destruct (scanstring s) as [[key s1] | |] eqn:E0; try reflexivity.
    apply scanstring_length in E0.
    pose proof (skip_ws_length s1) as L1.
    destruct (skip_ws s1) as [|c s2]; [reflexivity|].
    destruct (Ascii.eqb c ":"); [|reflexivity].
    pose proof (skip_ws_length s2) as L2. cbn [String.length] in *.
    rewrite (IHs (skip_ws s2) g) by lia.
    destruct (scan_once g (skip_ws s2)) as [[value s3] | |] eqn:E; try reflexivity.
    apply (proj1 (scan_length g)) in E.
    pose proof (skip_ws_length s3) as L3.
    destruct (skip_ws s3) as [|c3 s4]; [reflexivity|].
    destruct (Ascii.eqb c3 "}"); [reflexivity|].
    destruct (Ascii.eqb c3 ","); [|reflexivity].
    pose proof (skip_ws_length s4) as L4.
    destruct (skip_ws s4) as [|c5 s5]; [reflexivity|].
    destruct (Ascii.eqb c5 dquote); [|reflexivity].
    apply IHo; cbn [String.length] in *; lia.
  - intros values s [|g] H1 H2; [lia|]. cbn [array_items].
    rewrite (IHs s g) by lia.
    destruct (scan_once g s) as [[value s1] | |] eqn:E; try reflexivity.
    apply (proj1 (scan_length g)) in E.
    pose proof (skip_ws_length s1) as L1.
    destruct (skip_ws s1) as [|c s2]; [reflexivity|].
    destruct (Ascii.eqb c "]"); [reflexivity|].
    destruct (Ascii.eqb c ","); [|reflexivity].
    pose proof (skip_ws_length s2) as L2.
    apply IHa; cbn [String.length] in *; lia.
Qed.

(** [json_loads] with any larger fuel gives the same answer. *)
Lemma json_loads_fuel_enough (s : string) (extra : nat) :
  scan_once (2 * String.length s + 2 + extra) (skip_ws s)
  = scan_once (2 * String.length s + 2) (skip_ws s).
Proof.
  pose proof (skip_ws_length s) as L.
  apply (proj1 (scan_fuel_enough _)); lia.
Qed.

Local Open Scope Z_scope.
Local Open Scope string_scope.

(* ================================================================== *)
(** ** What the client sends *)

Section Appends.

Context {ok : event -> bool}.

Lemma appends_ret {A} (a : A) : appends ok (ret a).
Proof. intros h. exists []. now rewrite app_nil_r. Qed.

Lemma appends_throw {A} (e : exn) : appends ok (@throw A e).
Proof. intros h. exists []. now rewrite app_nil_r. Qed.

Lemma appends_lift {A} (r : result A) : appends ok (lift r).
Proof. intros h. exists []. now rewrite app_nil_r. Qed.

Lemma appends_bind {A B} (m : M A) (k : A -> M B) :
  appends ok m -> (forall a, appends ok (k a)) -> appends ok (bind m k).
Proof.
  intros Hm Hk h. unfold bind. destruct (Hm h) as (evs & E & Hevs).
  destruct (m h) as [[a | e |] h']; simpl in E; subst h';
    try (exists evs; now split).
  destruct (Hk a (h ++ evs)%list) as (evs' & E' & Hevs').
  exists (evs ++ evs')%list. rewrite E', app_assoc, forallb_app, Hevs, Hevs'.
  now split.
Qed.

Lemma appends_try_except {A} (m : M A) (handler : exn -> M A) :
  appends ok m -> (forall e, appends ok (handler e)) ->
  appends ok (try_except m handler).
Proof.
  intros Hm Hk h. unfold try_except. destruct (Hm h) as (evs & E & Hevs).
  destruct (m h) as [[a | e |] h']; simpl in E; subst h';
    try (exists evs; now split).
  destruct (Hk e (h ++ evs)%list) as (evs' & E' & Hevs').
  exists (evs ++ evs')%list. rewrite E', app_assoc, forallb_app, Hevs, Hevs'.
  now split.
Qed.

Lemma appends_request (self : UIAPI) (method : http_method) (path : string)
      (payload : pyval) :
  ok (EvRequest {| req_method := method; req_url := _build_url self path;
                   req_json := payload |}) = true ->
  appends ok (_request self method path payload).
Proof.
  intros Hok h. unfold _request.
  exists [EvRequest {| req_method := method; req_url := _build_url self path;
                       req_json := payload |}].
  split; [|simpl; now rewrite Hok].
  destruct (session self h _) as [text | text [v|]]; reflexivity.
Qed.

Lemma appends_sleep (ms : Z) : ok (EvSleep ms) = true -> appends ok (sleep ms).
Proof. intros Hok h. exists [EvSleep ms]. split; [reflexivity | simpl; now rewrite Hok]. Qed.

End Appends.

Lemma appends_weaken {A} (ok ok' : event -> bool) (m : M A) :
  (forall e, ok e = true -> ok' e = true) -> appends ok m -> appends ok' m.
Proof.
  intros Himp Hm h. destruct (Hm h) as (evs & E & Hevs). exists evs. split; [exact E|].
  rewrite forallb_forall in *. auto.
Qed.

Ltac appends_step :=
  first [ apply appends_ret | apply appends_throw | apply appends_lift
        | apply appends_bind; [|intros ?]
        | apply appends_try_except; [|intros ?] ].

Lemma get_inbounds_list_reads (self : UIAPI) :
  appends (is_read self) (get_inbounds_list self).
Proof.
  unfold get_inbounds_list. apply appends_bind.
  - apply appends_request. simpl. apply String.eqb_refl.
  - intros res. destruct (reports_success res); repeat appends_step.
Qed.

Lemma get_inbound_variants_reads (self : UIAPI)
      (variants : list (http_method * string * pyval)) :
  Forall (fun v => fst (fst v) = GET) variants ->
  appends (is_read self) (get_inbound_variants self variants).
Proof.
  induction variants as [|[[method path] payload] rest IH]; intros HF; simpl.
  - apply appends_ret.
  - inversion HF as [|? ? Hm HF']; subst. simpl in Hm. subst method.
    apply appends_bind.
    + apply appends_try_except; [|intros; apply appends_ret].
      apply appends_bind; [|intros; apply appends_ret].
      now apply appends_request.
    + intros [res|]; [|auto].
      destruct res; auto.
      destruct (is_dict _ && truthy _); auto. apply appends_ret.
Qed.

Lemma get_inbound_reads (self : UIAPI) (inbound_id : Z) :
  appends (is_read self) (get_inbound self inbound_id).
Proof.
  unfold get_inbound. apply appends_bind; [apply get_inbounds_list_reads|].
  intros inbounds. repeat appends_step.
  destruct a0; [apply appends_ret|].
  apply get_inbound_variants_reads. repeat constructor.
Qed.

Lemma get_clients_list_reads (self : UIAPI) (inbound_id : Z) :
  appends (is_read self) (get_clients_list self inbound_id).
Proof.
  unfold get_clients_list. apply appends_bind; [apply get_inbound_reads|].
  intros. apply appends_lift.
Qed.

Lemma poll_link_reads (W : World) (self : UIAPI) (inbound_id : Z)
      (email target : string) (deadline : Z) (fuel : nat) :
  appends (is_read self) (poll_link W self inbound_id email target deadline fuel).
Proof.
  induction fuel as [|f IH]; intros h; cbn [poll_link].
  - destruct (clock W h <? deadline)%Z; exists []; now rewrite app_nil_r.
  - destruct (clock W h <? deadline)%Z; [|exists []; now rewrite app_nil_r].
    revert h. change (appends (is_read self)
      (inbound <== get_inbound self inbound_id ;;
       if negb (truthy inbound) then
         sleep 400 ;;; poll_link W self inbound_id email target deadline f
       else
         st <== lift (link_step W self email target inbound) ;;
         match st with
         | Continue =>
             sleep 400 ;;; poll_link W self inbound_id email target deadline f
         | Return r => ret r
         end)).
    apply appends_bind; [apply get_inbound_reads|]. intros inbound.
    destruct (negb (truthy inbound)).
    + apply appends_bind; [now apply appends_sleep | intros; exact IH].
    + apply appends_bind; [apply appends_lift|]. intros [|r].
      * apply appends_bind; [now apply appends_sleep | intros; exact IH].
      * apply appends_ret.
Qed.

Lemma try_get_client_vless_link_reads (W : World) (self : UIAPI) (inbound_id : Z)
      (email : string) (wait_seconds : Z) :
  appends (is_read self)
          (try_get_client_vless_link W self inbound_id email wait_seconds).
Proof. intros h. unfold try_get_client_vless_link. apply poll_link_reads. Qed.

Lemma get_client_vless_link_reads (W : World) (self : UIAPI) (inbound_id : Z)
      (email : string) :
  appends (is_read self) (get_client_vless_link W self inbound_id email).
Proof.
  unfold get_client_vless_link.
  apply appends_bind; [apply try_get_client_vless_link_reads|].
  intros [l|]; [|apply appends_throw].
  destruct (String.eqb l ""); [apply appends_throw | apply appends_ret].
Qed.

Lemma appends_any {A} (ok : event -> bool) (m : M A) :
  appends ok m -> appends any_event m.
Proof. apply appends_weaken. reflexivity. Qed.


(* ================================================================== *)
(** ** The polls the model follows are enough

    On a clock that never runs backwards and that a sleep of 0.4 s moves
    on by at least 400 ms, a polling window of [w] ms ends within
    [w / 400 + 1] rounds: following more rounds changes nothing. *)

Lemma bind_ext_from {A B} (m : M A) (k1 k2 : A -> M B) (h : history) :
  (forall a h', m h = (Ok a, h') -> k1 a h' = k2 a h') ->
  bind m k1 h = bind m k2 h.
Proof.
  intros Hk. unfold bind. destruct (m h) as [[a | e |] h']; auto.
Qed.

Section PollingFuel.

Variables (W : World) (self : UIAPI) (inbound_id : Z) (email target : string).
Variable deadline : Z.

Hypothesis clock_monotone : forall h e, clock W h <= clock W (h ++ [e])%list.
Hypothesis sleep_advances :
  forall h ms, clock W h + ms <= clock W (h ++ [EvSleep ms])%list.

Lemma clock_appends (h : history) (evs : list event) :
  clock W h <= clock W (h ++ evs)%list.
Proof.
  induction evs as [|e evs IH] using rev_ind.
  - rewrite app_nil_r. lia.
  - rewrite app_assoc. specialize (clock_monotone (h ++ evs)%list e). lia.
Qed.

Lemma poll_link_fuel_enough (f1 : nat) :
  forall f2 h,
    deadline - clock W h < 400 * Z.of_nat f1 ->
    deadline - clock W h < 400 * Z.of_nat f2 ->
    poll_link W self inbound_id email target deadline f1 h
    = poll_link W self inbound_id email target deadline f2 h.
Proof.
  induction f1 as [|f IH]; intros f2 h H1 H2.
  - destruct f2; cbn [poll_link];
      destruct (Z.ltb_spec (clock W h) deadline); try reflexivity; lia.
  - destruct f2 as [|g]; cbn [poll_link];
      destruct (Z.ltb_spec (clock W h) deadline) as [Hlt|Hge];
      try reflexivity; try lia.
    apply bind_ext_from. intros inbound h' Hget.
    destruct (get_inbound_reads self inbound_id h) as (evs & E & _).
    rewrite Hget in E. simpl in E. subst h'.
    assert (Hnext : forall u h'',
               sleep 400 (h ++ evs)%list = (Ok u, h'') ->
               poll_link W self inbound_id email target deadline f h''
               = poll_link W self inbound_id email target deadline g h'').
    { intros u h'' Hs. unfold sleep in Hs. injection Hs as _ <-.
      pose proof (clock_appends h evs).
      pose proof (sleep_advances (h ++ evs)%list 400).
      apply IH; lia. }
    destruct (negb (truthy inbound)).
    + apply bind_ext_from. exact Hnext.
    + apply bind_ext_from. intros [|r] h'' Hl; [|reflexivity].
      unfold lift in Hl. injection Hl as _ <-.
      apply bind_ext_from. exact Hnext.
Qed.

End PollingFuel.

(** With [max_polls] past the window, [try_get_client_vless_link] does
    not depend on it. *)
Lemma try_get_fuel_enough (W : World) (self : UIAPI) (inbound_id : Z)
      (email : string) (wait_seconds : Z) (fuel : nat) (h : history) :
  (forall h e, clock W h <= clock W (h ++ [e])%list) ->
  (forall h ms, clock W h + ms <= clock W (h ++ [EvSleep ms])%list) ->
  1000 * Z.max 1 wait_seconds < 400 * Z.of_nat (max_polls W) ->
  1000 * Z.max 1 wait_seconds < 400 * Z.of_nat fuel ->
  try_get_client_vless_link W self inbound_id email wait_seconds h
  = poll_link W self inbound_id email (lower (strip email))
              (clock W h + 1000 * Z.max 1 wait_seconds) fuel h.
Proof.
  intros Hmono Hsleep H1 H2. unfold try_get_client_vless_link.
  apply poll_link_fuel_enough; auto; lia.
Qed.

(* ================================================================== *)
(** ** Listing the inbounds *)

(** The envelope [{"success": true, "obj": [...]}] gives its list. *)
Lemma get_inbounds_list_envelope (self : UIAPI) (h : history) (text : string)
      (d : pydict) (l : list pyval) :
  session self h {| req_method := POST;
                    req_url := _build_url self "panel/inbound/list";
                    req_json := PDict [] |} = Body text (Some (PDict d)) ->
  dict_get d "success" = PBool true ->
  dict_get d "obj" = PList l ->
  fst (get_inbounds_list self h) = Ok (PList l).
Proof.
  intros Hs Hok Hobj.
  unfold get_inbounds_list, bind, _post, _request. rewrite Hs.
  unfold reports_success. rewrite Hok. simpl. rewrite Hobj.
  unfold py_or. now destruct l.
Qed.

(** C5. Listing the inbounds when the panel answers with a bare list:
    the code calls [res.get("obj")] on the list and raises
    [AttributeError] instead of returning the list. *)
Theorem get_inbounds_list_bare_list_raises (self : UIAPI) (h : history)
        (text : string) (l : list pyval)
        (Hanswer : session self h {| req_method := POST;
                                     req_url := _build_url self "panel/inbound/list";
                                     req_json := PDict [] |}
                   = Body text (Some (PList l))) :
  fst (get_inbounds_list self h) = Raise AttributeError.
Proof.
  unfold get_inbounds_list, bind, _post, _request. now rewrite Hanswer.
Qed.

Lemma get_inbounds_list_bare_list_raises_witness :
  fst (get_inbounds_list Scenario.bare_list_UI []) = Raise AttributeError.
Proof.
  apply (get_inbounds_list_bare_list_raises Scenario.bare_list_UI [] ""
           [Scenario.inbound]).
  reflexivity.
Defined.

(* ================================================================== *)
(** ** The polling window of [add_client] *)

(** C10. [add_client] never reads [wait_seconds]: two calls that differ
    only there behave alike, and the link is resolved by
    [get_client_vless_link], whose polling window is twelve seconds. *)
Theorem add_client_ignores_wait_seconds (W : World) (self : UIAPI) (inbound_id : Z)
        (email : string) (limit_ip total_gb expiry_time_ms : Z)
        (flow : option string) (wait1 wait2 : Z) (h : history) :
  add_client W self inbound_id email limit_ip total_gb expiry_time_ms flow wait1 h
  = add_client W self inbound_id email limit_ip total_gb expiry_time_ms flow wait2 h
  /\ get_client_vless_link W self inbound_id email h
     = match poll_link W self inbound_id email (lower (strip email))
                       (clock W h + 12000) (max_polls W) h with
       | (Ok (Some l), h') =>
           if String.eqb l "" then (Raise (LookupError (MsgClientNotFound email)), h')
           else (Ok l, h')
       | (Ok None, h') => (Raise (LookupError (MsgClientNotFound email)), h')
       | (Raise e, h') => (Raise e, h')
       | (Unmodelled, h') => (Unmodelled, h')
       end.
Proof.
  split; [reflexivity|].
  unfold get_client_vless_link, bind, try_get_client_vless_link.
  change (1000 * Z.max 1 12) with 12000.
  destruct (poll_link _ _ _ _ _ _ _ _) as [[[l|] | e |] h']; try reflexivity.
  now destruct (String.eqb l "").
Qed.

(* ================================================================== *)
(** ** The client-settings codec *)

Lemma encode_payload_round_trip (inbound_id : Z) (d sd : pydict)
      (clients : list pyval) :
  well_formed (PDict sd) = true ->
  well_formed (PList clients) = true ->
  exists payload,
    encode_payload inbound_id (PDict d) (PDict sd) (PList clients) = Ok (PDict payload)
    /\ clients_of_inbound (PDict payload) = Ok (PList clients)
    /\ map fst payload = [ "id"; "remark"; "port"; "protocol"; "settings";
                           "streamSettings"; "sniffing"; "enable"; "tag" ]
    /\ dict_lookup payload "id" = Some (PInt inbound_id)
    /\ dict_lookup payload "remark" = Some (dict_get_default d "remark" (PStr ""))
    /\ dict_lookup payload "port" = Some (dict_get d "port")
    /\ dict_lookup payload "protocol" = Some (dict_get d "protocol")
    /\ dict_lookup payload "streamSettings" = Some (dict_get d "streamSettings")
    /\ dict_lookup payload "sniffing" = Some (dict_get d "sniffing")
    /\ dict_lookup payload "enable" = Some (dict_get_default d "enable" (PBool true))
    /\ dict_lookup payload "tag" = Some (dict_get d "tag").
Proof.
  intros Hsd Hcl. eexists. split; [reflexivity|].
  split; [|repeat split; reflexivity].
  unfold clients_of_inbound. cbn [truthy negb py_get rbind].
  change (dict_get _ "settings")
    with (PStr (json_dumps (PDict (dict_set sd "clients" (PList clients))))).
  cbv beta iota.
  rewrite json_loads_dumps by (now apply dict_set_well_formed).
  cbn [rbind py_get]. unfold dict_get, dict_get_default.
  rewrite dict_get_set_same. unfold py_or. now destruct clients.
Qed.

(** The update path of [add_traffic] and [update_client] ends in
    [encode_payload]. *)
Lemma update_payload_encodes (inbound_id : Z) (d sd : pydict)
      (items items' : list pyval)
      (edit : list pyval -> result (option (list pyval))) (missing : exn) :
  load_settings (PDict d) = Ok (PDict sd) ->
  dict_get_default sd "clients" (PList []) = PList items ->
  edit items = Ok (Some items') ->
  update_payload inbound_id (PDict d) edit missing
  = encode_payload inbound_id (PDict d) (PDict sd) (PList items').
Proof.
  intros Hload Hitems Hedit. unfold update_payload. rewrite Hload.
  cbn [rbind py_get_default]. rewrite Hitems. cbn [py_iter rbind].
  now rewrite Hedit.
Qed.

(** C4. Client-settings codec.  Writing a well-formed client list into
    the inbound's [settings] (as [update_client] and [add_traffic] do,
    through [json.dumps]) and reading the clients back from the payload
    (as [get_clients_list] does, through [json.loads]) gives the same
    list; the payload's [remark], [port], [protocol], [streamSettings],
    [sniffing], [enable] and [tag] are those of the inbound. *)
Theorem client_settings_round_trip (inbound_id : Z) (d sd : pydict)
        (clients : list pyval)
        (Hsettings : well_formed (PDict sd) = true)
        (Hclients : well_formed (PList clients) = true) :
  exists payload,
    encode_payload inbound_id (PDict d) (PDict sd) (PList clients) = Ok (PDict payload)
    /\ clients_of_inbound (PDict payload) = Ok (PList clients)
    /\ (forall k v,
           In k [ "remark"; "port"; "protocol"; "streamSettings"; "sniffing";
                  "enable"; "tag" ] ->
           dict_lookup d k = Some v -> dict_lookup payload k = Some v)
    /\ (forall edit missing items,
           load_settings (PDict d) = Ok (PDict sd) ->
           dict_get_default sd "clients" (PList []) = PList items ->
           edit items = Ok (Some clients) ->
           update_payload inbound_id (PDict d) edit missing = Ok (PDict payload)).
Proof.
  destruct (encode_payload_round_trip inbound_id d sd clients Hsettings Hclients)
    as (payload & He & Hd & _ & _ & H1 & H2 & H3 & H4 & H5 & H6 & H7).
  exists payload. split; [exact He | split; [exact Hd | split]].
  - intros k v Hk Hv. unfold dict_get, dict_get_default in *.
    simpl in Hk.
    repeat (destruct Hk as [<- | Hk]; [rewrite Hv in *; assumption|]).
    contradiction.
  - intros edit missing items Hload Hitems Hedit.
    now rewrite (update_payload_encodes inbound_id d sd items clients edit missing
                   Hload Hitems Hedit).
Qed.

Lemma client_settings_round_trip_witness :
  exists payload,
    encode_payload 2 Scenario.inbound Scenario.settings
                   (PList [Scenario.alice; Scenario.carol]) = Ok (PDict payload)
    /\ clients_of_inbound (PDict payload)
       = Ok (PList [Scenario.alice; Scenario.carol])
    /\ dict_lookup payload "remark" = Some (PStr "srv1").
Proof.
  destruct (client_settings_round_trip 2 Scenario.inbound_fields
              Scenario.settings_fields [Scenario.alice; Scenario.carol]
              eq_refl eq_refl)
    as (payload & He & Hd & Hf & _).
  exists payload. split; [exact He | split; [exact Hd|]].
  apply Hf; [simpl; auto | reflexivity].
Defined.

(* ================================================================== *)
(** ** Raising a client's allowance *)

Lemma add_traffic_clients_unlimited (email : string) (add_gb : Z)
      (items : list pyval) (cd : pydict) :
  first_with_email items email = Ok (Some (PDict cd)) ->
  dict_get cd "totalGB" = PInt 0 ->
  add_traffic_clients email add_gb items = Raise (RuntimeError MsgUnlimitedPlan).
Proof.
  intros Hfirst Hzero. induction items as [|c rest IH]; [discriminate|].
  cbn [first_with_email add_traffic_clients] in *.
  destruct (py_get c "email") as [e | |]; cbn [rbind] in *; try discriminate.
  destruct (py_eq_str e email).
  - injection Hfirst as ->. cbn [py_get rbind]. now rewrite Hzero.
  - now rewrite (IH Hfirst).
Qed.

Lemma add_traffic_clients_limited (email : string) (add_gb N : Z)
      (items : list pyval) (cd : pydict) :
  first_with_email items email = Ok (Some (PDict cd)) ->
  dict_get cd "totalGB" = PInt N -> N <> 0 ->
  add_traffic_clients email add_gb items
  = Ok (Some (with_ceiling email (N + add_gb * BYTES_IN_GB) items)).
Proof.
  intros Hfirst HN Hne. induction items as [|c rest IH]; [discriminate|].
  cbn [first_with_email add_traffic_clients with_ceiling] in *.
  destruct c as [| b | z | s | l | d]; try discriminate.
  cbn [py_get rbind] in *.
  destruct (py_eq_str (dict_get d "email") email).
  - injection Hfirst as ->. rewrite HN. unfold py_or. cbn [truthy].
    apply Z.eqb_neq in Hne. rewrite Hne. cbn [negb py_int rbind].
    rewrite Hne. reflexivity.
  - now rewrite (IH Hfirst).
Qed.

Lemma first_with_email_with_ceiling (email : string) (ceiling : Z)
      (items : list pyval) (cd : pydict) :
  first_with_email items email = Ok (Some (PDict cd)) ->
  first_with_email (with_ceiling email ceiling items) email
  = Ok (Some (PDict (dict_set cd "totalGB" (PInt ceiling)))).
Proof.
  intros Hfirst. induction items as [|c rest IH]; [discriminate|].
  cbn [first_with_email with_ceiling] in *.
  destruct c as [| b | z | s | l | d]; try discriminate.
  cbn [py_get rbind] in *.
  destruct (py_eq_str (dict_get d "email") email) eqn:E.
  - injection Hfirst as ->. cbn [first_with_email py_get rbind].
    unfold dict_get, dict_get_default in *.
    rewrite dict_get_set_other by discriminate. now rewrite E.
  - cbn [first_with_email py_get rbind]. rewrite E. now apply IH.
Qed.

Lemma with_ceiling_well_formed (email : string) (ceiling : Z) (items : list pyval) :
  forallb well_formed items = true ->
  forallb well_formed (with_ceiling email ceiling items) = true.
Proof.
  induction items as [|c rest IH]; [reflexivity|].
  cbn [forallb with_ceiling]. intros H. apply andb_true_iff in H as [Hc Hr].
  destruct c as [| b | z | s | l | d]; cbn [forallb];
    try (rewrite (IH Hr); now rewrite ?Hc).
  destruct (py_eq_str (dict_get d "email") email); cbn [forallb].
  - rewrite Hr, andb_true_r. now apply dict_set_well_formed.
  - now rewrite Hc, (IH Hr).
Qed.

Lemma load_settings_well_formed (inbound settings : pyval) :
  well_formed inbound = true -> load_settings inbound = Ok settings ->
  well_formed settings = true.
Proof.
  intros Hwf H. unfold load_settings in H.
  destruct inbound as [| | | | | d]; try discriminate.
  cbn [py_getitem] in H.
  destruct (dict_lookup d "settings") as [s|] eqn:E; [|discriminate].
  pose proof (dict_lookup_well_formed _ _ _ Hwf E) as Hs.
  cbn [rbind] in H. destruct s as [| b | z | text | [|x l] | sd]; try discriminate.
  - now apply json_loads_well_formed in H.
  - now injection H as <-.
  - now injection H as <-.
Qed.

Lemma post_then_appends {A} (self : UIAPI) (path : string) (payload : pyval)
      (k : pyval -> M A) (h : history) :
  (forall res, appends any_event (k res)) ->
  exists evs,
    snd (bind (_post self path payload) k h)
    = (h ++ EvRequest {| req_method := POST; req_url := _build_url self path;
                         req_json := payload |} :: evs)%list.
Proof.
  intros Hk. unfold bind, _post, _request.
  destruct (session self h _) as [text | text [v|]].
  - exists []. reflexivity.
  - destruct (Hk v (h ++ [EvRequest {| req_method := POST;
                                       req_url := _build_url self path;
                                       req_json := payload |}])%list)
      as (evs & E & _).
    exists evs. rewrite E, <- app_assoc. reflexivity.
  - destruct (Hk (PDict [("raw", PStr text); ("ok", PBool true)])
                 (h ++ [EvRequest {| req_method := POST;
                                     req_url := _build_url self path;
                                     req_json := payload |}])%list)
      as (evs & E & _).
    exists evs. rewrite E, <- app_assoc. reflexivity.
Qed.

Section AddTraffic.

Variables (self : UIAPI) (inbound_id : Z) (email : string) (add_gb : Z).
Variables (d sd cd : pydict) (items : list pyval) (h h1 : history).

Hypothesis Hget : get_inbound self inbound_id h = (Ok (PDict d), h1).
Hypothesis Hinbound : truthy (PDict d) = true.
Hypothesis Hsettings : load_settings (PDict d) = Ok (PDict sd).
Hypothesis Hclients : dict_get_default sd "clients" (PList []) = PList items.
Hypothesis Hfirst : first_with_email items email = Ok (Some (PDict cd)).

Lemma add_traffic_unlimited :
  dict_get cd "totalGB" = PInt 0 ->
  add_traffic self inbound_id email add_gb h
  = (Raise (RuntimeError MsgUnlimitedPlan), h1).
Proof.
  intros Hzero. unfold add_traffic, bind at 1. rewrite Hget, Hinbound. cbn [negb].
  unfold bind, lift, update_payload. rewrite Hsettings. cbn [rbind py_get_default].
  rewrite Hclients. cbn [py_iter rbind].
  now rewrite (add_traffic_clients_unlimited _ _ _ _ Hfirst Hzero).
Qed.

Lemma add_traffic_payload (N : Z) :
  dict_get cd "totalGB" = PInt N -> N <> 0 ->
  update_payload inbound_id (PDict d) (add_traffic_clients email add_gb)
                 (RuntimeError (MsgClientNotFound email))
  = encode_payload inbound_id (PDict d) (PDict sd)
      (PList (with_ceiling email (N + add_gb * BYTES_IN_GB) items)).
Proof.
  intros HN Hne. apply (update_payload_encodes _ _ _ items); try assumption.
  now apply (add_traffic_clients_limited _ _ _ _ cd).
Qed.

Lemma add_traffic_pushes (payload : pyval) :
  update_payload inbound_id (PDict d) (add_traffic_clients email add_gb)
                 (RuntimeError (MsgClientNotFound email)) = Ok payload ->
  exists evs,
    snd (add_traffic self inbound_id email add_gb h)
    = (h1 ++ update_request self inbound_id payload :: evs)%list.
Proof.
  intros Hp. unfold add_traffic, bind at 1. rewrite Hget, Hinbound. cbn [negb].
  unfold bind at 1, lift. rewrite Hp.
  apply post_then_appends. intros res.
  apply appends_bind; [apply appends_lift|]. intros success.
  destruct (negb (truthy success)); [apply appends_throw|].
  apply appends_bind; [apply (appends_any _ _ (get_clients_list_reads _ _))|].
  intros clients. repeat appends_step.
Qed.

End AddTraffic.

(** C7. Unlimited clients.  When the ceiling of the client is exactly
    [0], [add_traffic] raises the unlimited-plan error straight after
    reading the inbound: what it sent are the read requests of
    [get_inbound] and nothing else, so no update reaches the panel. *)
Theorem add_traffic_unlimited_plan (self : UIAPI) (inbound_id : Z) (email : string)
        (add_gb : Z) (d sd cd : pydict) (items : list pyval) (h h1 : history)
        (Hget : get_inbound self inbound_id h = (Ok (PDict d), h1))
        (Hinbound : truthy (PDict d) = true)
        (Hsettings : load_settings (PDict d) = Ok (PDict sd))
        (Hclients : dict_get_default sd "clients" (PList []) = PList items)
        (Hfirst : first_with_email items email = Ok (Some (PDict cd)))
        (Hzero : dict_get cd "totalGB" = PInt 0) :
  add_traffic self inbound_id email add_gb h
  = (Raise (RuntimeError MsgUnlimitedPlan), h1)
  /\ exists evs, h1 = (h ++ evs)%list /\ forallb (is_read self) evs = true.
Proof.
  split.
  - eapply add_traffic_unlimited; eauto.
  - destruct (get_inbound_reads self inbound_id h) as (evs & E & Hevs).
    rewrite Hget in E. now exists evs.
Qed.

(** C8. Limited clients.  When the ceiling of the client is [N > 0]
    bytes, [add_traffic] with [add_gb = g] pushes an update whose
    payload, read back as [get_clients_list] reads it, holds the same
    clients with that client's ceiling at exactly [N + g * 2^30]. *)
Theorem add_traffic_new_ceiling (self : UIAPI) (inbound_id : Z) (email : string)
        (g N : Z) (d sd cd : pydict) (items : list pyval) (h h1 : history)
        (Hwf : well_formed (PDict d) = true)
        (Hget : get_inbound self inbound_id h = (Ok (PDict d), h1))
        (Hinbound : truthy (PDict d) = true)
        (Hsettings : load_settings (PDict d) = Ok (PDict sd))
        (Hclients : dict_get_default sd "clients" (PList []) = PList items)
        (Hfirst : first_with_email items email = Ok (Some (PDict cd)))
        (Hceiling : dict_get cd "totalGB" = PInt N)
        (Hpositive : 0 < N) :
  exists payload evs,
    snd (add_traffic self inbound_id email g h)
    = (h1 ++ update_request self inbound_id payload :: evs)%list
    /\ clients_of_inbound payload
       = Ok (PList (with_ceiling email (N + g * 2 ^ 30) items))
    /\ first_with_email (with_ceiling email (N + g * 2 ^ 30) items) email
       = Ok (Some (PDict (dict_set cd "totalGB" (PInt (N + g * 2 ^ 30)))))
    /\ dict_lookup (dict_set cd "totalGB" (PInt (N + g * 2 ^ 30))) "totalGB"
       = Some (PInt (N + g * 2 ^ 30)).
Proof.
  change (2 ^ 30) with BYTES_IN_GB.
  pose proof (load_settings_well_formed _ _ Hwf Hsettings) as Hsd.
  assert (Hitems : well_formed (PList items) = true).
  { rewrite <- Hclients. unfold dict_get_default.
    destruct (dict_lookup sd "clients") as [v|] eqn:E; [|reflexivity].
    exact (dict_lookup_well_formed _ _ _ Hsd E). }
  pose proof (with_ceiling_well_formed email (N + g * BYTES_IN_GB) items Hitems) as Hnew.
  destruct (encode_payload_round_trip inbound_id d sd _ Hsd Hnew)
    as (payload & He & Hd & _).
  assert (Hp : update_payload inbound_id (PDict d) (add_traffic_clients email g)
                 (RuntimeError (MsgClientNotFound email)) = Ok (PDict payload)).
  { rewrite (add_traffic_payload inbound_id email g d sd cd items
               Hsettings Hclients Hfirst N Hceiling) by lia.
    exact He. }
  destruct (add_traffic_pushes self inbound_id email g d h h1 Hget Hinbound _ Hp)
    as (evs & Hevs).
  exists (PDict payload), evs. repeat split.
  - exact Hevs.
  - exact Hd.
  - now apply first_with_email_with_ceiling.
  - apply dict_get_set_same.
Qed.

(* ================================================================== *)
(** ** A login that already exists *)



Lemma ends_with_id_addClient (inbound_id : Z) :
  ends_with ("/" ++ str_of_Z inbound_id) "panel/inbound/addClient" = false.
Proof.
  destruct (str_of_Z_head inbound_id) as (c & r & -> & Hc).
  destruct c as [[] [] [] [] [] [] [] []]; cbn in Hc; try discriminate Hc;
    reflexivity.
Qed.

Lemma add_client_attempts_cons (self : UIAPI) (inbound_id : Z)
      (payload settings : pyval) (p : string) (rest : list string)
      (last_res : pyval) :
  add_client_attempts self inbound_id payload settings (p :: rest) last_res
  = (r <== try_except
             (res <== _post self p
                        (if negb (is_substring "{inbound_id}" p)
                            && negb (ends_with ("/" ++ str_of_Z inbound_id) p)
                         then payload else PDict [("settings", settings)]) ;;
              ret (inl res))
             (fun e => ret (inr e)) ;;
     match r with
     | inl res =>
         if reports_success res then ret (true, res)
         else add_client_attempts self inbound_id payload settings rest res
     | inr e =>
         add_client_attempts self inbound_id payload settings rest
           (PDict [("success", PBool false); ("msg", PStr (exn_text e))])
     end).
Proof. reflexivity. Qed.









(* ================================================================== *)
(** ** The theorems at work on the scenario *)

Lemma vless_uri_assembly_witness :
  exists pbk fp sni sid : string,
    link_step Scenario.world Scenario.UI "alice" "alice" Scenario.inbound
    = Ok (Return (Some
        ("vless://11111111-2222-3333-4444-555555555555@panel.test:443"
           ++ "?type=tcp&security=reality&pbk=" ++ pbk
           ++ "&fp=" ++ fp ++ "&sni=" ++ sni ++ "&sid=" ++ sid
           ++ "&spx=%2F&flow=xtls-rprx-vision#srv1-alice"))).
Proof.
  destruct (vless_uri_assembly Scenario.world Scenario.UI 2 "alice" "alice"
              Scenario.inbound_fields Scenario.alice_fields
              Scenario.reality_fields Scenario.tls_fields []
              "xtls-rprx-vision" "srv1"
              ltac:(vm_compute; reflexivity) eq_refl eq_refl
              ltac:(vm_compute; reflexivity) eq_refl eq_refl eq_refl)
    as (pbk & fp & sni & sid & Hstep & _).
  exists pbk, fp, sni, sid. exact Hstep.
Defined.

Lemma vless_field_selection_witness :
  link_step Scenario.world Scenario.UI "dora" "dora" (PDict Edge.fallback_inbound)
  = Ok (Return (Some Edge.dora_link)).
Proof.
  exact (vless_field_selection Scenario.world Scenario.UI "dora" "dora"
           Edge.fallback_inbound Edge.dora Edge.fallback_stream
           Edge.fallback_reality Edge.fallback_tls [("publicKey", PStr "PK2")] ""
           ltac:(vm_compute; reflexivity) eq_refl eq_refl
           eq_refl eq_refl ltac:(vm_compute; reflexivity) eq_refl
           eq_refl eq_refl).
Defined.


Lemma add_traffic_unlimited_plan_witness :
  add_traffic Scenario.UI 2 "carol" 10 []
  = (Raise (RuntimeError MsgUnlimitedPlan), [Scenario.list_request]).
Proof.
  exact (proj1 (add_traffic_unlimited_plan Scenario.UI 2 "carol" 10
                  Scenario.inbound_fields Scenario.settings_fields
                  Scenario.carol_fields Scenario.clients [] [Scenario.list_request]
                  ltac:(vm_compute; reflexivity) eq_refl
                  ltac:(vm_compute; reflexivity) eq_refl
                  ltac:(vm_compute; reflexivity) eq_refl)).
Defined.

Lemma add_traffic_new_ceiling_witness :
  exists payload evs,
    snd (add_traffic Scenario.UI 2 "alice" 10 [])
    = ([Scenario.list_request] ++ update_request Scenario.UI 2 payload :: evs)%list
    /\ clients_of_inbound payload
       = Ok (PList [ PDict (dict_set Scenario.alice_fields "totalGB"
                                     (PInt 42949672960));
                     Scenario.bob; Scenario.carol ]).
Proof.
  destruct (add_traffic_new_ceiling Scenario.UI 2 "alice" 10 32212254720
              Scenario.inbound_fields Scenario.settings_fields
              Scenario.alice_fields Scenario.clients [] [Scenario.list_request]
              eq_refl ltac:(vm_compute; reflexivity) eq_refl
              ltac:(vm_compute; reflexivity) eq_refl
              ltac:(vm_compute; reflexivity) eq_refl ltac:(lia))
    as (payload & evs & Hevs & Hclients & _).
  exists payload, evs. split; [exact Hevs | exact Hclients].
Defined.

(** *** Built-ins on examples *)

Example strip_ex : strip "  Bob@x " = "Bob@x".
Proof. reflexivity. Qed.

Example lower_ex : lower "Bob@X" = "bob@x".
Proof. reflexivity. Qed.

Example py_str_ex : py_str (PInt 443) = "443".
Proof. reflexivity. Qed.

Example py_repr_ex :
  py_repr (PDict [("a", PList [PInt (-1); PStr "it's"])])
  = "{'a': [-1, " ++ String dquote ("it's" ++ String dquote "]}").
Proof. reflexivity. Qed.

Example int_of_str_ex : int_of_str " -1_000 " = Ok (-1000).
Proof. reflexivity. Qed.

Example int_of_str_bad : int_of_str "1__0" = Raise ValueError.
Proof. reflexivity. Qed.

Example json_loads_float : json_loads "[1, 2.5]" = Unmodelled.
Proof. reflexivity. Qed.

Example json_loads_bad : json_loads "{'a': 1}" = Raise JSONDecodeError.
Proof. reflexivity. Qed.

Example scenario_link :
  fst (try_get_client_vless_link Scenario.world Scenario.UI 2 " Alice" 12 [])
  = Ok (Some
      ("vless://11111111-2222-3333-4444-555555555555@panel.test:443"
         ++ "?type=tcp&security=reality&pbk=PK1&fp=chrome&sni=example.com&sid=ab12"
         ++ "&spx=%2F&flow=xtls-rprx-vision#srv1- Alice")).
Proof. vm_compute. reflexivity. Qed.

(** The polling window matters to [try_get_client_vless_link] (one
    second gives one round for a login that never appears, twelve
    seconds give six), not to [add_client]. *)
Example wait_seconds_matters_to_polling :
  List.length (snd (try_get_client_vless_link Scenario.world Scenario.UI 2
                      "zed" 1 [])) = 2%nat
  /\ List.length (snd (try_get_client_vless_link Scenario.world Scenario.UI 2
                         "zed" 12 [])) = 12%nat.
Proof. split; vm_compute; reflexivity. Qed.

(** The bot compares emails exactly, the link lookup after trimming and
    lower-casing: with a client ["ALICE "] listed before [alice], the
    bot finds [alice], and the link it answers with is the other
    client's. *)
Example earlier_client_shadows_login :
  fst (get_clients_list Edge.shadowed_UI 2 [])
  = Ok (PList [PDict Edge.other; Scenario.alice])
  /\ first_with_email [PDict Edge.other; Scenario.alice] "alice"
     = Ok (Some Scenario.alice)
  /\ fst (admin_plan_pick_callback Scenario.world Edge.shadowed_UI 2 "alice" 30 0
                                   "xtls-rprx-vision" [])
     = Ok (ReplyExistingLink Edge.other_link).
Proof. repeat split; vm_compute; reflexivity. Qed.

(* ================================================================== *)
(** ** The bases of the constructor *)

Lemma starts_with_app (p x : string) : starts_with p (p ++ x) = true.
Proof.
  unfold starts_with. induction p as [|a p IH]; simpl; [reflexivity|].
  now rewrite Ascii.eqb_refl.
Qed.

Lemma starts_with_length (p s : string) :
  starts_with p s = true -> (String.length p <= String.length s)%nat.
Proof.
  unfold starts_with. destruct (strip_prefix p s) as [rest|] eqn:E; [|discriminate].
  intros _. apply strip_prefix_length in E. lia.
Qed.

Lemma before_last_occurs (sep s p : string) :
  before_last sep s = Some p ->
  (String.length p + String.length sep <= String.length s)%nat.
Proof.
  revert p. induction s as [|c r IH]; intros p H; simpl in H; [discriminate|].
  destruct (before_last sep r) as [q|] eqn:E.
  - injection H as <-. specialize (IH q eq_refl). simpl. lia.
  - destruct (starts_with sep (String c r)) eqn:S; [|discriminate].
    injection H as <-. apply starts_with_length in S. simpl in *. lia.
Qed.

Lemma before_last_suffix (sep p : string) :
  sep <> "" -> before_last sep (p ++ sep) = Some p.
Proof.
  intros Hsep. induction p as [|c p IH].
  - destruct sep as [|a r]; [congruence|]. cbn [append before_last].
    destruct (before_last (String a r) r) as [q|] eqn:E.
    + apply before_last_occurs in E. simpl in E. lia.
    + pose proof (starts_with_app (String a r) "") as S.
      rewrite append_nil_r in S. now rewrite S.
  - cbn [append before_last]. now rewrite IH.
Qed.

Lemma ends_with_split (sep s : string) :
  ends_with sep s = true -> exists p, s = p ++ sep.
Proof.
  induction s as [|c r IH]; simpl; intros H.
  - rewrite orb_false_r in H. apply String.eqb_eq in H. subst sep. now exists "".
  - apply orb_true_iff in H. destruct H as [H | H].
    + apply String.eqb_eq in H. subst sep. now exists "".
    + destruct (IH H) as (p & ->). now exists (String c p).
Qed.

Lemma ends_with_app (sep p : string) : ends_with sep (p ++ sep) = true.
Proof.
  induction p as [|c p IH].
  - destruct sep; simpl; [reflexivity|].
    now rewrite Ascii.eqb_refl, String.eqb_refl.
  - cbn [append ends_with]. rewrite IH. apply orb_true_r.
Qed.

Lemma rstrip_chars_snoc_in (chars u : string) (c : ascii) :
  contains_char c chars = true ->
  rstrip_chars chars (u ++ String c "") = rstrip_chars chars u.
Proof.
  intros Hc. induction u as [|a u IH]; simpl.
  - now rewrite Hc.
  - now rewrite IH.
Qed.

Lemma rstrip_chars_snoc_out (chars u : string) (c : ascii) :
  contains_char c chars = false ->
  rstrip_chars chars (u ++ String c "") = u ++ String c "".
Proof.
  intros Hc. induction u as [|a u IH]; simpl.
  - now rewrite Hc.
  - rewrite IH. now destruct u.
Qed.

Lemma init_bases_of_panel (b : string) :
  init_bases (b ++ "/panel") = (b, b ++ "/panel").
Proof.
  unfold init_bases.
  change (b ++ "/panel") with (b ++ ("/pane" ++ "l")).
  rewrite <- append_assoc, rstrip_chars_snoc_out by reflexivity.
  rewrite append_assoc. cbn [append].
  rewrite ends_with_app. unfold rsplit_head.
  now rewrite before_last_suffix by discriminate.
Qed.

Lemma init_bases_slash (u : string) : init_bases (u ++ "/") = init_bases u.
Proof.
  unfold init_bases. now rewrite rstrip_chars_snoc_in by reflexivity.
Qed.

(** X1. Whatever [base_url] is given, the constructor leaves
    [panel_base] equal to [secret_base] followed by ["/panel"], and the
    login URL is [secret_base] followed by ["/login"]. *)
Theorem init_bases_panel_under_secret
        (sess : history -> request -> response) (base_url : string) :
  panel_base (init_self sess base_url)
  = secret_base (init_self sess base_url) ++ "/panel"
  /\ login_url base_url = secret_base (init_self sess base_url) ++ "/login"
  /\ ends_with "/panel" (panel_base (init_self sess base_url)) = true.
Proof.
  cbn [panel_base secret_base init_self].
  assert (E : snd (init_bases base_url) = fst (init_bases base_url) ++ "/panel").
  { unfold init_bases.
    destruct (ends_with "/panel" (rstrip_chars "/" base_url)) eqn:H; [|reflexivity].
    destruct (ends_with_split _ _ H) as (p & ->). cbn [fst snd].
    unfold rsplit_head. now rewrite before_last_suffix by discriminate. }
  split; [exact E|]. split; [reflexivity|].
  rewrite E. apply ends_with_app.
Qed.

(** X2. The constructor reads [b/panel], [b/panel/] and any further
    trailing slash alike: the secret base is [b] and the panel base
    [b/panel]; a trailing slash never changes the bases. *)
Theorem init_bases_normal_forms (b : string) :
  init_bases (b ++ "/panel") = (b, b ++ "/panel")
  /\ init_bases (b ++ "/panel/") = (b, b ++ "/panel")
  /\ init_bases (b ++ "/panel//") = (b, b ++ "/panel")
  /\ (forall u, init_bases (u ++ "/") = init_bases u).
Proof.
  assert (E1 : init_bases (b ++ "/panel/") = (b, b ++ "/panel")).
  { change (b ++ "/panel/") with (b ++ ("/panel" ++ "/")).
    now rewrite <- append_assoc, init_bases_slash, init_bases_of_panel. }
  repeat split.
  - apply init_bases_of_panel.
  - exact E1.
  - change (b ++ "/panel//") with (b ++ ("/panel/" ++ "/")).
    now rewrite <- append_assoc, init_bases_slash.
  - apply init_bases_slash.
Qed.

(* ================================================================== *)
(** ** More on the response normalizer *)

Lemma unwrap_json_unwraps_exact (k n : nat) (obj v : pyval) :
  unwraps k obj v -> unwrap_json (k + n) obj = unwrap_json n v.
Proof.
  induction 1 as [v | k s v w Hs Hu IH]; [reflexivity|].
  cbn [Nat.add unwrap_json]. now rewrite Hs.
Qed.

(** X3. [_safe_json_load] is idempotent: loading its own result again
    changes nothing. *)
Theorem safe_json_load_idempotent (obj v : pyval) :
  _safe_json_load obj = Ok v -> _safe_json_load v = Ok v.
Proof.
  intros H. destruct (safe_json_load_is_dict _ _ H) as (d & ->). reflexivity.
Qed.

Lemma safe_json_load_idempotent_witness :
  _safe_json_load (PStr (json_dumps (PDict [("a", PInt 1)])))
  = Ok (PDict [("a", PInt 1)])
  /\ _safe_json_load (PDict [("a", PInt 1)]) = Ok (PDict [("a", PInt 1)]).
Proof.
  split; [reflexivity|].
  apply (safe_json_load_idempotent (PStr (json_dumps (PDict [("a", PInt 1)])))).
  reflexivity.
Defined.

(* ================================================================== *)
(** ** Where the requests go *)

Lemma build_url_under_base (self : UIAPI) (path : string) :
  starts_with "http://" path = false ->
  starts_with "https://" path = false ->
  starts_with (secret_base self) (_build_url self path) = true.
Proof.
  intros H1 H2. unfold _build_url. rewrite H1, H2. cbn [orb].
  apply starts_with_app.
Qed.

Lemma request_under_base (self : UIAPI) (method : http_method) (path : string)
      (payload : pyval) :
  starts_with "http://" path = false ->
  starts_with "https://" path = false ->
  appends (under_base self) (_request self method path payload).
Proof.
  intros H1 H2. apply appends_request. cbn [under_base req_url].
  now apply build_url_under_base.
Qed.

Lemma get_inbounds_list_under_base (self : UIAPI) :
  appends (under_base self) (get_inbounds_list self).
Proof.
  unfold get_inbounds_list, _post. apply appends_bind.
  - now apply request_under_base.
  - intros res. destruct (reports_success res); repeat appends_step.
Qed.

Lemma get_inbound_variants_under_base (self : UIAPI)
      (variants : list (http_method * string * pyval)) :
  Forall (fun v => starts_with "http://" (snd (fst v)) = false
                   /\ starts_with "https://" (snd (fst v)) = false) variants ->
  appends (under_base self) (get_inbound_variants self variants).
Proof.
  induction variants as [|[[method path] payload] rest IH]; intros HF; simpl.
  - apply appends_ret.
  - inversion HF as [|? ? [H1 H2] HF']; subst. simpl in H1, H2.
    apply appends_bind.
    + apply appends_try_except; [|intros; apply appends_ret].
      apply appends_bind; [|intros; apply appends_ret].
      now apply request_under_base.
    + intros [res|]; [|auto].
      destruct res; auto.
      destruct (is_dict _ && truthy _); auto. apply appends_ret.
Qed.

Lemma get_inbound_under_base (self : UIAPI) (inbound_id : Z) :
  appends (under_base self) (get_inbound self inbound_id).
Proof.
  unfold get_inbound. apply appends_bind; [apply get_inbounds_list_under_base|].
  intros inbounds. repeat appends_step.
  destruct a0; [apply appends_ret|].
  apply get_inbound_variants_under_base. repeat constructor.
Qed.

Lemma get_clients_list_under_base (self : UIAPI) (inbound_id : Z) :
  appends (under_base self) (get_clients_list self inbound_id).
Proof.
  unfold get_clients_list. apply appends_bind; [apply get_inbound_under_base|].
  intros. apply appends_lift.
Qed.

Lemma poll_link_under_base (W : World) (self : UIAPI) (inbound_id : Z)
      (email target : string) (deadline : Z) (fuel : nat) :
  appends (under_base self)
          (poll_link W self inbound_id email target deadline fuel).
Proof.
  induction fuel as [|f IH]; intros h; cbn [poll_link].
  - destruct (clock W h <? deadline)%Z; exists []; now rewrite app_nil_r.
  - destruct (clock W h <? deadline)%Z; [|exists []; now rewrite app_nil_r].
    revert h. change (appends (under_base self)
      (inbound <== get_inbound self inbound_id ;;
       if negb (truthy inbound) then
         sleep 400 ;;; poll_link W self inbound_id email target deadline f
       else
         st <== lift (link_step W self email target inbound) ;;
         match st with
         | Continue =>
             sleep 400 ;;; poll_link W self inbound_id email target deadline f
         | Return r => ret r
         end)).
    apply appends_bind; [apply get_inbound_under_base|]. intros inbound.
    destruct (negb (truthy inbound)).
    + apply appends_bind; [now apply appends_sleep | intros; exact IH].
    + apply appends_bind; [apply appends_lift|]. intros [|r].
      * apply appends_bind; [now apply appends_sleep | intros; exact IH].
      * apply appends_ret.
Qed.

Lemma try_get_client_vless_link_under_base (W : World) (self : UIAPI)
      (inbound_id : Z) (email : string) (wait_seconds : Z) :
  appends (under_base self)
          (try_get_client_vless_link W self inbound_id email wait_seconds).
Proof. intros h. unfold try_get_client_vless_link. apply poll_link_under_base. Qed.

Lemma get_client_vless_link_under_base (W : World) (self : UIAPI) (inbound_id : Z)
      (email : string) :
  appends (under_base self) (get_client_vless_link W self inbound_id email).
Proof.
  unfold get_client_vless_link.
  apply appends_bind; [apply try_get_client_vless_link_under_base|].
  intros [l|]; [|apply appends_throw].
  destruct (String.eqb l ""); [apply appends_throw | apply appends_ret].
Qed.

Lemma add_client_attempts_under_base (self : UIAPI) (inbound_id : Z)
      (payload settings : pyval) (paths : list string) (last_res : pyval) :
  Forall (fun p => starts_with "http://" p = false
                   /\ starts_with "https://" p = false) paths ->
  appends (under_base self)
          (add_client_attempts self inbound_id payload settings paths last_res).
Proof.
  intros HF. revert last_res.
  induction HF as [|p rest [H1 H2] HF IH]; intros last_res; simpl.
  - apply appends_ret.
  - apply appends_bind.
    + apply appends_try_except; [|intros; apply appends_ret].
      apply appends_bind; [|intros; apply appends_ret].
      now apply request_under_base.
    + intros [res|e]; [|apply IH].
      destruct (reports_success res); [apply appends_ret | apply IH].
Qed.

Lemma add_client_under_base (W : World) (self : UIAPI) (inbound_id : Z)
      (email : string) (limit_ip total_gb expiry_time_ms : Z) (flow : option string)
      (wait_seconds : Z) :
  appends (under_base self)
          (add_client W self inbound_id email limit_ip total_gb expiry_time_ms
                      flow wait_seconds).
Proof.
  unfold add_client.
  apply appends_bind; [apply get_inbounds_list_under_base|]. intros inbounds.
  apply appends_bind; [apply appends_lift|]. intros items.
  apply appends_bind; [apply appends_lift|]. intros present.
  destruct (negb present); [repeat appends_step|].
  apply appends_bind.
  { intros h. exists []. now rewrite app_nil_r. }
  intros client_uuid. apply appends_bind.
  - apply add_client_attempts_under_base. repeat constructor.
  - intros [ok last_res]. destruct (negb ok); [apply appends_throw|].
    apply get_client_vless_link_under_base.
Qed.

Lemma add_traffic_under_base (self : UIAPI) (inbound_id : Z) (email : string)
      (add_gb : Z) :
  appends (under_base self) (add_traffic self inbound_id email add_gb).
Proof.
  unfold add_traffic.
  apply appends_bind; [apply get_inbound_under_base|]. intros inbound.
  destruct (negb (truthy inbound)); [apply appends_throw|].
  apply appends_bind; [apply appends_lift|]. intros payload.
  apply appends_bind; [now apply request_under_base|]. intros res.
  apply appends_bind; [apply appends_lift|]. intros success.
  destruct (negb (truthy success)); [apply appends_throw|].
  apply appends_bind; [apply get_clients_list_under_base|]. intros clients.
  repeat appends_step.
Qed.

Lemma update_client_under_base (self : UIAPI) (inbound_id : Z) (email : string)
      (total_gb : Z) (expiry_time_ms : option Z) :
  appends (under_base self)
          (update_client self inbound_id email total_gb expiry_time_ms).
Proof.
  unfold update_client.
  apply appends_bind; [apply get_inbound_under_base|]. intros inbound.
  destruct (negb (truthy inbound)); [apply appends_throw|].
  apply appends_bind; [apply appends_lift|]. intros payload.
  apply appends_bind; [now apply request_under_base|]. intros res.
  destruct (negb (reports_success res)); [apply appends_throw | apply appends_ret].
Qed.

(** X4. Every request of the client's public methods goes to a URL that
    begins with [secret_base]: no method talks to another host or
    outside the panel's secret path. *)
Theorem requests_stay_under_secret_base (W : World) (self : UIAPI)
        (inbound_id : Z) (email : string) :
  appends (under_base self) (get_inbounds_list self)
  /\ appends (under_base self) (get_inbound self inbound_id)
  /\ appends (under_base self) (get_clients_list self inbound_id)
  /\ (forall wait_seconds,
        appends (under_base self)
                (try_get_client_vless_link W self inbound_id email wait_seconds))
  /\ appends (under_base self) (get_client_vless_link W self inbound_id email)
  /\ (forall limit_ip total_gb expiry_time_ms flow wait_seconds,
        appends (under_base self)
                (add_client W self inbound_id email limit_ip total_gb
                            expiry_time_ms flow wait_seconds))
  /\ (forall add_gb,
        appends (under_base self) (add_traffic self inbound_id email add_gb))
  /\ (forall total_gb expiry_time_ms,
        appends (under_base self)
                (update_client self inbound_id email total_gb expiry_time_ms)).
Proof.
  repeat split; intros.
  - apply get_inbounds_list_under_base.
  - apply get_inbound_under_base.
  - apply get_clients_list_under_base.
  - apply try_get_client_vless_link_under_base.
  - apply get_client_vless_link_under_base.
  - apply add_client_under_base.
  - apply add_traffic_under_base.
  - apply update_client_under_base.
Qed.

(** X5. The methods that look something up never change the panel:
    [get_inbound], [get_clients_list], [try_get_client_vless_link] and
    [get_client_vless_link] send only the inbound-list request and
    [GET]s, and sleep. *)
Theorem lookups_never_write (W : World) (self : UIAPI) (inbound_id : Z)
        (email : string) :
  appends (is_read self) (get_inbound self inbound_id)
  /\ appends (is_read self) (get_clients_list self inbound_id)
  /\ (forall wait_seconds,
        appends (is_read self)
                (try_get_client_vless_link W self inbound_id email wait_seconds))
  /\ appends (is_read self) (get_client_vless_link W self inbound_id email).
Proof.
  repeat split; intros.
  - apply get_inbound_reads.
  - apply get_clients_list_reads.
  - apply try_get_client_vless_link_reads.
  - apply get_client_vless_link_reads.
Qed.

(* ================================================================== *)
(** ** Listing and finding inbounds *)

Lemma find_inbound_is_dict (items : list pyval) (inbound_id : Z) (ib : pyval) :
  find_inbound items inbound_id = Ok (Some ib) ->
  exists d, ib = PDict d /\ py_str (dict_get d "id") = str_of_Z inbound_id.
Proof.
  induction items as [|x rest IH]; simpl; [discriminate|].
  destruct x as [| b | z | s | l | d]; simpl; try discriminate.
  destruct (String.eqb (py_str (dict_get d "id")) (str_of_Z inbound_id)) eqn:E.
  - intros H. injection H as <-. exists d. split; [reflexivity|].
    now apply String.eqb_eq.
  - exact IH.
Qed.

Lemma find_inbound_app (pre post : list pyval) (inbound_id : Z) (d : pydict) :
  find_inbound pre inbound_id = Ok None ->
  py_str (dict_get d "id") = str_of_Z inbound_id ->
  find_inbound (pre ++ PDict d :: post) inbound_id = Ok (Some (PDict d)).
Proof.
  intros Hpre Hd. induction pre as [|x pre IH]; simpl in *.
  - now rewrite Hd, String.eqb_refl.
  - destruct (py_get x "id") as [i | e |]; simpl in *; try discriminate.
    destruct (String.eqb (py_str i) (str_of_Z inbound_id)); [discriminate|].
    now apply IH.
Qed.

Lemma get_inbound_variants_is_dict (self : UIAPI)
      (variants : list (http_method * string * pyval)) (h h' : history) (v : pyval) :
  get_inbound_variants self variants h = (Ok v, h') -> is_dict v = true.
Proof.
  revert h. induction variants as [|[[method path] payload] rest IH]; intros h; simpl.
  - unfold ret. intros H. now injection H as <- _.
  - unfold bind, try_except, _request, ret.
    destruct (session self h _) as [text | text [res|]]; try apply IH.
    + destruct res as [| b | z | s | l | d]; try apply IH.
      destruct (is_dict _ && truthy _) eqn:E; [|apply IH].
      intros H. injection H as <- _. now apply andb_prop in E.
    + cbn [dict_get dict_get_default dict_lookup String.eqb Ascii.eqb Bool.eqb
           py_or truthy is_dict andb].
      intros H. now injection H as <- _.
Qed.

(** X6. Whatever the panel answers, a value that [get_inbound] returns
    is a dict: from the list, from a direct [GET], or the empty dict. *)
Theorem get_inbound_returns_dict (self : UIAPI) (inbound_id : Z) (h h' : history)
        (v : pyval) :
  get_inbound self inbound_id h = (Ok v, h') -> exists d, v = PDict d.
Proof.
  intros H.
  assert (Hd : is_dict v = true).
  { revert H. unfold get_inbound, bind, lift.
    destruct (get_inbounds_list self h) as [[inbounds | e |] h1]; try discriminate.
    destruct (py_iter inbounds) as [items | e |]; try discriminate.
    destruct (find_inbound items inbound_id) as [[ib|] | e |] eqn:F; try discriminate.
    - unfold ret. intros H. injection H as <- _.
      destruct (find_inbound_is_dict _ _ _ F) as (d & -> & _). reflexivity.
    - apply get_inbound_variants_is_dict. }
  destruct v as [| b | z | s | l | d]; try discriminate Hd.
  now exists d.
Qed.

Lemma get_inbound_returns_dict_witness : exists d, Scenario.inbound = PDict d.
Proof.
  apply (get_inbound_returns_dict Scenario.UI 2 [] [Scenario.list_request]).
  reflexivity.
Defined.

(** X7. [get_inbound] compares identifiers by their text: the first
    entry of the inbound list whose [id] is the number [inbound_id] or
    its decimal text is returned, after the list request alone. *)
Theorem get_inbound_matches_id_text (self : UIAPI) (inbound_id : Z)
        (h h1 : history) (pre post : list pyval) (d : pydict) :
  get_inbounds_list self h = (Ok (PList (pre ++ PDict d :: post)), h1) ->
  find_inbound pre inbound_id = Ok None ->
  dict_get d "id" = PInt inbound_id
  \/ dict_get d "id" = PStr (str_of_Z inbound_id) ->
  get_inbound self inbound_id h = (Ok (PDict d), h1).
Proof.
  intros Hl Hpre Hid.
  assert (E : py_str (dict_get d "id") = str_of_Z inbound_id).
  { destruct Hid as [-> | ->]; reflexivity. }
  unfold get_inbound, bind, lift. rewrite Hl. cbn [py_iter].
  now rewrite (find_inbound_app pre post inbound_id d Hpre E).
Qed.

Lemma get_inbound_matches_id_text_witness :
  get_inbound Scenario.UI 2 [] = (Ok Scenario.inbound, [Scenario.list_request]).
Proof.
  apply (get_inbound_matches_id_text Scenario.UI 2 [] [Scenario.list_request]
           [] [] Scenario.inbound_fields).
  - reflexivity.
  - reflexivity.
  - left. reflexivity.
Defined.

(** X8. When the inbound list lacks [inbound_id] and both direct [GET]s
    fail, [get_inbound] gives the empty dict after exactly these two
    [GET]s; [get_clients_list] then gives the empty list, and
    [add_traffic] and [update_client] raise "inbound not found" without
    sending anything else. *)
Theorem get_inbound_not_found (self : UIAPI) (inbound_id : Z) (h h1 : history)
        (inbounds : pyval) (items : list pyval) :
  get_inbounds_list self h = (Ok inbounds, h1) ->
  py_iter inbounds = Ok items ->
  find_inbound items inbound_id = Ok None ->
  (forall h' rq, req_method rq = GET -> exists text, session self h' rq = Failed text) ->
  let h2 := (h1 ++ [ get_request self ("panel/inbound/get/" ++ str_of_Z inbound_id)
                                 PNone;
                     get_request self "panel/inbound/get"
                                 (PDict [("id", PInt inbound_id)]) ])%list in
  get_inbound self inbound_id h = (Ok (PDict []), h2)
  /\ get_clients_list self inbound_id h = (Ok (PList []), h2)
  /\ (forall email add_gb,
        add_traffic self inbound_id email add_gb h
        = (Raise (RuntimeError (MsgInboundNotFound inbound_id)), h2))
  /\ (forall email total_gb expiry_time_ms,
        update_client self inbound_id email total_gb expiry_time_ms h
        = (Raise (RuntimeError (MsgInboundNotFound inbound_id)), h2)).
Proof.
  intros Hl Hi Hf Hget h2.
  assert (E : get_inbound self inbound_id h = (Ok (PDict []), h2)).
  { unfold get_inbound, bind, lift. rewrite Hl, Hi, Hf.
    cbn [get_inbound_variants]. unfold bind, try_except, _request.
    destruct (Hget h1 {| req_method := GET;
                         req_url := _build_url self
                                      ("panel/inbound/get/" ++ str_of_Z inbound_id);
                         req_json := PNone |} eq_refl) as (t1 & ->).
    unfold ret.
    destruct (Hget (h1 ++ [EvRequest
                             {| req_method := GET;
                                req_url := _build_url self
                                             ("panel/inbound/get/"
                                                ++ str_of_Z inbound_id);
                                req_json := PNone |}])%list
                   {| req_method := GET;
                      req_url := _build_url self "panel/inbound/get";
                      req_json := PDict [("id", PInt inbound_id)] |} eq_refl)
      as (t2 & ->).
    unfold h2, get_request. now rewrite <- app_assoc. }
  split; [exact E|]. split; [|split]; intros.
  - unfold get_clients_list, bind. now rewrite E.
  - unfold add_traffic, bind. now rewrite E.
  - unfold update_client, bind. now rewrite E.
Qed.

Lemma get_inbound_not_found_witness :
  let h2 := [ Edge.empty_list_request;
              get_request Edge.gone_UI "panel/inbound/get/7" PNone;
              get_request Edge.gone_UI "panel/inbound/get" (PDict [("id", PInt 7)]) ] in
  get_inbound Edge.gone_UI 7 [] = (Ok (PDict []), h2)
  /\ get_clients_list Edge.gone_UI 7 [] = (Ok (PList []), h2)
  /\ (forall email add_gb,
        add_traffic Edge.gone_UI 7 email add_gb []
        = (Raise (RuntimeError (MsgInboundNotFound 7)), h2))
  /\ (forall email total_gb expiry_time_ms,
        update_client Edge.gone_UI 7 email total_gb expiry_time_ms []
        = (Raise (RuntimeError (MsgInboundNotFound 7)), h2)).
Proof.
  apply (get_inbound_not_found Edge.gone_UI 7 [] [Edge.empty_list_request]
           (PList []) []).
  - reflexivity.
  - reflexivity.
  - reflexivity.
  - intros h' rq Hm. exists "404". unfold Edge.gone_UI, Edge.gone. simpl.
    now rewrite Hm.
Defined.

(** X9. When the inbound list lacks [inbound_id] and the first direct
    [GET] answers with a body that is not JSON, [get_inbound] returns
    the wrapper of that body, [{"raw": text, "ok": True}], as if it were
    the inbound: [get_clients_list] then gives the empty list, while
    [add_traffic] and [update_client] raise [KeyError] on its missing
    [settings]. *)
Theorem get_inbound_wraps_plain_body (self : UIAPI) (inbound_id : Z)
        (h h1 : history) (inbounds : pyval) (items : list pyval) (text : string) :
  get_inbounds_list self h = (Ok inbounds, h1) ->
  py_iter inbounds = Ok items ->
  find_inbound items inbound_id = Ok None ->
  session self h1 {| req_method := GET;
                     req_url := _build_url self
                                  ("panel/inbound/get/" ++ str_of_Z inbound_id);
                     req_json := PNone |} = Body text None ->
  let h2 := (h1 ++ [ get_request self ("panel/inbound/get/" ++ str_of_Z inbound_id)
                                 PNone ])%list in
  get_inbound self inbound_id h
  = (Ok (PDict [("raw", PStr text); ("ok", PBool true)]), h2)
  /\ get_clients_list self inbound_id h = (Ok (PList []), h2)
  /\ (forall email add_gb,
        add_traffic self inbound_id email add_gb h = (Raise KeyError, h2))
  /\ (forall email total_gb expiry_time_ms,
        update_client self inbound_id email total_gb expiry_time_ms h
        = (Raise KeyError, h2)).
Proof.
  intros Hl Hi Hf Hget h2.
  assert (E : get_inbound self inbound_id h
              = (Ok (PDict [("raw", PStr text); ("ok", PBool true)]), h2)).
  { unfold get_inbound, bind, lift. rewrite Hl, Hi, Hf.
    cbn [get_inbound_variants]. unfold bind, try_except, _request.
    rewrite Hget. reflexivity. }
  split; [exact E|]. split; [|split]; intros.
  - unfold get_clients_list, bind. now rewrite E.
  - unfold add_traffic, bind. now rewrite E.
  - unfold update_client, bind. now rewrite E.
Qed.

Lemma get_inbound_wraps_plain_body_witness :
  let h2 := [ Edge.empty_list_request;
              get_request Edge.html_UI "panel/inbound/get/7" PNone ] in
  get_inbound Edge.html_UI 7 []
  = (Ok (PDict [("raw", PStr "<html>"); ("ok", PBool true)]), h2)
  /\ get_clients_list Edge.html_UI 7 [] = (Ok (PList []), h2)
  /\ (forall email add_gb,
        add_traffic Edge.html_UI 7 email add_gb [] = (Raise KeyError, h2))
  /\ (forall email total_gb expiry_time_ms,
        update_client Edge.html_UI 7 email total_gb expiry_time_ms []
        = (Raise KeyError, h2)).
Proof.
  apply (get_inbound_wraps_plain_body Edge.html_UI 7 [] [Edge.empty_list_request]
           (PList []) [] "<html>"); reflexivity.
Defined.

(* ================================================================== *)
(** ** Answers the list methods put up with *)

(** X10. [get_inbounds_list] sends one request and does not raise on an
    answer that is a JSON object or not JSON at all: a body that is not
    JSON gives the empty list, an answer with [success] [True] always
    gives a list, and an answer without a truthy [obj] gives the empty
    list. *)
Theorem get_inbounds_list_tolerant (self : UIAPI) (h : history) (text : string)
        (js : option pyval) :
  session self h {| req_method := POST;
                    req_url := _build_url self "panel/inbound/list";
                    req_json := PDict [] |} = Body text js ->
  (forall v, js = Some v -> is_dict v = true) ->
  exists v,
    get_inbounds_list self h
    = (Ok v, (h ++ [post_request self "panel/inbound/list" (PDict [])])%list)
    /\ (js = None -> v = PList [])
    /\ (forall d, js = Some (PDict d) ->
                  dict_get d "success" = PBool true -> is_list v = true)
    /\ (forall d, js = Some (PDict d) ->
                  truthy (dict_get d "obj") = false -> v = PList []).
Proof.
  intros Hs Hd. unfold get_inbounds_list, bind, _post, _request. rewrite Hs.
  destruct js as [res|].
  - specialize (Hd res eq_refl).
    destruct res as [| b | z | s | l | d]; try discriminate Hd.
    cbn [reports_success py_get lift].
    destruct (is_True (dict_get d "success")) eqn:Hok.
    + eexists. split; [reflexivity|]. split; [discriminate|]. split.
      * intros d' E _. now destruct (is_list (py_or (dict_get d "obj") (PList []))) eqn:L.
      * intros d' E Hobj. injection E as <-. unfold py_or. now rewrite Hobj.
    + eexists. split; [reflexivity|]. split; [discriminate|]. split.
      * intros d' E Hok'. injection E as <-. rewrite Hok' in Hok. discriminate Hok.
      * intros d' E Hobj. injection E as <-. unfold py_or. now rewrite Hobj.
  - eexists. split; [reflexivity|]. split; [reflexivity|].
    split; intros d' E; discriminate E.
Qed.

Lemma get_inbounds_list_tolerant_witness :
  exists v,
    get_inbounds_list Edge.html_UI [EvSleep 1]
    = (Ok v, [EvSleep 1; Edge.empty_list_request])
    /\ (Some Edge.empty_list = None -> v = PList [])
    /\ (forall d, Some Edge.empty_list = Some (PDict d) ->
                  dict_get d "success" = PBool true -> is_list v = true)
    /\ (forall d, Some Edge.empty_list = Some (PDict d) ->
                  truthy (dict_get d "obj") = false -> v = PList []).
Proof.
  apply (get_inbounds_list_tolerant Edge.html_UI [EvSleep 1] "").
  - reflexivity.
  - intros v E. injection E as <-. reflexivity.
Defined.

(** X11. [get_clients_list] gives the empty list, without raising, when
    the inbound is empty, has no [settings], or has [settings] text that
    [json.loads] rejects; when the text decodes to something that is not
    an object it raises [AttributeError]. *)
Theorem get_clients_list_edges (self : UIAPI) (inbound_id : Z) (h h1 : history)
        (d : pydict) :
  get_inbound self inbound_id h = (Ok (PDict d), h1) ->
  (d = []
   \/ dict_lookup d "settings" = None
   \/ (exists s e, dict_lookup d "settings" = Some (PStr s)
                   /\ json_loads s = Raise e) ->
   get_clients_list self inbound_id h = (Ok (PList []), h1))
  /\ (forall s v, dict_lookup d "settings" = Some (PStr s) ->
                  json_loads s = Ok v -> is_dict v = false ->
                  get_clients_list self inbound_id h = (Raise AttributeError, h1)).
Proof.
  intros Hg. unfold get_clients_list, bind. rewrite Hg. unfold lift. split.
  - intros [-> | [Hn | (s & e & Hs & He)]]; [reflexivity| |].
    + destruct d as [|kv d']; [reflexivity|].
      unfold clients_of_inbound. cbn [truthy negb py_get rbind].
      unfold dict_get, dict_get_default. now rewrite Hn.
    + destruct d as [|kv d']; [reflexivity|].
      unfold clients_of_inbound. cbn [truthy negb py_get rbind].
      unfold dict_get, dict_get_default at 1. rewrite Hs, He. reflexivity.
  - intros s v Hs Hv Hnd.
    destruct d as [|kv d']; [discriminate Hs|].
    unfold clients_of_inbound. cbn [truthy negb py_get rbind].
    unfold dict_get, dict_get_default at 1. rewrite Hs, Hv. cbn [rbind].
    now destruct v.
Qed.

Lemma get_clients_list_edges_witness :
  get_clients_list Edge.html_UI 7 []
  = (Ok (PList []),
     [Edge.empty_list_request; get_request Edge.html_UI "panel/inbound/get/7" PNone]).
Proof.
  apply (proj1 (get_clients_list_edges Edge.html_UI 7 []
                  [Edge.empty_list_request;
                   get_request Edge.html_UI "panel/inbound/get/7" PNone]
                  [("raw", PStr "<html>"); ("ok", PBool true)] eq_refl)).
  right. left. reflexivity.
Defined.

(* ================================================================== *)
(** ** What the link methods return *)

Lemma poll_link_cases (W : World) (self : UIAPI) (inbound_id : Z)
      (email target : string) (deadline : Z) (fuel : nat) :
  forall h h' r,
    poll_link W self inbound_id email target deadline fuel h = (Ok r, h') ->
    (r = None /\ deadline <= clock W h')
    \/ exists inbound h0 h1,
         get_inbound self inbound_id h0 = (Ok inbound, h1)
         /\ link_step W self email target inbound = Ok (Return r).
Proof.
  induction fuel as [|f IH]; intros h h' r; cbn [poll_link];
    destruct (Z.ltb_spec (clock W h) deadline) as [Hlt|Hge];
    try discriminate;
    try (intros H; injection H as <- <-; left; split; [reflexivity | lia]).
  unfold bind, lift, sleep.
  destruct (get_inbound self inbound_id h) as [[inbound | e |] h1] eqn:G;
    try discriminate.
  destruct (negb (truthy inbound)); [apply IH|].
  destruct (link_step W self email target inbound) as [[|r'] | e |] eqn:L;
    try discriminate; [apply IH|].
  unfold ret. intros H. injection H as <- _. right. now exists inbound, h, h1.
Qed.

Lemma link_step_scheme (W : World) (self : UIAPI) (email target : string)
      (inbound : pyval) (link : string) :
  link_step W self email target inbound = Ok (Return (Some link)) ->
  starts_with "vless://" link = true.
Proof.
  intros H. apply link_step_shape in H.
  destruct H as (uuid_val & port & public_key & fp & sni & short_id & r & flow
                 & remark & _ & _ & ->).
  rewrite vless_link_flat. reflexivity.
Qed.

Lemma get_client_vless_link_scheme (W : World) (self : UIAPI) (inbound_id : Z)
      (email : string) (h h' : history) (l : string) :
  get_client_vless_link W self inbound_id email h = (Ok l, h') ->
  starts_with "vless://" l = true.
Proof.
  unfold get_client_vless_link, bind, try_get_client_vless_link, throw, ret.
  destruct (poll_link _ _ _ _ _ _ _ h) as [[[l'|] | e |] h1] eqn:P; try discriminate.
  destruct (String.eqb l' ""); [discriminate|].
  intros H. injection H as <- _.
  destruct (poll_link_cases _ _ _ _ _ _ _ _ _ _ P) as [[E _] | (inbound & h0 & h2 & _ & L)];
    [discriminate|].
  now apply link_step_scheme in L.
Qed.

Lemma add_client_returns_link (W : World) (self : UIAPI) (inbound_id : Z)
      (email : string) (limit_ip total_gb expiry_time_ms : Z) (flow : option string)
      (wait_seconds : Z) (h h' : history) (l : string) :
  add_client W self inbound_id email limit_ip total_gb expiry_time_ms flow
             wait_seconds h = (Ok l, h') ->
  exists h0, get_client_vless_link W self inbound_id email h0 = (Ok l, h').
Proof.
  unfold add_client, bind, lift, throw.
  destruct (get_inbounds_list self h) as [[inbounds | e |] h1]; try discriminate.
  destruct (py_iter inbounds) as [items | e |]; try discriminate.
  destruct (has_inbound items inbound_id) as [[|] | e |]; try discriminate;
    cbn [negb].
  - destruct (add_client_attempts _ _ _ _ _ _ h1) as [[[[|] last] | e |] h2];
      try discriminate; cbn [negb]. eauto.
  - destruct (inbound_ids items); discriminate.
Qed.

(** X12. Every link the client hands out begins with ["vless://"]:
    the one [try_get_client_vless_link] finds, the one
    [get_client_vless_link] returns and the one [add_client] returns. *)
Theorem links_begin_with_scheme (W : World) (self : UIAPI) (inbound_id : Z)
        (email : string) (h h' : history) (l : string) :
  (exists wait_seconds,
      try_get_client_vless_link W self inbound_id email wait_seconds h
      = (Ok (Some l), h'))
  \/ get_client_vless_link W self inbound_id email h = (Ok l, h')
  \/ (exists limit_ip total_gb expiry_time_ms flow wait_seconds,
        add_client W self inbound_id email limit_ip total_gb expiry_time_ms flow
                   wait_seconds h = (Ok l, h')) ->
  starts_with "vless://" l = true.
Proof.
  intros [(w & H) | [H | (li & tg & ex & fl & w & H)]].
  - unfold try_get_client_vless_link in H.
    destruct (poll_link_cases _ _ _ _ _ _ _ _ _ _ H) as [[E _] | (inbound & h0 & h2 & _ & L)];
      [discriminate|].
    now apply link_step_scheme in L.
  - now apply get_client_vless_link_scheme in H.
  - apply add_client_returns_link in H. destruct H as (h0 & H).
    now apply get_client_vless_link_scheme in H.
Qed.

Lemma links_begin_with_scheme_witness :
  starts_with "vless://" Scenario.alice_link = true.
Proof.
  apply (links_begin_with_scheme Scenario.world Scenario.UI 2 "alice" []
           [Scenario.list_request]).
  right. left. vm_compute. reflexivity.
Defined.

(** X13. The jobs [send_activated_key] and [retry_activate_key] never
    tell the user that the key is not ready and never schedule a retry:
    the link that [get_client_vless_link] returns always passes their
    test, so they send the link, or the error that was raised. *)
Theorem delayed_jobs_send_link_or_error (W : World) (UI : UIAPI) (INBOUND_ID : Z)
        (email : string) (attempt : Z) (h : history) :
  let outcome :=
    match get_client_vless_link W UI INBOUND_ID email h with
    | (Ok l, h') => (Ok (NoticeReady l), h')
    | (Raise e, h') => (Ok (NoticeError e), h')
    | (Unmodelled, h') => (Unmodelled, h')
    end in
  send_activated_key W UI INBOUND_ID email h = outcome
  /\ retry_activate_key W UI INBOUND_ID email attempt h = outcome.
Proof.
  assert (R : forall l h', get_client_vless_link W UI INBOUND_ID email h = (Ok l, h') ->
                           link_ready l = true).
  { intros l h' H. apply get_client_vless_link_scheme in H. unfold link_ready.
    destruct l as [|c l]; [discriminate H|].
    cbn [String.eqb negb andb]. cbn [is_substring]. now rewrite H. }
  unfold send_activated_key, retry_activate_key, try_except, bind.
  destruct (get_client_vless_link W UI INBOUND_ID email h) as [[l | e |] h'] eqn:G;
    cbv zeta; [|now auto | now auto].
  rewrite (R l h' eq_refl). now auto.
Qed.

(** X14. [try_get_client_vless_link] does not give up early: when it
    returns [None], either the clock has reached the deadline, the
    start plus [max(1, wait_seconds)] seconds, or a round on an inbound
    that [get_inbound] gave ended with [return None] (the matching
    client has neither [id] nor [password]). *)
Theorem try_get_none_only_late (W : World) (self : UIAPI) (inbound_id : Z)
        (email : string) (wait_seconds : Z) (h h' : history) :
  try_get_client_vless_link W self inbound_id email wait_seconds h = (Ok None, h') ->
  clock W h + 1000 * Z.max 1 wait_seconds <= clock W h'
  \/ exists inbound h0 h1,
       get_inbound self inbound_id h0 = (Ok inbound, h1)
       /\ link_step W self email (lower (strip email)) inbound = Ok (Return None).
Proof.
  unfold try_get_client_vless_link. intros H.
  destruct (poll_link_cases _ _ _ _ _ _ _ _ _ _ H) as [[_ Hc] | HL]; auto.
Qed.

Lemma try_get_none_only_late_witness :
  clock Scenario.world [] + 1000 * Z.max 1 1
  <= clock Scenario.world [Scenario.list_request; EvSleep 400]
  \/ exists inbound h0 h1,
       get_inbound Scenario.UI 2 h0 = (Ok inbound, h1)
       /\ link_step Scenario.world Scenario.UI "zed" (lower (strip "zed")) inbound
          = Ok (Return None).
Proof.
  apply (try_get_none_only_late Scenario.world Scenario.UI 2 "zed" 1 []
           [Scenario.list_request; EvSleep 400]).
  vm_compute. reflexivity.
Defined.

(* ================================================================== *)
(** ** Creating a client: the ways out of [add_client] *)

Lemma find_inbound_ids (items : list pyval) (inbound_id : Z) :
  find_inbound items inbound_id = Ok None ->
  exists ids, inbound_ids items = Ok ids
              /\ Forall2 (fun ib i => py_get ib "id" = Ok i) items ids.
Proof.
  induction items as [|ib rest IH]; simpl.
  - intros _. exists []. split; [reflexivity | constructor].
  - destruct (py_get ib "id") as [i | e |] eqn:E; simpl; try discriminate.
    destruct (String.eqb (py_str i) (str_of_Z inbound_id)); [discriminate|].
    intros H. destruct (IH H) as (ids & -> & HF).
    exists (i :: ids). split; [reflexivity | now constructor].
Qed.

(** X15. When the inbound list has no entry for [inbound_id],
    [add_client] raises the "inbound missing" error that lists the [id]
    of every inbound the panel has, and sends nothing after the list
    request. *)
Theorem add_client_missing_inbound (W : World) (self : UIAPI) (inbound_id : Z)
        (email : string) (limit_ip total_gb expiry_time_ms : Z)
        (flow : option string) (wait_seconds : Z) (h h1 : history)
        (inbounds : pyval) (items : list pyval) :
  get_inbounds_list self h = (Ok inbounds, h1) ->
  py_iter inbounds = Ok items ->
  has_inbound items inbound_id = Ok false ->
  exists ids,
    Forall2 (fun ib i => py_get ib "id" = Ok i) items ids
    /\ add_client W self inbound_id email limit_ip total_gb expiry_time_ms flow
                  wait_seconds h
       = (Raise (RuntimeError (MsgInboundMissing inbound_id ids)), h1).
Proof.
  intros Hl Hi Hh. unfold has_inbound in Hh.
  destruct (find_inbound items inbound_id) as [[ib|] | e |] eqn:F;
    try discriminate Hh.
  destruct (find_inbound_ids _ _ F) as (ids & Hids & HF).
  exists ids. split; [exact HF|].
  unfold add_client, bind, lift. rewrite Hl, Hi. unfold has_inbound. rewrite F.
  cbn [rbind negb]. now rewrite Hids.
Qed.

Lemma add_client_missing_inbound_witness :
  exists ids,
    Forall2 (fun ib i => py_get ib "id" = Ok i) [Scenario.inbound] ids
    /\ add_client Scenario.world Scenario.UI 9 "dave" 2 30 0 None 15 []
       = (Raise (RuntimeError (MsgInboundMissing 9 ids)), [Scenario.list_request]).
Proof.
  apply (add_client_missing_inbound Scenario.world Scenario.UI 9 "dave" 2 30 0 None
           15 [] [Scenario.list_request] (PList [Scenario.inbound])
           [Scenario.inbound]); reflexivity.
Defined.

Lemma add_client_attempts_refused (self : UIAPI) (inbound_id : Z)
      (payload settings : pyval) (paths : list string) :
  forall last_res h,
    (forall evs p body,
        In p paths ->
        refused (session self (h ++ evs)%list
                         {| req_method := POST; req_url := _build_url self p;
                            req_json := body |}) = true) ->
    exists last_res',
      add_client_attempts self inbound_id payload settings paths last_res h
      = (Ok (false, last_res'),
         (h ++ map (fun p =>
                      post_request self p
                        (if negb (is_substring "{inbound_id}" p)
                            && negb (ends_with ("/" ++ str_of_Z inbound_id) p)
                         then payload else PDict [("settings", settings)]))
                   paths)%list).
Proof.
  induction paths as [|p rest IH]; intros last_res h Href.
  - exists last_res. cbn [add_client_attempts map]. now rewrite app_nil_r.
  - rewrite add_client_attempts_cons.
    set (body := if negb (is_substring "{inbound_id}" p)
                    && negb (ends_with ("/" ++ str_of_Z inbound_id) p)
                 then payload else PDict [("settings", settings)]).
    pose proof (Href [] p body (or_introl eq_refl)) as R. rewrite app_nil_r in R.
    assert (Hrest : forall evs q b,
               In q rest ->
               refused (session self
                          ((h ++ [post_request self p body]) ++ evs)%list
                          {| req_method := POST; req_url := _build_url self q;
                             req_json := b |}) = true).
    { intros evs q b Hq. rewrite <- app_assoc. apply Href. now right. }
    cbn [map]. fold body.
    unfold bind at 1, try_except, bind, _post, _request, ret.
    destruct (session self h _) as [text | text [v|]]; cbn [refused] in R.
    + destruct (IH (PDict [("success", PBool false);
                           ("msg", PStr (exn_text (RequestError text)))])
                   _ Hrest) as (l' & E).
      exists l'. unfold post_request in E. rewrite E, <- app_assoc. reflexivity.
    + apply negb_true_iff in R. rewrite R.
      destruct (IH v _ Hrest) as (l' & E).
      exists l'. unfold post_request in E. rewrite E, <- app_assoc. reflexivity.
    + change (reports_success (PDict [("raw", PStr text); ("ok", PBool true)]))
        with false.
      destruct (IH (PDict [("raw", PStr text); ("ok", PBool true)]) _ Hrest)
        as (l' & E).
      exists l'. unfold post_request in E. rewrite E, <- app_assoc. reflexivity.
Qed.

Lemma ends_with_id_literal (inbound_id : Z) (p : string) :
  p = "xui/inbound/addClient" \/ p = "inbound/addClient" ->
  ends_with ("/" ++ str_of_Z inbound_id) p = false.
Proof.
  destruct (str_of_Z_head inbound_id) as (c & r & -> & Hc).
  intros [-> | ->];
    destruct c as [[] [] [] [] [] [] [] []]; cbn in Hc; try discriminate Hc;
    reflexivity.
Qed.

Lemma ends_with_id_path (inbound_id : Z) :
  ends_with ("/" ++ str_of_Z inbound_id)
            ("panel/inbound/addClient/" ++ str_of_Z inbound_id) = true.
Proof.
  change ("panel/inbound/addClient/" ++ str_of_Z inbound_id)
    with ("panel/inbound/addClient" ++ ("/" ++ str_of_Z inbound_id)).
  apply ends_with_app.
Qed.

(** X16. When the inbound exists and the panel refuses the creation on
    all four paths (an HTTP error, a body that is not JSON, or an answer
    without [success] [True]), [add_client] raises "could not add" after
    exactly four creation requests, in the order of the paths; the
    second carries only [settings], the others [id] and [settings]; it
    never polls for a link. *)
Theorem add_client_all_refused (W : World) (self : UIAPI) (inbound_id : Z)
        (email : string) (limit_ip total_gb expiry_time_ms : Z)
        (flow : option string) (wait_seconds : Z) (h h1 : history)
        (inbounds : pyval) (items : list pyval) :
  get_inbounds_list self h = (Ok inbounds, h1) ->
  py_iter inbounds = Ok items ->
  has_inbound items inbound_id = Ok true ->
  (forall evs p body,
      In p (add_client_paths inbound_id) ->
      refused (session self (h1 ++ evs)%list
                       {| req_method := POST; req_url := _build_url self p;
                          req_json := body |}) = true) ->
  let settings :=
    PStr (json_dumps (PDict [("clients",
            PList [client_obj (uuid4 W h1) email limit_ip total_gb
                              expiry_time_ms flow])])) in
  let payload := PDict [("id", PInt inbound_id); ("settings", settings)] in
  exists last_res,
    add_client W self inbound_id email limit_ip total_gb expiry_time_ms flow
               wait_seconds h
    = (Raise (RuntimeError (MsgAddClientFailed last_res)),
       (h1 ++ [ post_request self "panel/inbound/addClient" payload;
                post_request self ("panel/inbound/addClient/" ++ str_of_Z inbound_id)
                             (PDict [("settings", settings)]);
                post_request self "xui/inbound/addClient" payload;
                post_request self "inbound/addClient" payload ])%list).
Proof.
  intros Hl Hi Hh Href settings payload.
  destruct (add_client_attempts_refused self inbound_id payload settings
              (add_client_paths inbound_id) (PDict []) h1 Href) as (last & E).
  exists last. unfold add_client, bind, lift. rewrite Hl, Hi, Hh. cbn [negb].
  fold settings. fold payload. rewrite E. cbn [negb]. unfold throw.
  unfold add_client_paths. cbn [map].
  rewrite ends_with_id_addClient, ends_with_id_path.
  rewrite !ends_with_id_literal by auto.
  cbn [negb]. rewrite andb_false_r. reflexivity.
Qed.

Lemma add_client_all_refused_witness :
  exists last_res,
    add_client Scenario.world Scenario.UI 2 "alice" 2 30 0
               (Some "xtls-rprx-vision") 15 []
    = (Raise (RuntimeError (MsgAddClientFailed last_res)),
       [ Scenario.list_request;
         Scenario.create_alice;
         post_request Scenario.UI "panel/inbound/addClient/2"
           (PDict [("settings",
                    PStr (json_dumps
                            (PDict [("clients",
                                     PList [client_obj
                                              "aaaaaaaa-bbbb-cccc-dddd-eeeeeeeeeeee"
                                              "alice" 2 30 0
                                              (Some "xtls-rprx-vision")])])))]);
         post_request Scenario.UI "xui/inbound/addClient"
           (PDict [("id", PInt 2);
                   ("settings",
                    PStr (json_dumps
                            (PDict [("clients",
                                     PList [client_obj
                                              "aaaaaaaa-bbbb-cccc-dddd-eeeeeeeeeeee"
                                              "alice" 2 30 0
                                              (Some "xtls-rprx-vision")])])))]);
         post_request Scenario.UI "inbound/addClient"
           (PDict [("id", PInt 2);
                   ("settings",
                    PStr (json_dumps
                            (PDict [("clients",
                                     PList [client_obj
                                              "aaaaaaaa-bbbb-cccc-dddd-eeeeeeeeeeee"
                                              "alice" 2 30 0
                                              (Some "xtls-rprx-vision")])])))]) ]).
Proof.
  apply (add_client_all_refused Scenario.world Scenario.UI 2 "alice" 2 30 0
           (Some "xtls-rprx-vision") 15 [] [Scenario.list_request]
           (PList [Scenario.inbound]) [Scenario.inbound]).
  - reflexivity.
  - reflexivity.
  - reflexivity.
  - intros evs p body [<- | [<- | [<- | [<- | []]]]]; reflexivity.
Defined.

(** X17. When the inbound exists and the panel accepts the creation on
    the first path, [add_client] sends that one creation request and
    then answers exactly as [get_client_vless_link] does from there:
    with the link, or with its "client not found" error. *)
Theorem add_client_first_path_accepted (W : World) (self : UIAPI) (inbound_id : Z)
        (email : string) (limit_ip total_gb expiry_time_ms : Z)
        (flow : option string) (wait_seconds : Z) (h h1 : history)
        (inbounds : pyval) (items : list pyval) (text : string) (res : pyval) :
  get_inbounds_list self h = (Ok inbounds, h1) ->
  py_iter inbounds = Ok items ->
  has_inbound items inbound_id = Ok true ->
  session self h1
    {| req_method := POST;
       req_url := _build_url self "panel/inbound/addClient";
       req_json :=
         PDict [ ("id", PInt inbound_id);
                 ("settings",
                  PStr (json_dumps
                          (PDict [("clients",
                                   PList [client_obj (uuid4 W h1) email limit_ip
                                            total_gb expiry_time_ms flow])]))) ] |}
  = Body text (Some res) ->
  reports_success res = true ->
  add_client W self inbound_id email limit_ip total_gb expiry_time_ms flow
             wait_seconds h
  = get_client_vless_link W self inbound_id email
      (h1 ++ [create_request W self inbound_id email limit_ip total_gb
                             expiry_time_ms flow h1])%list.
Proof.
  intros Hl Hi Hh Hs Hok. unfold add_client, bind at 1. rewrite Hl.
  unfold bind at 1, lift at 1. rewrite Hi.
  unfold bind at 1, lift at 1. rewrite Hh. cbn [negb].
  unfold bind at 1. unfold add_client_paths.
  rewrite add_client_attempts_cons, ends_with_id_addClient.
  change (is_substring "{inbound_id}" "panel/inbound/addClient") with false.
  cbn [negb andb].
  unfold bind at 1. unfold bind at 1. unfold try_except, bind, _post, _request.
  rewrite Hs. unfold ret. rewrite Hok. reflexivity.
Qed.

Lemma add_client_first_path_accepted_witness :
  add_client Scenario.world Edge.accepting_UI 2 "alice" 2 30 0
             (Some "xtls-rprx-vision") 15 []
  = get_client_vless_link Scenario.world Edge.accepting_UI 2 "alice"
      [Scenario.list_request; Scenario.create_alice].
Proof.
  apply (add_client_first_path_accepted Scenario.world Edge.accepting_UI 2 "alice"
           2 30 0 (Some "xtls-rprx-vision") 15 [] [Scenario.list_request]
           (PList [Scenario.inbound]) [Scenario.inbound] "" Scenario.accepted);
    reflexivity.
Defined.

Lemma client_obj_fields (client_uuid email : string)
      (limit_ip total_gb expiry_time_ms : Z) (flow : option string) :
  exists cd,
    client_obj client_uuid email limit_ip total_gb expiry_time_ms flow = PDict cd
    /\ well_formed (PDict cd) = true
    /\ dict_get cd "id" = PStr client_uuid
    /\ dict_get cd "email" = PStr email
    /\ dict_get cd "limitIp" = PInt limit_ip
    /\ dict_get cd "totalGB" = PInt (total_gb * 1024 ^ 3)
    /\ dict_get cd "expiryTime" = PInt expiry_time_ms
    /\ dict_lookup cd "flow"
       = match flow with
         | Some f => if String.eqb f "" then None else Some (PStr f)
         | None => None
         end.
Proof.
  assert (E1 : (if (limit_ip =? 0)%Z then 0 else limit_ip) = limit_ip)
    by (destruct (Z.eqb_spec limit_ip 0); congruence).
  assert (E2 : (if (total_gb =? 0)%Z then 0 else total_gb * 1024 * 1024 * 1024)
               = total_gb * 1024 ^ 3)
    by (destruct (Z.eqb_spec total_gb 0); subst; lia).
  assert (E3 : (if (expiry_time_ms =? 0)%Z then 0 else expiry_time_ms) = expiry_time_ms)
    by (destruct (Z.eqb_spec expiry_time_ms 0); congruence).
  unfold client_obj. rewrite E1, E2, E3.
  destruct flow as [f|]; [destruct (String.eqb f "")|];
    eexists; (split; [reflexivity|]); repeat split; reflexivity.
Qed.

(** X18. The client that [add_client] sends can be read back by the
    other methods: the [settings] text of the creation request decodes
    to exactly that one client, whose ceiling is [total_gb] times 2^30
    bytes; [get_clients_list]'s decoder, the link lookup under the
    trimmed lower-case email and the bot's check for an existing email
    all find it. *)
Theorem created_client_reads_back (client_uuid email : string) (inbound_id : Z)
        (limit_ip total_gb expiry_time_ms : Z) (flow : option string) :
  let c := client_obj client_uuid email limit_ip total_gb expiry_time_ms flow in
  let settings := PStr (json_dumps (PDict [("clients", PList [c])])) in
  let payload := PDict [("id", PInt inbound_id); ("settings", settings)] in
  clients_of_inbound payload = Ok (PList [c])
  /\ lookup_client payload (lower (strip email)) = Ok (Some c)
  /\ email_exists [c] email = Ok true
  /\ py_get c "totalGB" = Ok (PInt (total_gb * 1024 ^ 3))
  /\ py_get c "email" = Ok (PStr email)
  /\ py_get c "id" = Ok (PStr client_uuid).
Proof.
  intros c settings payload.
  destruct (client_obj_fields client_uuid email limit_ip total_gb expiry_time_ms
              flow) as (cd & Ec & Hwf & Hid & Hemail & _ & Htotal & _ & _).
  fold c in Ec.
  assert (Hload : json_loads (json_dumps (PDict [("clients", PList [c])]))
                  = Ok (PDict [("clients", PList [c])])).
  { apply json_loads_dumps. rewrite Ec. cbn [well_formed map fst snd forallb distinct
                                             existsb negb andb].
    cbn [well_formed] in Hwf. now rewrite Hwf. }
  assert (Hfind : find_client [c] (lower (strip email)) = Ok (Some c)).
  { rewrite Ec. cbn [find_client py_get rbind]. rewrite Hemail.
    unfold py_or. cbn [truthy]. destruct (String.eqb email "") eqn:Ee.
    - apply String.eqb_eq in Ee. subst email. reflexivity.
    - cbn [negb py_strip rbind]. now rewrite String.eqb_refl. }
  repeat split.
  - unfold clients_of_inbound, payload, settings.
    cbn [truthy negb py_get rbind dict_get dict_get_default dict_lookup
         String.eqb Ascii.eqb Bool.eqb].
    rewrite Hload. rewrite Ec. reflexivity.
  - unfold lookup_client, payload, settings.
    cbn [py_get rbind dict_get dict_get_default dict_lookup
         String.eqb Ascii.eqb Bool.eqb].
    unfold py_or at 1. cbn [truthy].
    replace (negb (String.eqb (json_dumps (PDict [("clients", PList [c])])) ""))
      with true by (rewrite Ec; reflexivity).
    rewrite (safe_json_load_text _ _ Hload).
    cbn [py_get rbind dict_get dict_get_default dict_lookup
         String.eqb Ascii.eqb Bool.eqb py_or truthy py_iter].
    exact Hfind.
  - rewrite Ec. unfold email_exists. cbn [first_with_email py_get rbind].
    rewrite Hemail. unfold py_eq_str. now rewrite String.eqb_refl.
  - rewrite Ec. cbn [py_get]. now rewrite Htotal.
  - rewrite Ec. cbn [py_get]. now rewrite Hemail.
  - rewrite Ec. cbn [py_get]. now rewrite Hid.
Qed.

(* ================================================================== *)
(** ** Changing a client: which client, and what is pushed *)

Lemma first_with_email_split (items : list pyval) (email : string) (c : pyval) :
  first_with_email items email = Ok (Some c) ->
  exists pre post cd,
    items = (pre ++ PDict cd :: post)%list /\ c = PDict cd
    /\ first_with_email pre email = Ok None
    /\ py_eq_str (dict_get cd "email") email = true.
Proof.
  induction items as [|x rest IH]; [discriminate|].
  cbn [first_with_email].
  destruct x as [| b | z | s | l | d]; try discriminate.
  cbn [py_get rbind]. destruct (py_eq_str (dict_get d "email") email) eqn:E.
  - intros H. injection H as <-. now exists [], rest, d.
  - intros H. destruct (IH H) as (pre & post & cd & -> & -> & Hpre & Hcd).
    exists (PDict d :: pre), post, cd. repeat split; auto.
    cbn [first_with_email py_get rbind]. now rewrite E.
Qed.

Lemma first_with_email_app (pre post : list pyval) (email : string) (cd : pydict) :
  first_with_email pre email = Ok None ->
  py_eq_str (dict_get cd "email") email = true ->
  first_with_email (pre ++ PDict cd :: post) email = Ok (Some (PDict cd)).
Proof.
  intros Hpre Hcd. induction pre as [|x pre IH]; cbn [app first_with_email] in *.
  - cbn [py_get rbind]. now rewrite Hcd.
  - destruct (py_get x "email") as [e | |]; cbn [rbind] in *; try discriminate.
    destruct (py_eq_str e email); [discriminate | auto].
Qed.

Lemma update_client_clients_app (pre post : list pyval) (email : string)
      (cd : pydict) (total_gb : Z) (expiry_time_ms : option Z) :
  first_with_email pre email = Ok None ->
  py_eq_str (dict_get cd "email") email = true ->
  update_client_clients email total_gb expiry_time_ms (pre ++ PDict cd :: post)
  = Ok (Some (pre ++ PDict
                       match expiry_time_ms with
                       | Some t => dict_set (dict_set cd "totalGB"
                                               (PInt (total_gb * 1024 ^ 3)))
                                            "expiryTime" (PInt t)
                       | None => dict_set cd "totalGB" (PInt (total_gb * 1024 ^ 3))
                       end :: post)%list).
Proof.
  intros Hpre Hcd.
  induction pre as [|x pre IH]; cbn [app first_with_email update_client_clients] in *.
  - cbn [py_get rbind]. rewrite Hcd. now destruct expiry_time_ms.
  - destruct (py_get x "email") as [e | |]; cbn [rbind] in *; try discriminate.
    destruct (py_eq_str e email); [discriminate|]. now rewrite IH.
Qed.

Lemma add_traffic_clients_app (pre post : list pyval) (email : string)
      (cd : pydict) (add_gb N : Z) :
  first_with_email pre email = Ok None ->
  py_eq_str (dict_get cd "email") email = true ->
  dict_get cd "totalGB" = PInt N -> N <> 0 ->
  add_traffic_clients email add_gb (pre ++ PDict cd :: post)
  = Ok (Some (pre ++ PDict (dict_set cd "totalGB" (PInt (N + add_gb * 2 ^ 30)))
                  :: post)%list).
Proof.
  intros Hpre Hcd HN Hne.
  induction pre as [|x pre IH]; cbn [app first_with_email add_traffic_clients] in *.
  - cbn [py_get rbind]. rewrite Hcd, HN. unfold py_or. cbn [truthy].
    apply Z.eqb_neq in Hne. rewrite Hne. cbn [negb py_int rbind].
    rewrite Hne. reflexivity.
  - destruct (py_get x "email") as [e | |]; cbn [rbind] in *; try discriminate.
    destruct (py_eq_str e email); [discriminate|]. now rewrite IH.
Qed.

Lemma edits_find_nobody (items : list pyval) (email : string) :
  first_with_email items email = Ok None ->
  (forall add_gb, add_traffic_clients email add_gb items = Ok None)
  /\ (forall total_gb expiry_time_ms,
         update_client_clients email total_gb expiry_time_ms items = Ok None).
Proof.
  intros H.
  induction items as [|x rest IH];
    cbn [first_with_email add_traffic_clients update_client_clients] in *;
    [now split|].
  destruct (py_get x "email") as [e | |]; cbn [rbind] in *; try discriminate.
  destruct (py_eq_str e email); [discriminate|].
  destruct (IH H) as [IH1 IH2]. split; intros; [rewrite IH1 | rewrite IH2];
    reflexivity.
Qed.

Lemma well_formed_replace (pre post : list pyval) (c c' : pyval) :
  well_formed (PList (pre ++ c :: post)) = true -> well_formed c' = true ->
  well_formed (PList (pre ++ c' :: post)) = true.
Proof.
  cbn [well_formed]. rewrite !forallb_app. cbn [forallb]. intros H Hc'.
  apply andb_true_iff in H as [Hpre H]. apply andb_true_iff in H as [_ Hpost].
  now rewrite Hpre, Hc', Hpost.
Qed.

Lemma well_formed_middle (pre post : list pyval) (c : pyval) :
  well_formed (PList (pre ++ c :: post)) = true -> well_formed c = true.
Proof.
  cbn [well_formed]. rewrite !forallb_app. cbn [forallb]. intros H.
  apply andb_true_iff in H as [_ H]. now apply andb_true_iff in H as [H _].
Qed.

Lemma clients_well_formed (d sd : pydict) (items : list pyval) :
  well_formed (PDict d) = true ->
  load_settings (PDict d) = Ok (PDict sd) ->
  dict_get_default sd "clients" (PList []) = PList items ->
  well_formed (PDict sd) = true /\ well_formed (PList items) = true.
Proof.
  intros Hwf Hs Hc. pose proof (load_settings_well_formed _ _ Hwf Hs) as Hsd.
  split; [exact Hsd|]. rewrite <- Hc. unfold dict_get_default.
  destruct (dict_lookup sd "clients") as [v|] eqn:E; [|reflexivity].
  exact (dict_lookup_well_formed _ _ _ Hsd E).
Qed.

(** X19. [update_client] changes the first client named [email] and
    nobody else: it sends one update whose payload, read back as
    [get_clients_list] reads it, has the same clients in the same order
    with that client's ceiling at [total_gb] times 2^30 bytes and, only
    when an expiry is given, its [expiryTime] replaced; it returns
    [True] when the panel answers [success] [True] and raises "update
    failed" on any other JSON answer. *)
Theorem update_client_pushes_new_values (self : UIAPI) (inbound_id : Z)
        (email : string) (total_gb : Z) (expiry_time_ms : option Z)
        (d sd cd : pydict) (pre post : list pyval) (h h1 : history) :
  well_formed (PDict d) = true ->
  get_inbound self inbound_id h = (Ok (PDict d), h1) ->
  truthy (PDict d) = true ->
  load_settings (PDict d) = Ok (PDict sd) ->
  dict_get_default sd "clients" (PList []) = PList (pre ++ PDict cd :: post) ->
  first_with_email pre email = Ok None ->
  py_eq_str (dict_get cd "email") email = true ->
  exists payload cd',
    snd (update_client self inbound_id email total_gb expiry_time_ms h)
    = (h1 ++ [update_request self inbound_id payload])%list
    /\ clients_of_inbound payload = Ok (PList (pre ++ PDict cd' :: post))
    /\ dict_lookup cd' "totalGB" = Some (PInt (total_gb * 2 ^ 30))
    /\ dict_lookup cd' "expiryTime"
       = match expiry_time_ms with
         | Some t => Some (PInt t)
         | None => dict_lookup cd "expiryTime"
         end
    /\ (forall k, k <> "totalGB" -> k <> "expiryTime" ->
                  dict_lookup cd' k = dict_lookup cd k)
    /\ (forall text res,
           session self h1 {| req_method := POST;
                              req_url := _build_url self
                                           ("panel/inbound/update/"
                                              ++ str_of_Z inbound_id);
                              req_json := payload |} = Body text (Some res) ->
           fst (update_client self inbound_id email total_gb expiry_time_ms h)
           = if reports_success res then Ok true
             else Raise (RuntimeError (MsgUpdateFailed res))).
Proof.
  intros Hwf Hget Hinbound Hsettings Hclients Hpre Hcd.
  set (cd' := match expiry_time_ms with
              | Some t => dict_set (dict_set cd "totalGB" (PInt (total_gb * 1024 ^ 3)))
                                   "expiryTime" (PInt t)
              | None => dict_set cd "totalGB" (PInt (total_gb * 1024 ^ 3))
              end).
  destruct (clients_well_formed _ _ _ Hwf Hsettings Hclients) as [Hsd Hitems].
  assert (Hcd' : well_formed (PDict cd') = true).
  { pose proof (well_formed_middle _ _ _ Hitems) as Hc. unfold cd'.
    destruct expiry_time_ms; repeat apply dict_set_well_formed; auto. }
  pose proof (well_formed_replace _ _ _ _ Hitems Hcd') as Hnew.
  destruct (encode_payload_round_trip inbound_id d sd _ Hsd Hnew)
    as (payload & He & Hd & _).
  assert (Hp : update_payload inbound_id (PDict d)
                 (update_client_clients email total_gb expiry_time_ms)
                 (RuntimeError (MsgClientNotFound email)) = Ok (PDict payload)).
  { rewrite (update_payload_encodes _ _ _ _ (pre ++ PDict cd' :: post)%list _ _
               Hsettings Hclients); [exact He|].
    now apply update_client_clients_app. }
  exists (PDict payload), cd'.
  assert (Hrun : forall r,
             session self h1 {| req_method := POST;
                                req_url := _build_url self
                                             ("panel/inbound/update/"
                                                ++ str_of_Z inbound_id);
                                req_json := PDict payload |} = r ->
             update_client self inbound_id email total_gb expiry_time_ms h
             = (match r with
                | Failed text => Raise (RequestError text)
                | Body _ (Some res) =>
                    if reports_success res then Ok true
                    else Raise (RuntimeError (MsgUpdateFailed res))
                | Body text None =>
                    Raise (RuntimeError
                             (MsgUpdateFailed
                                (PDict [("raw", PStr text); ("ok", PBool true)])))
                end,
                (h1 ++ [update_request self inbound_id (PDict payload)])%list)).
  { intros r Hr. unfold update_client, bind at 1. rewrite Hget, Hinbound.
    cbn [negb]. unfold bind at 1, lift. rewrite Hp.
    unfold bind, _post, _request. rewrite Hr.
    destruct r as [text | text [res|]]; try reflexivity.
    now destruct (reports_success res). }
  split; [now rewrite (Hrun _ eq_refl)|].
  split; [exact Hd|].
  split.
  { unfold cd'. change (2 ^ 30) with (1024 ^ 3). destruct expiry_time_ms.
    - rewrite dict_get_set_other by discriminate. apply dict_get_set_same.
    - apply dict_get_set_same. }
  split.
  { unfold cd'. destruct expiry_time_ms.
    - apply dict_get_set_same.
    - now rewrite dict_get_set_other by discriminate. }
  split.
  { intros k Hk1 Hk2. unfold cd'. destruct expiry_time_ms.
    - now rewrite !dict_get_set_other by assumption.
    - now rewrite dict_get_set_other by assumption. }
  intros text res Hs. now rewrite (Hrun _ Hs).
Qed.

(** X20. When no client of the inbound has the email, [add_traffic]
    and [update_client] raise "client not found" straight after reading
    the inbound: no update is sent. *)
Theorem unknown_client_is_not_updated (self : UIAPI) (inbound_id : Z)
        (email : string) (d sd : pydict) (items : list pyval) (h h1 : history) :
  get_inbound self inbound_id h = (Ok (PDict d), h1) ->
  truthy (PDict d) = true ->
  load_settings (PDict d) = Ok (PDict sd) ->
  dict_get_default sd "clients" (PList []) = PList items ->
  first_with_email items email = Ok None ->
  (forall add_gb,
      add_traffic self inbound_id email add_gb h
      = (Raise (RuntimeError (MsgClientNotFound email)), h1))
  /\ (forall total_gb expiry_time_ms,
         update_client self inbound_id email total_gb expiry_time_ms h
         = (Raise (RuntimeError (MsgClientNotFound email)), h1))
  /\ exists evs, h1 = (h ++ evs)%list /\ forallb (is_read self) evs = true.
Proof.
  intros Hget Hinbound Hsettings Hclients Hnone.
  destruct (edits_find_nobody _ _ Hnone) as [H1 H2].
  split; [|split].
  - intros add_gb. unfold add_traffic, bind at 1. rewrite Hget, Hinbound.
    cbn [negb]. unfold bind, lift, update_payload. rewrite Hsettings.
    cbn [rbind py_get_default]. rewrite Hclients. cbn [py_iter rbind].
    now rewrite H1.
  - intros total_gb expiry_time_ms. unfold update_client, bind at 1.
    rewrite Hget, Hinbound. cbn [negb]. unfold bind, lift, update_payload.
    rewrite Hsettings. cbn [rbind py_get_default]. rewrite Hclients.
    cbn [py_iter rbind]. now rewrite H2.
  - destruct (get_inbound_reads self inbound_id h) as (evs & E & Hevs).
    rewrite Hget in E. now exists evs.
Qed.

Lemma update_client_pushes_new_values_witness :
  exists payload,
    snd (update_client Scenario.UI 2 "bob" 50 (Some 1700000000000) [])
    = [Scenario.list_request; update_request Scenario.UI 2 payload]
    /\ exists cd',
         clients_of_inbound payload
         = Ok (PList [Scenario.alice; PDict cd'; Scenario.carol])
         /\ dict_lookup cd' "totalGB" = Some (PInt (50 * 2 ^ 30))
         /\ dict_lookup cd' "expiryTime" = Some (PInt 1700000000000).
Proof.
  destruct (update_client_pushes_new_values Scenario.UI 2 "bob" 50
              (Some 1700000000000) Scenario.inbound_fields Scenario.settings_fields
              Scenario.bob_fields [Scenario.alice] [Scenario.carol] []
              [Scenario.list_request])
    as (payload & cd' & H1 & H2 & H3 & H4 & _);
    try reflexivity.
  exists payload. split; [exact H1|]. exists cd'. auto.
Defined.

Lemma unknown_client_is_not_updated_witness :
  (forall add_gb,
      add_traffic Scenario.UI 2 "zed" add_gb []
      = (Raise (RuntimeError (MsgClientNotFound "zed")), [Scenario.list_request]))
  /\ (forall total_gb expiry_time_ms,
         update_client Scenario.UI 2 "zed" total_gb expiry_time_ms []
         = (Raise (RuntimeError (MsgClientNotFound "zed")), [Scenario.list_request]))
  /\ exists evs, [Scenario.list_request] = ([] ++ evs)%list
                 /\ forallb (is_read Scenario.UI) evs = true.
Proof.
  apply (unknown_client_is_not_updated Scenario.UI 2 "zed" Scenario.inbound_fields
           Scenario.settings_fields Scenario.clients [] [Scenario.list_request]);
    reflexivity.
Defined.

(* ================================================================== *)
(** ** Two top-ups in a row *)

Lemma dict_set_set (d : pydict) (k : string) (v1 v2 : pyval) :
  dict_set (dict_set d k v1) k v2 = dict_set d k v2.
Proof.
  induction d as [|[a x] d IH]; simpl.
  - now rewrite String.eqb_refl.
  - destruct (String.eqb a k) eqn:E; simpl; rewrite E; [reflexivity|].
    now rewrite IH.
Qed.

(** X21. Top-ups add up.  For a client with a ceiling [N] other than
    [0], the payload that [add_traffic] builds for [g1] GB, fed back as
    the inbound to a second top-up of [g2] GB, gives the very payload
    of a single top-up of [g1 + g2] GB, as long as the ceiling in
    between is not [0]. *)
Theorem add_traffic_twice (inbound_id : Z) (email : string) (g1 g2 N : Z)
        (d sd cd : pydict) (pre post : list pyval) (missing : exn) :
  well_formed (PDict d) = true ->
  load_settings (PDict d) = Ok (PDict sd) ->
  dict_get_default sd "clients" (PList []) = PList (pre ++ PDict cd :: post) ->
  first_with_email pre email = Ok None ->
  py_eq_str (dict_get cd "email") email = true ->
  dict_get cd "totalGB" = PInt N ->
  N <> 0 -> N + g1 * 2 ^ 30 <> 0 ->
  exists first,
    update_payload inbound_id (PDict d) (add_traffic_clients email g1) missing
    = Ok (PDict first)
    /\ update_payload inbound_id (PDict first) (add_traffic_clients email g2) missing
       = update_payload inbound_id (PDict d) (add_traffic_clients email (g1 + g2))
                        missing.
Proof.
  intros Hwf Hsettings Hclients Hpre Hcd HN Hne Hne1.
  destruct (clients_well_formed _ _ _ Hwf Hsettings Hclients) as [Hsd Hitems].
  set (cd1 := dict_set cd "totalGB" (PInt (N + g1 * 2 ^ 30))).
  set (items1 := (pre ++ PDict cd1 :: post)%list).
  set (sd1 := dict_set sd "clients" (PList items1)).
  assert (Hcd1 : well_formed (PDict cd1) = true).
  { apply dict_set_well_formed; [|reflexivity].
    exact (well_formed_middle _ _ _ Hitems). }
  assert (Hitems1 : well_formed (PList items1) = true)
    by exact (well_formed_replace _ _ _ _ Hitems Hcd1).
  assert (Hsd1 : well_formed (PDict sd1) = true)
    by (now apply dict_set_well_formed).
  rewrite (update_payload_encodes _ _ _ _ items1 _ _ Hsettings Hclients)
    by (now apply add_traffic_clients_app).
  rewrite (update_payload_encodes _ _ _ _
             (pre ++ PDict (dict_set cd "totalGB" (PInt (N + (g1 + g2) * 2 ^ 30)))
                  :: post)%list _ _ Hsettings Hclients)
    by (now apply add_traffic_clients_app).
  eexists. split; [reflexivity|].
  rewrite (update_payload_encodes _ _ sd1 items1
             (pre ++ PDict (dict_set cd1 "totalGB"
                              (PInt (N + g1 * 2 ^ 30 + g2 * 2 ^ 30))) :: post)%list).
  - unfold encode_payload. cbn [py_setitem rbind]. unfold sd1, cd1.
    rewrite !dict_set_set.
    replace (N + (g1 + g2) * 2 ^ 30) with (N + g1 * 2 ^ 30 + g2 * 2 ^ 30) by ring.
    reflexivity.
  - unfold load_settings. cbn [py_setitem rbind].
    change (py_getitem _ "settings") with (Ok (PStr (json_dumps (PDict sd1)))).
    cbn [rbind]. now apply json_loads_dumps.
  - unfold dict_get_default, sd1. now rewrite dict_get_set_same.
  - apply add_traffic_clients_app; auto.
    + unfold dict_get, dict_get_default, cd1 in *.
      now rewrite dict_get_set_other by discriminate.
    + unfold dict_get, dict_get_default, cd1.
      now rewrite dict_get_set_same.
Qed.

Lemma add_traffic_twice_witness :
  exists first,
    update_payload 2 Scenario.inbound (add_traffic_clients "alice" 10) KeyError
    = Ok (PDict first)
    /\ update_payload 2 (PDict first) (add_traffic_clients "alice" 5) KeyError
       = update_payload 2 Scenario.inbound (add_traffic_clients "alice" (10 + 5))
                        KeyError.
Proof.
  apply (add_traffic_twice 2 "alice" 10 5 32212254720 Scenario.inbound_fields
           Scenario.settings_fields Scenario.alice_fields [] [Scenario.bob;
                                                                Scenario.carol]);
    try reflexivity; discriminate.
Defined.

(* ================================================================== *)
(** ** The bot: renewals, the admin's creation step, local bindings *)

(** X22. Renewal of a limited client on a limited tariff.  For a
    client whose [totalGB] is [z > 0] and a tariff of [L] GB other than
    [0], the renewal asks [update_client] for [z // 2^30 + L] GB when
    [z] is above [10**6] and for [z + L] GB otherwise (a small ceiling
    is read as GB).  In bytes, the new ceiling above [10**6] is the old
    one plus [L] GB rounded down to whole GB: it loses less than one GB,
    and nothing when [z] is a whole number of GB.  An unlimited tariff
    always asks for [0]. *)
Theorem renewal_limit_in_bytes (cd : pydict) (L z : Z) :
  L <> 0 -> dict_get cd "totalGB" = PInt z -> 0 < z ->
  renewal_limit cd L = Ok (if (10 ^ 6 <? z)%Z then z / 2 ^ 30 + L else z + L)
  /\ (10 ^ 6 < z ->
      z + L * 2 ^ 30 - 2 ^ 30 < (z / 2 ^ 30 + L) * 2 ^ 30 <= z + L * 2 ^ 30)
  /\ (z mod 2 ^ 30 = 0 -> (z / 2 ^ 30 + L) * 2 ^ 30 = z + L * 2 ^ 30)
  /\ renewal_limit cd 0 = Ok 0.
Proof.
  intros HL Hz Hpos. split; [|split; [|split]].
  - unfold renewal_limit. rewrite Hz.
    assert (E : forall b, py_or (PInt z) b = PInt z).
    { intros b. unfold py_or. cbn [truthy].
      now replace (z =? 0)%Z with false by (symmetry; apply Z.eqb_neq; lia). }
    rewrite E. apply Z.eqb_neq in HL. rewrite HL.
    change (1024 ^ 3) with (2 ^ 30). now destruct (10 ^ 6 <? z)%Z.
  - intros _. pose proof (Z.mod_pos_bound z (2 ^ 30) eq_refl) as Hm.
    pose proof (Z.div_mod z (2 ^ 30)) as Hd.
    assert (E : z = 2 ^ 30 * (z / 2 ^ 30) + z mod 2 ^ 30) by (apply Hd; discriminate).
    lia.
  - intros Hm. pose proof (Z.div_mod z (2 ^ 30)) as Hd.
    assert (E : z = 2 ^ 30 * (z / 2 ^ 30) + z mod 2 ^ 30) by (apply Hd; discriminate).
    lia.
  - reflexivity.
Qed.

Lemma renewal_limit_in_bytes_witness :
  renewal_limit Scenario.alice_fields 30 = Ok 60
  /\ (10 ^ 6 < 32212254720 ->
      32212254720 + 30 * 2 ^ 30 - 2 ^ 30
      < (32212254720 / 2 ^ 30 + 30) * 2 ^ 30 <= 32212254720 + 30 * 2 ^ 30)
  /\ (32212254720 mod 2 ^ 30 = 0 ->
      (32212254720 / 2 ^ 30 + 30) * 2 ^ 30 = 32212254720 + 30 * 2 ^ 30)
  /\ renewal_limit Scenario.alice_fields 0 = Ok 0.
Proof.
  apply (renewal_limit_in_bytes Scenario.alice_fields 30 32212254720).
  - discriminate.
  - reflexivity.
  - reflexivity.
Defined.

Lemma admin_creates_through_add_client (W : World) (UI : UIAPI) (INBOUND_ID : Z)
      (email : string) (traffic_limit expiry_time : Z) (flow : string)
      (h h1 : history) (clients : pyval) (items : list pyval) :
  get_clients_list UI INBOUND_ID h = (Ok clients, h1) ->
  py_iter clients = Ok items ->
  email_exists items email = Ok false ->
  admin_plan_pick_callback W UI INBOUND_ID email traffic_limit expiry_time flow h
  = match add_client W UI INBOUND_ID email 2 traffic_limit expiry_time
                     (Some flow) 15 h1 with
    | (Ok link, h2) => (Ok (ReplyCreated link), h2)
    | (Raise e, h2) => (Ok (ReplyCreateError e), h2)
    | (Unmodelled, h2) => (Unmodelled, h2)
    end.
Proof.
  intros Hl Hi He.
  unfold admin_plan_pick_callback, try_except at 1, bind at 1. rewrite Hl.
  unfold bind at 1, lift at 1. rewrite Hi.
  unfold bind at 1, lift at 1. rewrite He.
  unfold try_except, bind, ret.
  now destruct (add_client _ _ _ _ _ _ _ _ _ h1) as [[l | e |] h2].
Qed.

(** X23. A creation that fails is reported to the admin, end to end.
    When the login is not among the inbound's clients and the inbound
    list that [add_client] then reads lacks the inbound, the admin's
    step answers with the "inbound missing" error that lists the ids of
    the panel's inbounds, and nothing is sent after that list request;
    when the inbound is there and the panel refuses the creation on all
    four paths, it answers with the "could not add" error after exactly
    the four creation requests, with [limit_ip] 2 and the tariff's
    limit, expiry and flow in their client, and never polls for a
    link. *)
Theorem admin_reports_failed_creation (W : World) (UI : UIAPI) (INBOUND_ID : Z)
        (email : string) (traffic_limit expiry_time : Z) (flow : string)
        (h h1 h2 : history) (clients inbounds : pyval) (items ibs : list pyval) :
  get_clients_list UI INBOUND_ID h = (Ok clients, h1) ->
  py_iter clients = Ok items ->
  email_exists items email = Ok false ->
  get_inbounds_list UI h1 = (Ok inbounds, h2) ->
  py_iter inbounds = Ok ibs ->
  (has_inbound ibs INBOUND_ID = Ok false ->
   exists ids,
     Forall2 (fun ib i => py_get ib "id" = Ok i) ibs ids
     /\ admin_plan_pick_callback W UI INBOUND_ID email traffic_limit expiry_time
                                 flow h
        = (Ok (ReplyCreateError (RuntimeError (MsgInboundMissing INBOUND_ID ids))),
           h2))
  /\ (has_inbound ibs INBOUND_ID = Ok true ->
      (forall evs p body,
          In p (add_client_paths INBOUND_ID) ->
          refused (session UI (h2 ++ evs)%list
                           {| req_method := POST; req_url := _build_url UI p;
                              req_json := body |}) = true) ->
      let settings :=
        PStr (json_dumps (PDict [("clients",
                PList [client_obj (uuid4 W h2) email 2 traffic_limit expiry_time
                                  (Some flow)])])) in
      let payload := PDict [("id", PInt INBOUND_ID); ("settings", settings)] in
      exists last_res,
        admin_plan_pick_callback W UI INBOUND_ID email traffic_limit expiry_time
                                 flow h
        = (Ok (ReplyCreateError (RuntimeError (MsgAddClientFailed last_res))),
           (h2 ++ [ post_request UI "panel/inbound/addClient" payload;
                    post_request UI
                      ("panel/inbound/addClient/" ++ str_of_Z INBOUND_ID)
                      (PDict [("settings", settings)]);
                    post_request UI "xui/inbound/addClient" payload;
                    post_request UI "inbound/addClient" payload ])%list)).
Proof.
  intros Hl Hi He Hlist Hiter.
  rewrite (admin_creates_through_add_client W UI INBOUND_ID email traffic_limit
             expiry_time flow h h1 clients items Hl Hi He).
  split.
  - intros Hh. unfold has_inbound in Hh.
    destruct (find_inbound ibs INBOUND_ID) as [[ib|] | e |] eqn:F;
      try discriminate Hh.
    destruct (find_inbound_ids _ _ F) as (ids & Hids & HF).
    exists ids. split; [exact HF|].
    unfold add_client, bind, lift. rewrite Hlist, Hiter. unfold has_inbound.
    rewrite F. cbn [rbind negb]. now rewrite Hids.
  - intros Hh Href settings payload.
    destruct (add_client_attempts_refused UI INBOUND_ID payload settings
                (add_client_paths INBOUND_ID) (PDict []) h2 Href) as (last & E).
    exists last. unfold add_client, bind, lift. rewrite Hlist, Hiter, Hh.
    cbn [negb]. fold settings. fold payload. rewrite E. cbn [negb]. unfold throw.
    unfold add_client_paths. cbn [map].
    rewrite ends_with_id_addClient, ends_with_id_path.
    rewrite !ends_with_id_literal by auto.
    cbn [negb]. rewrite andb_false_r. reflexivity.
Qed.

Lemma admin_reports_failed_creation_witness :
  let settings :=
    PStr (json_dumps (PDict [("clients",
            PList [client_obj "aaaaaaaa-bbbb-cccc-dddd-eeeeeeeeeeee" "dave" 2 30 0
                              (Some "xtls-rprx-vision")])])) in
  let payload := PDict [("id", PInt 2); ("settings", settings)] in
  exists last_res,
    admin_plan_pick_callback Scenario.world Scenario.UI 2 "dave" 30 0
                             "xtls-rprx-vision" []
    = (Ok (ReplyCreateError (RuntimeError (MsgAddClientFailed last_res))),
       [ Scenario.list_request; Scenario.list_request;
         post_request Scenario.UI "panel/inbound/addClient" payload;
         post_request Scenario.UI "panel/inbound/addClient/2"
                      (PDict [("settings", settings)]);
         post_request Scenario.UI "xui/inbound/addClient" payload;
         post_request Scenario.UI "inbound/addClient" payload ]).
Proof.
  apply (proj2 (admin_reports_failed_creation Scenario.world Scenario.UI 2 "dave"
                  30 0 "xtls-rprx-vision" [] [Scenario.list_request]
                  [Scenario.list_request; Scenario.list_request]
                  (PList Scenario.clients) (PList [Scenario.inbound])
                  Scenario.clients [Scenario.inbound]
                  ltac:(vm_compute; reflexivity) eq_refl
                  ltac:(vm_compute; reflexivity) eq_refl eq_refl)).
  - reflexivity.
  - intros evs p body [<- | [<- | [<- | [<- | []]]]]; reflexivity.
Defined.

Lemma filter_all {A} (P : A -> bool) (l : list A) :
  (forall x, In x l -> P x = true) -> filter P l = l.
Proof.
  induction l as [|x l IH]; intros H; simpl; [reflexivity|].
  rewrite (H x (or_introl eq_refl)), IH; [reflexivity|].
  intros y Hy. apply H. now right.
Qed.

Lemma filter_filter {A} (P Q : A -> bool) (l : list A) :
  filter Q (filter P l) = filter (fun x => P x && Q x) l.
Proof.
  induction l as [|x l IH]; simpl; [reflexivity|].
  destruct (P x); simpl; [destruct (Q x)|]; now rewrite IH.
Qed.

Lemma absent_key (d : pydict) (k : string) :
  existsb (String.eqb k) (map fst d) = false ->
  forall kv, In kv d -> String.eqb (fst kv) k = false.
Proof.
  induction d as [|[a x] d IH]; simpl; intros H kv Hin; [contradiction|].
  apply orb_false_iff in H as [Ha Hd]. destruct Hin as [<- | Hin].
  - simpl. now rewrite String.eqb_sym.
  - now apply IH.
Qed.

Lemma dict_pop_filter (d : pydict) (k : string) :
  distinct (map fst d) = true ->
  dict_pop d k = filter (fun kv => negb (String.eqb (fst kv) k)) d.
Proof.
  induction d as [|[a x] d IH]; simpl; intros H; [reflexivity|].
  apply andb_true_iff in H as [Ha Hd]. apply negb_true_iff in Ha.
  destruct (String.eqb a k) eqn:E; simpl.
  - apply String.eqb_eq in E. subst a. symmetry. apply filter_all.
    intros kv Hin. now rewrite (absent_key d k Ha kv Hin).
  - now rewrite IH.
Qed.

Lemma distinct_filter (P : string * pyval -> bool) (d : pydict) :
  distinct (map fst d) = true -> distinct (map fst (filter P d)) = true.
Proof.
  induction d as [|[a x] d IH]; simpl; intros H; [reflexivity|].
  apply andb_true_iff in H as [Ha Hd]. apply negb_true_iff in Ha.
  destruct (P (a, x)); simpl; [|auto].
  rewrite (IH Hd), andb_true_r. apply negb_true_iff.
  destruct (existsb (String.eqb a) (map fst (filter P d))) eqn:E; [|reflexivity].
  apply existsb_exists in E as (k & Hk & Hak).
  apply in_map_iff in Hk as (kv & <- & Hkv). apply filter_In in Hkv as [Hkv _].
  apply String.eqb_eq in Hak. subst a.
  pose proof (absent_key d (fst kv) Ha kv Hkv) as F.
  now rewrite String.eqb_refl in F.
Qed.

Lemma bound_to_login (login : string) (d : pydict) (k : string) :
  distinct (map fst d) = true ->
  existsb (fun e => String.eqb (fst e) k && py_eq_str (snd e) login) d
  = py_eq_str (dict_get d k) login.
Proof.
  unfold dict_get, dict_get_default.
  induction d as [|[a x] d IH]; simpl; intros H; [reflexivity|].
  apply andb_true_iff in H as [Ha Hd]. apply negb_true_iff in Ha.
  destruct (String.eqb a k) eqn:E; simpl; [|auto].
  apply String.eqb_eq in E. subst a.
  replace (existsb _ d) with false; [apply orb_false_r|].
  symmetry. apply not_true_is_false. intros Hex.
  apply existsb_exists in Hex as (kv & Hin & Hkv).
  apply andb_true_iff in Hkv as [Hk _].
  now rewrite (absent_key d k Ha kv Hin) in Hk.
Qed.

Lemma del_key_fold (login : string) (todo : pydict) :
  forall u p : pydict,
    distinct (map fst u) = true -> distinct (map fst p) = true ->
    fold_left
      (fun (st : pydict * pydict) (entry : string * pyval) =>
         let '(uid, em) := entry in
         if py_eq_str em login
         then (dict_pop (fst st) uid, dict_pop (snd st) uid)
         else st)
      todo (u, p)
    = (filter (fun kv => negb (existsb (fun e => String.eqb (fst e) (fst kv)
                                                 && py_eq_str (snd e) login) todo))
              u,
       filter (fun kv => negb (existsb (fun e => String.eqb (fst e) (fst kv)
                                                 && py_eq_str (snd e) login) todo))
              p).
Proof.
  induction todo as [|[uid em] todo IH]; intros u p Hu Hp; cbn [fold_left existsb].
  - now rewrite !filter_all by reflexivity.
  - cbn [fst snd]. destruct (py_eq_str em login).
    + rewrite IH by (rewrite dict_pop_filter by assumption; now apply distinct_filter).
      rewrite !dict_pop_filter by assumption. rewrite !filter_filter.
      f_equal; apply filter_ext; intros [k v]; cbn [fst snd];
        rewrite (String.eqb_sym uid k), andb_true_r, negb_orb; reflexivity.
    + rewrite IH by assumption.
      f_equal; apply filter_ext; intros [k v]; cbn [fst snd];
        now rewrite andb_false_r.
Qed.

(** X24. [del_key] forgets exactly the users bound to the login: of
    [user_emails] it keeps, in order, the entries whose value is not
    the login, and of [paid_users] the entries of the users whose email
    was not the login. *)
Theorem del_key_forgets_login (login : string) (user_emails paid_users : pydict) :
  distinct (map fst user_emails) = true ->
  distinct (map fst paid_users) = true ->
  del_key_mappings login user_emails paid_users
  = (filter (fun kv => negb (py_eq_str (snd kv) login)) user_emails,
     filter (fun kv => negb (py_eq_str (dict_get user_emails (fst kv)) login))
            paid_users).
Proof.
  intros Hu Hp. unfold del_key_mappings. rewrite del_key_fold by assumption.
  f_equal.
  - apply filter_ext_in. intros [k v] Hin. cbn [fst snd].
    rewrite bound_to_login by assumption. f_equal. f_equal.
    unfold dict_get, dict_get_default.
    clear Hp. induction user_emails as [|[a x] d IH]; [contradiction|].
    cbn [map fst distinct] in Hu. apply andb_true_iff in Hu as [Ha Hd].
    apply negb_true_iff in Ha. cbn [dict_lookup]. destruct Hin as [E | Hin].
    + injection E as -> ->. now rewrite String.eqb_refl.
    + pose proof (absent_key d a Ha (k, v) Hin) as F. cbn [fst] in F.
      rewrite String.eqb_sym in F. rewrite F. now apply IH.
  - apply filter_ext. intros [k v]. cbn [fst].
    now rewrite bound_to_login by assumption.
Qed.

Lemma del_key_forgets_login_witness :
  del_key_mappings "alice"
    [("1", PStr "alice"); ("2", PStr "bob"); ("3", PStr "alice")]
    [("3", PInt 30); ("2", PInt 20); ("9", PInt 90)]
  = ([("2", PStr "bob")], [("2", PInt 20); ("9", PInt 90)]).
Proof.
  apply (del_key_forgets_login "alice"
           [("1", PStr "alice"); ("2", PStr "bob"); ("3", PStr "alice")]
           [("3", PInt 30); ("2", PInt 20); ("9", PInt 90)]); reflexivity.
Defined.

(** X25. [_safe_json_load] stops after three rounds: a value that is
    still text after three rounds of [json.loads] gives the empty
    dict, even when a fourth round would give an object. *)
Theorem safe_json_load_depth_limit (obj : pyval) (s : string) :
  unwraps 3 obj (PStr s) -> _safe_json_load obj = Ok (PDict []).
Proof.
  intros H. unfold _safe_json_load.
  pose proof (unwrap_json_unwraps_exact 3 0 obj (PStr s) H) as E.
  change (3 + 0)%nat with 3%nat in E. rewrite E. reflexivity.
Qed.

Lemma safe_json_load_depth_limit_witness :
  json_loads
    (json_dumps (PStr (json_dumps (PStr (json_dumps (PStr (json_dumps
       (PStr (json_dumps (PDict [("a", PInt 1)]))))))))))
  = Ok (PStr (json_dumps (PStr (json_dumps (PStr (json_dumps
       (PStr (json_dumps (PDict [("a", PInt 1)])))))))))
  /\ _safe_json_load
       (PStr (json_dumps (PStr (json_dumps (PStr (json_dumps
          (PStr (json_dumps (PDict [("a", PInt 1)])))))))))
     = Ok (PDict []).
Proof.
  split; [vm_compute; reflexivity|].
  apply (safe_json_load_depth_limit _ (json_dumps (PDict [("a", PInt 1)]))).
  repeat (econstructor; [vm_compute; reflexivity|]). constructor.
Defined.

(* ================================================================== *)
(** ** How long the polling goes on *)

Lemma sleeps_app (a b : list event) : sleeps (a ++ b) = (sleeps a + sleeps b)%nat.
Proof. unfold sleeps. now rewrite filter_app, length_app. Qed.

Lemma sends_nothing {A} (m : M A) :
  (forall h, snd (m h) = h) -> sends_at_most 0 m.
Proof.
  intros H h. exists []. rewrite H, app_nil_r.
  split; [reflexivity | split; [simpl; lia | reflexivity]].
Qed.

Lemma sends_bind {A B} (n1 n2 : nat) (m : M A) (k : A -> M B) :
  sends_at_most n1 m -> (forall a, sends_at_most n2 (k a)) ->
  sends_at_most (n1 + n2) (bind m k).
Proof.
  intros Hm Hk h. unfold bind. destruct (Hm h) as (evs & E & L & S).
  destruct (m h) as [[a | e |] h']; simpl in E; subst h';
    try (exists evs; split; [reflexivity | split; [lia | exact S]]).
  destruct (Hk a (h ++ evs)%list) as (evs' & E' & L' & S').
  exists (evs ++ evs')%list. rewrite E', app_assoc, length_app, sleeps_app.
  split; [reflexivity | split; lia].
Qed.

Lemma sends_request (self : UIAPI) (method : http_method) (path : string)
      (payload : pyval) :
  sends_at_most 1 (_request self method path payload).
Proof.
  intros h. unfold _request.
  exists [EvRequest {| req_method := method; req_url := _build_url self path;
                       req_json := payload |}].
  split; [|split; [simpl; lia | reflexivity]].
  destruct (session self h _) as [text | text [v|]]; reflexivity.
Qed.

Lemma sends_weaken {A} (n n' : nat) (m : M A) :
  (n <= n')%nat -> sends_at_most n m -> sends_at_most n' m.
Proof.
  intros Hn Hm h. destruct (Hm h) as (evs & E & L & S).
  exists evs. split; [exact E | split; [lia | exact S]].
Qed.

Lemma get_inbounds_list_sends (self : UIAPI) :
  sends_at_most 1 (get_inbounds_list self).
Proof.
  unfold get_inbounds_list, _post.
  apply (sends_bind 1 0); [apply sends_request|].
  intros res. destruct (reports_success res);
    (apply (sends_bind 0 0); [|intros]); now apply sends_nothing.
Qed.

Lemma get_inbound_variants_sends (self : UIAPI)
      (variants : list (http_method * string * pyval)) :
  sends_at_most (List.length variants) (get_inbound_variants self variants).
Proof.
  induction variants as [|[[method path] payload] rest IH]; cbn [get_inbound_variants].
  - now apply sends_nothing.
  - change (List.length ((method, path, payload) :: rest))
      with (1 + List.length rest)%nat.
    apply sends_bind.
    + intros h. unfold try_except, bind, ret.
      destruct (sends_request self method path payload h) as (evs & E & L & S).
      exists evs.
      destruct (_request self method path payload h) as [[a | e |] h'];
        simpl in *; auto.
    + intros [res|]; [|exact IH].
      destruct res; try exact IH.
      destruct (is_dict _ && truthy _); [|exact IH].
      apply (sends_weaken 0); [lia | now apply sends_nothing].
Qed.

Lemma get_inbound_sends (self : UIAPI) (inbound_id : Z) :
  sends_at_most 3 (get_inbound self inbound_id).
Proof.
  unfold get_inbound.
  apply (sends_bind 1 2); [apply get_inbounds_list_sends|]. intros inbounds.
  apply (sends_bind 0 2); [now apply sends_nothing|]. intros items.
  apply (sends_bind 0 2); [now apply sends_nothing|]. intros [ib|].
  - apply (sends_weaken 0); [lia | now apply sends_nothing].
  - apply get_inbound_variants_sends.
Qed.

Section PollingBound.

Variables (W : World) (self : UIAPI) (inbound_id : Z) (email target : string).
Variable deadline : Z.

Hypothesis clock_monotone : forall h e, clock W h <= clock W (h ++ [e])%list.
Hypothesis sleep_advances :
  forall h, clock W h + 400 <= clock W (h ++ [EvSleep 400])%list.

Lemma clock_never_back (h : history) (evs : list event) :
  clock W h <= clock W (h ++ evs)%list.
Proof.
  induction evs as [|e evs IH] using rev_ind.
  - rewrite app_nil_r. lia.
  - rewrite app_assoc. specialize (clock_monotone (h ++ evs)%list e). lia.
Qed.

Lemma poll_link_rounds (fuel : nat) :
  forall h, exists evs,
    snd (poll_link W self inbound_id email target deadline fuel h) = (h ++ evs)%list
    /\ (List.length evs <= 4 * sleeps evs + 3)%nat
    /\ 400 * (Z.of_nat (sleeps evs) - 1) < Z.max 0 (deadline - clock W h).
Proof.
  induction fuel as [|f IH]; intros h; cbn [poll_link];
    destruct (Z.ltb_spec (clock W h) deadline) as [Hlt|Hge];
    try (exists []; rewrite app_nil_r;
         split; [reflexivity | split; [simpl; lia | simpl; lia]]).
  destruct (get_inbound_sends self inbound_id h) as (evs1 & E1 & L1 & S1).
  assert (Hround :
            exists evs,
              snd (poll_link W self inbound_id email target deadline f
                             ((h ++ evs1) ++ [EvSleep 400])%list) = (h ++ evs)%list
              /\ (List.length evs <= 4 * sleeps evs + 3)%nat
              /\ 400 * (Z.of_nat (sleeps evs) - 1) < Z.max 0 (deadline - clock W h)).
  { destruct (IH ((h ++ evs1) ++ [EvSleep 400])%list) as (evs2 & E2 & L2 & B2).
    exists (evs1 ++ EvSleep 400 :: evs2)%list.
    pose proof (clock_never_back h evs1).
    pose proof (sleep_advances (h ++ evs1)%list).
    split; [|split].
    - rewrite E2, <- !app_assoc. reflexivity.
    - rewrite length_app, sleeps_app. cbn [List.length].
      change (sleeps (EvSleep 400 :: evs2)) with (S (sleeps evs2)). lia.
    - rewrite sleeps_app.
      change (sleeps (EvSleep 400 :: evs2)) with (S (sleeps evs2)). lia. }
  assert (Hstop :
            exists evs,
              (h ++ evs1)%list = (h ++ evs)%list
              /\ (List.length evs <= 4 * sleeps evs + 3)%nat
              /\ 400 * (Z.of_nat (sleeps evs) - 1) < Z.max 0 (deadline - clock W h)).
  { exists evs1. split; [reflexivity | split; lia]. }
  unfold bind, lift, sleep, ret.
  destruct (get_inbound self inbound_id h) as [[inbound | e |] h1];
    simpl in E1; subst h1; try exact Hstop.
  destruct (negb (truthy inbound)); [exact Hround|].
  destruct (link_step W self email target inbound) as [[|r] | e |];
    try exact Hstop. exact Hround.
Qed.

End PollingBound.

(** X26. Polling is bounded.  On a clock that never runs backwards
    and on which a sleep of 0.4 s takes at least 0.4 s,
    [try_get_client_vless_link] sleeps [k] times with
    [400 (k - 1) < 1000 max(1, wait_seconds)] and sends at most three
    requests per round; [get_client_vless_link], with its window of 12
    seconds, sleeps at most 30 times. *)
Theorem polling_is_bounded (W : World) (self : UIAPI) (inbound_id : Z)
        (email : string) (h : history) :
  (forall h e, clock W h <= clock W (h ++ [e])%list) ->
  (forall h, clock W h + 400 <= clock W (h ++ [EvSleep 400])%list) ->
  (forall wait_seconds, exists evs,
      snd (try_get_client_vless_link W self inbound_id email wait_seconds h)
      = (h ++ evs)%list
      /\ 400 * (Z.of_nat (sleeps evs) - 1) < 1000 * Z.max 1 wait_seconds
      /\ (List.length evs <= 4 * sleeps evs + 3)%nat)
  /\ exists evs,
       snd (get_client_vless_link W self inbound_id email h) = (h ++ evs)%list
       /\ (sleeps evs <= 30)%nat /\ (List.length evs <= 123)%nat.
Proof.
  intros Hmono Hsleep.
  assert (Htry : forall wait_seconds, exists evs,
             snd (try_get_client_vless_link W self inbound_id email wait_seconds h)
             = (h ++ evs)%list
             /\ 400 * (Z.of_nat (sleeps evs) - 1) < 1000 * Z.max 1 wait_seconds
             /\ (List.length evs <= 4 * sleeps evs + 3)%nat).
  { intros w. unfold try_get_client_vless_link.
    destruct (poll_link_rounds W self inbound_id email (lower (strip email))
                (clock W h + 1000 * Z.max 1 w) Hmono Hsleep (max_polls W) h)
      as (evs & E & L & B).
    exists evs. split; [exact E | split; [lia | exact L]]. }
  split; [exact Htry|].
  destruct (Htry 12) as (evs & E & B & L).
  exists evs. split; [|lia].
  unfold get_client_vless_link, bind.
  destruct (try_get_client_vless_link W self inbound_id email 12 h)
    as [[[l|] | e |] h']; simpl in E; subst h'; try reflexivity.
  now destruct (String.eqb l "").
Qed.

Lemma polling_is_bounded_witness :
  (forall wait_seconds, exists evs,
      snd (try_get_client_vless_link Scenario.world Scenario.UI 2 "zed"
                                     wait_seconds [])
      = ([] ++ evs)%list
      /\ 400 * (Z.of_nat (sleeps evs) - 1) < 1000 * Z.max 1 wait_seconds
      /\ (List.length evs <= 4 * sleeps evs + 3)%nat)
  /\ exists evs,
       snd (get_client_vless_link Scenario.world Scenario.UI 2 "zed" [])
       = ([] ++ evs)%list
       /\ (sleeps evs <= 30)%nat /\ (List.length evs <= 123)%nat.
Proof.
  apply (polling_is_bounded Scenario.world Scenario.UI 2 "zed" []).
  - intros h e. unfold Scenario.world. cbn [clock]. rewrite length_app.
    cbn [List.length]. lia.
  - intros h. unfold Scenario.world. cbn [clock]. rewrite length_app.
    cbn [List.length]. lia.
Defined.

(* ================================================================== *)
(** ** The bot: top-ups *)

(** X27. A confirmed top-up for a client whose ceiling is [0] changes
    nothing: [approve_topup_callback] answers with the unlimited-plan
    error after read requests only.  Whatever the panel does, no
    exception leaves the handler. *)
Theorem approve_topup_unlimited_client (UI : UIAPI) (INBOUND_ID : Z)
        (gb : Z) (tgid email : string) (d sd cd : pydict) (items : list pyval)
        (h h1 : history) :
  get_inbound UI INBOUND_ID h = (Ok (PDict d), h1) ->
  truthy (PDict d) = true ->
  load_settings (PDict d) = Ok (PDict sd) ->
  dict_get_default sd "clients" (PList []) = PList items ->
  first_with_email items email = Ok (Some (PDict cd)) ->
  dict_get cd "totalGB" = PInt 0 ->
  approve_topup_callback UI INBOUND_ID (Some gb) tgid email h
  = (Ok (TopupError (RuntimeError MsgUnlimitedPlan)), h1)
  /\ (exists evs, h1 = (h ++ evs)%list /\ forallb (is_read UI) evs = true)
  /\ (forall addon h0 e,
         fst (approve_topup_callback UI INBOUND_ID addon tgid email h0) <> Raise e).
Proof.
  intros Hget Hinbound Hsettings Hclients Hfirst Hzero. split; [|split].
  - unfold approve_topup_callback, _apply_traffic_topup, try_except, bind.
    now rewrite (add_traffic_unlimited UI INBOUND_ID email gb d sd cd items h h1
                   Hget Hinbound Hsettings Hclients Hfirst Hzero).
  - destruct (get_inbound_reads UI INBOUND_ID h) as (evs & E & Hevs).
    rewrite Hget in E. now exists evs.
  - intros addon h0 e. unfold approve_topup_callback, try_except.
    match goal with |- fst (match ?m with _ => _ end) <> _ =>
      destruct m as [[r | e' |] h'] end; discriminate.
Qed.

Lemma approve_topup_unlimited_client_witness :
  approve_topup_callback Scenario.UI 2 (Some 10) "1" "carol" []
  = (Ok (TopupError (RuntimeError MsgUnlimitedPlan)), [Scenario.list_request])
  /\ (exists evs, [Scenario.list_request] = ([] ++ evs)%list
                  /\ forallb (is_read Scenario.UI) evs = true)
  /\ (forall addon h0 e,
         fst (approve_topup_callback Scenario.UI 2 addon "1" "carol" h0) <> Raise e).
Proof.
  apply (approve_topup_unlimited_client Scenario.UI 2 10 "1" "carol"
           Scenario.inbound_fields Scenario.settings_fields Scenario.carol_fields
           Scenario.clients [] [Scenario.list_request]); reflexivity.
Defined.

(** X28. The offer to top up agrees with [add_traffic].  When the bot
    has no local record of the user and the panel's client has an
    integer [totalGB] and neither [total_gb] nor [total],
    [user_topup_pick_callback] takes the plan as limited exactly when
    [totalGB] is not [0], which is when the loop of [add_traffic]
    accepts the client instead of raising the unlimited-plan error. *)
Theorem topup_offer_agrees_with_add_traffic (UI : UIAPI) (INBOUND_ID : Z)
        (paid_users cd : pydict) (tgid email : string) (N : Z)
        (clients : pyval) (items : list pyval) (h h1 : history) :
  dict_lookup paid_users tgid = None ->
  get_clients_list UI INBOUND_ID h = (Ok clients, h1) ->
  py_iter clients = Ok items ->
  first_with_email items email = Ok (Some (PDict cd)) ->
  dict_lookup cd "total_gb" = None ->
  dict_lookup cd "total" = None ->
  dict_get cd "totalGB" = PInt N ->
  topup_limited UI INBOUND_ID paid_users tgid email h = (Ok (negb (N =? 0)%Z), h1)
  /\ (forall add_gb,
         N = 0 ->
         add_traffic_clients email add_gb items
         = Raise (RuntimeError MsgUnlimitedPlan))
  /\ (forall add_gb,
         N <> 0 ->
         exists items', add_traffic_clients email add_gb items = Ok (Some items')).
Proof.
  intros Hnone Hlist Hiter Hfirst Hgb Htotal HN. split; [|split].
  - destruct (first_with_email_split _ _ _ Hfirst)
      as (pre & post & cd' & _ & E & _ & Hemail).
    injection E as <-.
    assert (Hlim : client_limited cd = negb (N =? 0)%Z).
    { unfold client_limited. unfold dict_get, dict_get_default in *.
      rewrite Hgb, Htotal.
      destruct (dict_lookup cd "totalGB") as [v|]; [|discriminate HN].
      subst v. unfold py_or. cbn [truthy negb].
      destruct (Z.eqb_spec N 0) as [-> | Hn]; cbn [negb]; [reflexivity|].
      now apply Z.eqb_neq in Hn as ->. }
    unfold topup_limited, dict_get, dict_get_default. rewrite Hnone.
    cbn [truthy]. unfold bind at 1, lift at 1.
    unfold try_except, bind, lift. rewrite Hlist, Hiter, Hfirst.
    unfold ret. rewrite Hlim. clear - Hemail.
    destruct cd; [discriminate Hemail | reflexivity].
  - intros add_gb ->. now apply (add_traffic_clients_unlimited _ _ _ cd).
  - intros add_gb Hn. eexists.
    now apply (add_traffic_clients_limited _ _ N _ cd).
Qed.

Lemma topup_offer_agrees_with_add_traffic_witness :
  topup_limited Scenario.UI 2 [] "1" "alice" []
  = (Ok (negb (32212254720 =? 0)%Z), [Scenario.list_request])
  /\ (forall add_gb,
         32212254720 = 0 ->
         add_traffic_clients "alice" add_gb Scenario.clients
         = Raise (RuntimeError MsgUnlimitedPlan))
  /\ (forall add_gb,
         32212254720 <> 0 ->
         exists items',
           add_traffic_clients "alice" add_gb Scenario.clients = Ok (Some items')).
Proof.
  apply (topup_offer_agrees_with_add_traffic Scenario.UI 2 [] Scenario.alice_fields
           "1" "alice" 32212254720 (PList Scenario.clients) Scenario.clients []
           [Scenario.list_request]); reflexivity.
Defined.
